(** * Digital Wallet API: the money-movement core

    A shallow embedding of the Express handlers of [backend/src/routes]
    ([wallet.js], [transactions.js], [auth.js], [users.js]) and of
    [middleware/auth.js], together with the relational schema of
    [backend/src/utils/migrate.js].

    Conventions of the embedding.
    - Money is a [DECIMAL(15,2)] column; a stored value is kept as an integer
      number of minor units (paise), so 1.00 is [100].  The [amount] of a
      request body is a JSON number and may have any number of decimals
      ([Decimal]); the ledger rounds it to the scale of its columns.
    - A [uuid] column holds a value, kept in the canonical text form that
      PostgreSQL prints ([Uuid]).  [req.user.id] is such a value, taken from
      a row by the middleware.  The ids a request names in its body or path
      are text, which PostgreSQL reads as a uuid ([uuid_in]) when a statement
      compares or stores them, and which JavaScript compares as text.
    - [uuid_generate_v4()], [CURRENT_TIMESTAMP], [Date.now()] and
      [Math.random()] are inputs of a request, gathered in [Env].
    - Numbers of the query string are JavaScript Numbers ([to_number]).
    - Text is the string of bytes the driver sends, UTF-8.
    - Requests are executed one at a time.  Ledger statements may fail
      ([fault]), a cache invalidation may fail ([del_fault]) and so may
      [jwt.sign]; Redis [get] and [setEx] (the balance cache of
      [GET /balance], the session of a login), [bcrypt.hash],
      [pool.connect] and [ROLLBACK] are taken to succeed. *)

From stdpp Require Import base option list sorting gmap strings pretty.
From Stdlib Require Import ZArith Lia Ascii.

Local Open Scope Z_scope.

(** ** Values *)

(** *** uuid *)

(** A uuid value, written the way [uuid_out] prints it: thirty-two lower-case
    hexadecimal digits in groups of 8, 4, 4, 4 and 12. *)
Definition Uuid : Type := string.

Definition is_hex_digit (c : ascii) : bool :=
  let n := nat_of_ascii c in
  ((48 <=? n) && (n <=? 57) || (65 <=? n) && (n <=? 70) || (97 <=? n) && (n <=? 102))%nat.

(** The digit as [uuid_out] prints it. *)
Definition lower_digit (c : ascii) : ascii :=
  let n := nat_of_ascii c in
  if ((65 <=? n) && (n <=? 70))%nat then ascii_of_nat (n + 32) else c.

(** The loop of PostgreSQL's [string_to_uuid]: [n] more bytes of two
    hexadecimal digits each, byte [i] being the next; a hyphen may follow
    every second byte but the last. The result is the digits read and the
    text left over. *)
Fixpoint uuid_digits (n i : nat) (src : string) : option (string * string) :=
  match n with
  | O => Some ("", src)
  | S n' =>
      match src with
      | String a (String b src') =>
          if is_hex_digit a && is_hex_digit b then
            let src'' :=
              match src' with
              | String "-"%char t => if Nat.odd i && (i <? 15)%nat then t else src'
              | _ => src'
              end in
            match uuid_digits n' (S i) src'' with
            | Some (ds, rest) =>
                Some (String (lower_digit a) (String (lower_digit b) ds), rest)
            | None => None
            end
          else None
      | _ => None
      end
  end.

Definition uuid_out (ds : string) : Uuid :=
  String.substring 0 8 ds +:+ "-" +:+ String.substring 8 4 ds +:+ "-" +:+ String.substring 12 4 ds
    +:+ "-" +:+ String.substring 16 4 ds +:+ "-" +:+ String.substring 20 12 ds.

(** How PostgreSQL reads a text as a uuid ([uuid_in]): an optional pair of
    braces around the sixteen bytes; digits in either case. [None] is the
    error [invalid input syntax for type uuid]. *)
Definition uuid_in (s : string) : option Uuid :=
  let '(braces, src) :=
    match s with
    | String "{"%char t => (true, t)
    | _ => (false, s)
    end in
  match uuid_digits 16 0 src with
  | Some (ds, rest) =>
      if bool_decide (rest = if braces then "}" else "") then Some (uuid_out ds) else None
  | None => None
  end.

(** [n] hexadecimal digits, and what follows them. *)
Fixpoint hex_run (n : nat) (s : string) : option string :=
  match n with
  | O => Some s
  | S n' =>
      match s with
      | String c s' => if is_hex_digit c then hex_run n' s' else None
      | EmptyString => None
      end
  end.

(** What follows a hyphen. *)
Definition after_hyphen (s : option string) : option string :=
  match s with
  | Some (String "-"%char t) => Some t
  | _ => None
  end.

(** [isUUID()] of the validator, without a version: the text matches
    [/^[0-9A-F]{8}-[0-9A-F]{4}-[0-9A-F]{4}-[0-9A-F]{4}-[0-9A-F]{12}$/i]. *)
Definition isUUID (s : string) : bool :=
  match after_hyphen (hex_run 8 s) with
  | Some s1 =>
      match after_hyphen (hex_run 4 s1) with
      | Some s2 =>
          match after_hyphen (hex_run 4 s2) with
          | Some s3 =>
              match after_hyphen (hex_run 4 s3) with
              | Some s4 => bool_decide (hex_run 12 s4 = Some "")
              | None => false
              end
          | None => false
          end
      | None => false
      end
  | None => false
  end.

(** *** Numbers *)

(** A JSON number as JavaScript writes it ([Number.prototype.toString], which
    is what the driver sends and what [res.json] prints): [mantissa] times
    ten to the minus [scale]. *)
Record Decimal := mkDecimal {
  mantissa : Z;
  scale : nat }.

#[global] Instance Decimal_eq_dec : EqDecision Decimal.
Proof. solve_decision. Defined.

(** An amount of whole minor units, and its negation. *)
Definition paise (v : Z) : Decimal := mkDecimal v 2.
Definition negated (a : Decimal) : Decimal := mkDecimal (- mantissa a) (scale a).

(** [n / d] rounded to an integer, ties away from zero: the rounding of
    PostgreSQL's [numeric]. *)
Definition round_half_away (n d : Z) : Z := Z.sgn n * ((2 * Z.abs n + d) / (2 * d)).

(** The amount as a [DECIMAL(15,2)] column takes it, in minor units. *)
Definition to_numeric_2 (a : Decimal) : Z :=
  round_half_away (mantissa a * 100) (10 ^ Z.of_nat (scale a)).

(** [balance + $1] for a balance of [b] minor units, assigned to a
    [DECIMAL(15,2)] column: the sum is exact, the assignment rounds. *)
Definition add_numeric_2 (b : Z) (a : Decimal) : Z :=
  round_half_away (b * 10 ^ Z.of_nat (scale a) + mantissa a * 100) (10 ^ Z.of_nat (scale a)).

(** [balance < amount] in JavaScript, for [parseFloat] of a balance of [b]
    minor units. *)
Definition balance_below (b : Z) (a : Decimal) : Prop :=
  b * 10 ^ Z.of_nat (scale a) < mantissa a * 100.

(** The Number nearest to an integer: below 2^53 the integer itself, above
    it the nearest multiple of the unit in the last place of its 53-bit
    significand, ties to the even one. *)
Definition to_number (z : Z) : Z :=
  let a := Z.abs z in
  if bool_decide (a ≤ 2 ^ 53) then z
  else
    let e := Z.log2 a - 52 in
    let q := a / 2 ^ e in
    let r := a mod 2 ^ e in
    let half := 2 ^ (e - 1) in
    let q' := if bool_decide (r < half) then q
              else if bool_decide (half < r) then q + 1
              else if Z.even q then q else q + 1 in
    Z.sgn z * (q' * 2 ^ e).

(** [a - b] and [a * b] on Numbers that are integers. *)
Definition js_sub (a b : Z) : Z := to_number (a - b).
Definition js_mul (a b : Z) : Z := to_number (a * b).

(** What a [bigint] parameter may be. Above 2^53 the text the driver sends
    for a Number is its shortest decimal form, which is out of range exactly
    when the Number is. *)
Definition bigint (v : Z) : bool := bool_decide (- 2 ^ 63 ≤ v < 2 ^ 63).

(** *** Text *)

Definition is_continuation_byte (c : ascii) : bool :=
  let n := nat_of_ascii c in ((128 <=? n) && (n <? 192))%nat.

(** The first [n] characters of a UTF-8 text, and the rest. *)
Fixpoint utf8_split (n : nat) (s : string) : string * string :=
  match s with
  | EmptyString => ("", "")
  | String c s' =>
      if is_continuation_byte c then
        let '(a, b) := utf8_split n s' in (String c a, b)
      else
        match n with
        | O => ("", s)
        | S n' => let '(a, b) := utf8_split n' s' in (String c a, b)
        end
  end.

(** The characters of a UTF-8 text, each with its continuation bytes. *)
Fixpoint utf8_chars (s : string) : list string :=
  match s with
  | EmptyString => []
  | String c s' =>
      match utf8_chars s' with
      | String c' ch :: chs =>
          if is_continuation_byte c' then String c (String c' ch) :: chs
          else String c "" :: String c' ch :: chs
      | chs => String c "" :: chs
      end
  end.

Definition utf8 (bytes : list nat) : string :=
  String.string_of_list_ascii (ascii_of_nat <$> bytes).

(** What JavaScript's [\s] matches: tab, line feed, vertical tab, form
    feed, carriage return, space, U+00A0, U+1680, U+2000 to U+200A, U+2028,
    U+2029, U+202F, U+205F, U+3000 and U+FEFF. *)
Definition white_space : list string :=
  utf8 <$> [[9]; [10]; [11]; [12]; [13]; [32]; [194; 160]; [225; 154; 128];
            [226; 128; 128]; [226; 128; 129]; [226; 128; 130]; [226; 128; 131];
            [226; 128; 132]; [226; 128; 133]; [226; 128; 134]; [226; 128; 135];
            [226; 128; 136]; [226; 128; 137]; [226; 128; 138]; [226; 128; 168];
            [226; 128; 169]; [226; 128; 175]; [226; 129; 159]; [227; 128; 128];
            [239; 187; 191]]%nat.

Fixpoint drop_while {A} (f : A → bool) (l : list A) : list A :=
  match l with
  | x :: l' => if f x then drop_while f l' else l
  | [] => []
  end.

Definition is_white_space (ch : string) : bool := bool_decide (ch ∈ white_space).

Definition join (chs : list string) : string := foldr String.append "" chs.

(** validator's [trim]: [ltrim], then [rtrim]. *)
Definition ltrim (s : string) : string := join (drop_while is_white_space (utf8_chars s)).
Definition rtrim (s : string) : string :=
  join (reverse (drop_while is_white_space (reverse (utf8_chars s)))).
Definition trim (s : string) : string := rtrim (ltrim s).

(** The length validator's [isLength] compares: the UTF-16 length less the
    surrogate pairs and the variation selectors U+FE0E and U+FE0F, that is
    the number of characters that are no such selector. *)
Definition is_variation_selector (ch : string) : bool :=
  bool_decide (ch ∈ utf8 <$> [[239; 184; 142]; [239; 184; 143]]%nat).
Definition isLength_len (s : string) : nat :=
  length (filter (λ ch, is_variation_selector ch = false) (utf8_chars s)).

Fixpoint has_nul (s : string) : bool :=
  match s with
  | EmptyString => false
  | String c s' => Ascii.eqb c "000"%char || has_nul s'
  end.

Fixpoint all_spaces (s : string) : bool :=
  match s with
  | EmptyString => true
  | String c s' => Ascii.eqb c " "%char && all_spaces s'
  end.

(** ** Schema (migrate.js) *)

Inductive TransactionType := add_money | send_money | receive_money.
Inductive Status := pending | completed | failed.

#[global] Instance TransactionType_eq_dec : EqDecision TransactionType.
Proof. solve_decision. Defined.
#[global] Instance Status_eq_dec : EqDecision Status.
Proof. solve_decision. Defined.

(** Rows of [users]. *)
Record User := mkUser {
  u_id : Uuid;
  u_email : string;
  u_password_hash : string;
  u_name : string;
  u_phone : string;
  u_is_active : bool }.

(** Rows of [wallets]; the columns no handler reads or writes ([id],
    [currency], the timestamps) are left out. *)
Record Wallet := mkWallet {
  w_user_id : Uuid;
  w_balance : Z }.

(** Rows of [transactions]. *)
Record Transaction := mkTransaction {
  t_id : Uuid;
  t_sender_id : option Uuid;
  t_recipient_id : option Uuid;
  t_amount : Z;
  t_transaction_type : TransactionType;
  t_status : Status;
  t_payment_method : option string;
  t_note : option string;
  t_reference_id : option string;
  t_created_at : Z }.

#[global] Instance User_eq_dec : EqDecision User.
Proof. solve_decision. Defined.
#[global] Instance Wallet_eq_dec : EqDecision Wallet.
Proof. solve_decision. Defined.
#[global] Instance Transaction_eq_dec : EqDecision Transaction.
Proof. solve_decision. Defined.

Record Db := mkDb {
  users : list User;
  wallets : list Wallet;
  transactions : list Transaction }.

Definition empty_db : Db := mkDb [] [] [].

Inductive DbError :=
| unique_violation
| foreign_key_violation
| check_violation
| numeric_value_out_of_range
| invalid_row_count
| invalid_text_representation
| string_data_right_truncation
| character_not_in_repertoire
| connection_failure.

(** [x] first, then [f] on its result. *)
Definition and_then {A B} (x : DbError + A) (f : A → DbError + B) : DbError + B :=
  match x with
  | inl e => inl e
  | inr a => f a
  end.

(** A value of a [TEXT] column: any text without the NUL character. *)
Definition text (s : string) : DbError + string :=
  if has_nul s then inl character_not_in_repertoire else inr s.

(** A value stored into a [VARCHAR(n)] column: at most [n] characters; of a
    longer text the excess is cut off when it is all spaces and is an error
    otherwise. *)
Definition varchar (n : nat) (s : string) : DbError + string :=
  if has_nul s then inl character_not_in_repertoire
  else
    let '(a, b) := utf8_split n s in
    if bool_decide (b = "") then inr s
    else if all_spaces b then inr a
    else inl string_data_right_truncation.

Definition nullable (f : string → DbError + string) (o : option string)
  : DbError + option string :=
  match o with
  | None => inr None
  | Some s => and_then (f s) (λ s', inr (Some s'))
  end.

(** [DECIMAL(15,2)]: fifteen digits, two of them after the point. *)
Definition numeric_15_2 (v : Z) : bool := bool_decide (Z.abs v < 10 ^ 15).

(** [CHECK (balance >= 0)] on [wallets]. *)
Definition wallets_balance_check (v : Z) : bool := bool_decide (0 <= v).

(** [CHECK (amount > 0)] on [transactions]. *)
Definition transactions_amount_check (v : Z) : bool := bool_decide (0 < v).

Definition user_exists (id : Uuid) (d : Db) : bool :=
  bool_decide (id ∈ u_id <$> users d).

(** [REFERENCES users(id)] on a nullable column. *)
Definition references_users (o : option Uuid) (d : Db) : bool :=
  match o with
  | None => true
  | Some id => user_exists id d
  end.

(** ** Statements *)

(** A statement with a parameter that PostgreSQL reads as a uuid. *)
Definition uuid_param {R} (s : string) (f : Uuid → Db → DbError + (Db * R)) (d : Db)
  : DbError + (Db * R) :=
  match uuid_in s with
  | Some id => f id d
  | None => inl invalid_text_representation
  end.

(** The values of a new row of [transactions] as its columns take them
    ([payment_method VARCHAR(50)], [note TEXT], [reference_id VARCHAR(100)],
    [amount DECIMAL(15,2)], already rounded to minor units). *)
Definition transactions_columns (t : Transaction) : DbError + Transaction :=
  and_then (nullable (varchar 50) (t_payment_method t)) (λ payment_method,
  and_then (nullable text (t_note t)) (λ note,
  and_then (nullable (varchar 100) (t_reference_id t)) (λ reference_id,
  if negb (numeric_15_2 (t_amount t)) then inl numeric_value_out_of_range
  else inr (mkTransaction (t_id t) (t_sender_id t) (t_recipient_id t) (t_amount t)
              (t_transaction_type t) (t_status t) payment_method note reference_id
              (t_created_at t))))).

(** [INSERT INTO transactions (...) VALUES (...) RETURNING id]. The row
    arrives with the generated [id] and [created_at] filled in. *)
Definition insert_transaction (t : Transaction) (d : Db) : DbError + (Db * Uuid) :=
  and_then (transactions_columns t) (λ t,
  if bool_decide (t_id t ∈ t_id <$> transactions d) then inl unique_violation
  else if negb (transactions_amount_check (t_amount t)) then inl check_violation
  else if bool_decide (is_Some (t_reference_id t)
                       ∧ t_reference_id t ∈ t_reference_id <$> transactions d)
       then inl unique_violation
  else if negb (references_users (t_sender_id t) d
                && references_users (t_recipient_id t) d)
       then inl foreign_key_violation
  else inr (mkDb (users d) (wallets d) (transactions d ++ [t]), t_id t)).

(** One row of [UPDATE wallets SET balance = balance + delta WHERE user_id = uid]. *)
Definition update_wallet_row (delta : Decimal) (uid : Uuid) (w : Wallet) : DbError + Wallet :=
  if bool_decide (w_user_id w = uid) then
    let b := add_numeric_2 (w_balance w) delta in
    if negb (numeric_15_2 b) then inl numeric_value_out_of_range
    else if negb (wallets_balance_check b) then inl check_violation
    else inr (mkWallet (w_user_id w) b)
  else inr w.

Fixpoint update_wallet_rows (delta : Decimal) (uid : Uuid) (ws : list Wallet)
  : DbError + list Wallet :=
  match ws with
  | [] => inr []
  | w :: ws' =>
      match update_wallet_row delta uid w with
      | inl e => inl e
      | inr w' =>
          match update_wallet_rows delta uid ws' with
          | inl e => inl e
          | inr ws'' => inr (w' :: ws'')
          end
      end
  end.

(** [SELECT balance FROM wallets WHERE user_id = uid]. *)
Definition select_balance (uid : Uuid) (d : Db) : list Z :=
  w_balance <$> filter (λ w, w_user_id w = uid) (wallets d).

(** [UPDATE wallets SET balance = balance + delta ... WHERE user_id = uid
    RETURNING balance]; [balance - $1] is [balance + delta] for the negated
    amount. *)
Definition update_balance (delta : Decimal) (uid : Uuid) (d : Db) : DbError + (Db * list Z) :=
  match update_wallet_rows delta uid (wallets d) with
  | inl e => inl e
  | inr ws =>
      let d' := mkDb (users d) ws (transactions d) in
      inr (d', select_balance uid d')
  end.

(** [SELECT id, name, email FROM users WHERE id = uid AND is_active = true]. *)
Definition select_active_user (uid : Uuid) (d : Db) : list User :=
  filter (λ u, u_id u = uid ∧ u_is_active u = true) (users d).

(** [SELECT id FROM users WHERE email = e OR phone = p]. *)
Definition select_user_by_email_or_phone (e p : string) (d : Db) : list User :=
  filter (λ u, u_email u = e ∨ u_phone u = p) (users d).

(** The values of a new row of [users] as its columns take them ([email],
    [password_hash] and [name] are [VARCHAR(255)], [phone] is [VARCHAR(20)]). *)
Definition users_columns (u : User) : DbError + User :=
  and_then (varchar 255 (u_email u)) (λ email,
  and_then (varchar 255 (u_password_hash u)) (λ password_hash,
  and_then (varchar 255 (u_name u)) (λ name,
  and_then (varchar 20 (u_phone u)) (λ phone,
  inr (mkUser (u_id u) email password_hash name phone (u_is_active u)))))).

(** [INSERT INTO users (email, password_hash, name, phone) ... RETURNING ...];
    [is_active] takes its default, [true]. *)
Definition insert_user (u : User) (d : Db) : DbError + (Db * User) :=
  and_then (users_columns u) (λ u,
  if bool_decide (u_id u ∈ u_id <$> users d) then inl unique_violation
  else if bool_decide (u_email u ∈ u_email <$> users d) then inl unique_violation
  else if bool_decide (u_phone u ∈ u_phone <$> users d) then inl unique_violation
  else inr (mkDb (users d ++ [u]) (wallets d) (transactions d), u)).

(** [INSERT INTO wallets (user_id, balance) VALUES (uid, b)]. *)
Definition insert_wallet (uid : Uuid) (b : Z) (d : Db) : DbError + (Db * unit) :=
  if negb (user_exists uid d) then inl foreign_key_violation
  else if negb (numeric_15_2 b) then inl numeric_value_out_of_range
  else if negb (wallets_balance_check b) then inl check_violation
  else inr (mkDb (users d) (wallets d ++ [mkWallet uid b]) (transactions d), tt).

(** ** Requests, connections and the handler monad *)

(** The SQL statements the handlers issue. *)
Inductive Stmt :=
| Begin
| Commit
| Rollback
| SelectBalance (user_id : Uuid)
| SelectActiveUser (id : string)
| InsertTransaction (ty : TransactionType)
| UpdateBalance (delta : Decimal) (user_id : string)
| SelectUserByEmailOrPhone
| InsertUser
| InsertWallet
| SelectTransactions
| CountTransactions
| SelectTransaction.

Inductive Event :=
| EvConnect
| EvRelease
| EvQuery (s : Stmt)
| EvRedisGet (key : string)
| EvRedisSetEx (key : string) (seconds : Z)
| EvRedisDel (key : string).

(** What a request takes from its environment: the clock (in seconds), the
    values [uuid_generate_v4()] returns in order, the
    [`${Date.now()}_${Math.random().toString(36).substr(2, 9)}`] part of a
    reference id, the statements that fail for reasons of the store itself,
    the order in which the store returns rows that [ORDER BY] leaves tied,
    the library calls [bcrypt.hash] and [jwt.sign] ([None] when it throws),
    and the keys for which [redisClient.del] is rejected. *)
Record Env := mkEnv {
  now : Z;
  uuid : nat → Uuid;
  stamp : string;
  fault : Stmt → bool;
  tie_order : Transaction → Transaction → bool;
  bcrypt_hash : string → string;
  jwt_sign : string → string → option string;
  del_fault : string → bool }.

(** A Redis entry written by [setEx]: [balance.toString()] (never the empty
    string, so the handler's truthiness test is an existence test) and the
    time it expires. *)
Record CacheEntry := mkCacheEntry {
  c_value : Z;
  c_expires_at : Z }.

(** The stores as one request sees them: the committed ledger, the working
    copy of the transaction its client has open, Redis, and the calls made. *)
Record Conn := mkConn {
  ledger : Db;
  txn : option Db;
  redis : gmap string CacheEntry;
  log : list Event }.

Inductive Exn :=
| DatabaseError (e : DbError)
| RedisError
| JsonWebTokenError
| TypeError (msg : string)
| Error (msg : string).

Definition M (A : Type) : Type := Conn → (Exn + A) * Conn.

#[global] Instance M_ret : MRet M := λ A a c, (inr a, c).
#[global] Instance M_bind : MBind M := λ A B f m c,
  match m c with
  | (inl e, c') => (inl e, c')
  | (inr a, c') => f a c'
  end.

Definition throw {A} (e : Exn) : M A := λ c, (inl e, c).

(** [try { m } catch (error) { h error }]. *)
Definition try_catch {A} (m : M A) (h : Exn → M A) : M A := λ c,
  match m c with
  | (inl e, c') => h e c'
  | (inr a, c') => (inr a, c')
  end.

(** [try { m } finally { f }]. *)
Definition try_finally {A} (m : M A) (f : M unit) : M A := λ c,
  match m c with
  | (r, c') =>
      match f c' with
      | (inl e, c'') => (inl e, c'')
      | (inr _, c'') => (r, c'')
      end
  end.

(** [await Promise.all([a, b])]: both calls are made; the first rejection,
    if any, is thrown. *)
Definition promise_all (a b : M unit) : M unit := λ c,
  match a c with
  | (ra, c') =>
      match b c' with
      | (rb, c'') => (match ra with inl e => inl e | inr _ => rb end, c'')
      end
  end.

Definition emit (ev : Event) (c : Conn) : Conn :=
  mkConn (ledger c) (txn c) (redis c) (log c ++ [ev]).

Definition pool_connect : M unit := λ c, (inr tt, emit EvConnect c).
Definition client_release : M unit := λ c, (inr tt, emit EvRelease c).

(** What the client reads: its open transaction, else the committed ledger. *)
Definition current (c : Conn) : Db := default (ledger c) (txn c).

Definition set_current (d : Db) (c : Conn) : Conn :=
  match txn c with
  | Some _ => mkConn (ledger c) (Some d) (redis c) (log c)
  | None => mkConn d None (redis c) (log c)
  end.

(** [client.query("BEGIN")]. *)
Definition client_begin (env : Env) : M unit := λ c,
  let c := emit (EvQuery Begin) c in
  if fault env Begin then (inl (DatabaseError connection_failure), c)
  else (inr tt, mkConn (ledger c) (Some (current c)) (redis c) (log c)).

(** [client.query("COMMIT")]. *)
Definition client_commit (env : Env) : M unit := λ c,
  let c := emit (EvQuery Commit) c in
  if fault env Commit then (inl (DatabaseError connection_failure), c)
  else (inr tt, mkConn (current c) None (redis c) (log c)).

(** [client.query("ROLLBACK")]; outside a transaction it changes nothing. *)
Definition client_rollback : M unit := λ c,
  let c := emit (EvQuery Rollback) c in
  (inr tt, mkConn (ledger c) None (redis c) (log c)).

(** [client.query(sql, params)] for a statement [s] with meaning [f]. *)
Definition client_query {R} (env : Env) (s : Stmt) (f : Db → DbError + (Db * R)) : M R := λ c,
  let c := emit (EvQuery s) c in
  if fault env s then (inl (DatabaseError connection_failure), c)
  else match f (current c) with
       | inl e => (inl (DatabaseError e), c)
       | inr (d, r) => (inr r, set_current d c)
       end.

(** [pool.query(sql, params)]: a statement of its own on the committed ledger. *)
Definition pool_query {R} (env : Env) (s : Stmt) (f : Db → DbError + (Db * R)) : M R := λ c,
  let c := emit (EvQuery s) c in
  if fault env s then (inl (DatabaseError connection_failure), c)
  else match f (ledger c) with
       | inl e => (inl (DatabaseError e), c)
       | inr (d, r) => (inr r, mkConn d (txn c) (redis c) (log c))
       end.

(** A statement that only reads. *)
Definition reading {R} (f : Db → R) (d : Db) : DbError + (Db * R) := inr (d, f d).

(** [redisClient.get(key)]: an expired entry is gone. *)
Definition redis_lookup (t : Z) (key : string) (r : gmap string CacheEntry) : option Z :=
  match r !! key with
  | Some e => if bool_decide (t < c_expires_at e) then Some (c_value e) else None
  | None => None
  end.

Definition redis_get (env : Env) (key : string) : M (option Z) := λ c,
  (inr (redis_lookup (now env) key (redis c)), emit (EvRedisGet key) c).

(** [redisClient.setEx(key, seconds, value)]. *)
Definition redis_setEx (env : Env) (key : string) (seconds : Z) (v : Z) : M unit := λ c,
  let c := emit (EvRedisSetEx key seconds) c in
  (inr tt, mkConn (ledger c) (txn c)
             (<[key := mkCacheEntry v (now env + seconds)]> (redis c)) (log c)).

(** [redisClient.del(key)]; a rejected call leaves the entry where it is. *)
Definition redis_del (env : Env) (key : string) : M unit := λ c,
  let c := emit (EvRedisDel key) c in
  if del_fault env key then (inl RedisError, c)
  else (inr tt, mkConn (ledger c) (txn c) (delete key (redis c)) (log c)).

(** ** Responses *)

Record Party := mkParty {
  p_name : option string;
  p_email : option string }.

(** A transaction as the history endpoints show it. *)
Record TxView := mkTxView {
  v_id : Uuid;
  v_type : TransactionType;
  v_amount : Z;
  v_status : Status;
  v_paymentMethod : option string;
  v_note : option string;
  v_referenceId : option string;
  v_createdAt : Z;
  v_recipient : option Party;
  v_sender : option Party }.

Record Pagination := mkPagination {
  pg_page : Z;
  pg_limit : Z;
  pg_total : Z;
  pg_pages : Z;
  pg_hasNext : bool;
  pg_hasPrev : bool }.

Inductive Data :=
| BalanceData (balance : Z) (lastUpdated : Z) (cached : bool)
| AddMoneyData (transactionId : Uuid) (amount : Decimal) (newBalance : Z)
    (paymentMethod referenceId : string)
| SendMoneyData (transactionId : Uuid) (amount : Decimal) (newBalance : Z)
    (recipient_id : Uuid) (recipient_name recipient_email : string)
    (note : option string) (referenceId : string)
| RegisterData (token : string) (id : Uuid) (email name phone : string)
| TransactionsData (txs : list TxView) (pagination : Pagination)
| TransactionData (tx : TxView).

(** [res.status(code).json({ success, message, data })]. *)
Inductive Response :=
| Success (code : Z) (data : Data)
| Failure (code : Z) (message : string).

(** ** wallet.js *)

Definition balance_key (user_id : Uuid) : string := "balance:" +:+ user_id.

#[global] Instance balance_below_dec b a : Decision (balance_below b a).
Proof. unfold balance_below. apply _. Defined.

(** [GET /balance]. *)
Definition get_balance (env : Env) (user_id : Uuid) : M Response :=
  try_catch
    (let cacheKey := balance_key user_id in
     cachedBalance ← redis_get env cacheKey;
     match cachedBalance with
     | Some v => mret (Success 200 (BalanceData v (now env) true))
     | None =>
         rows ← pool_query env (SelectBalance user_id) (reading (select_balance user_id));
         match rows with
         | [] => mret (Failure 404 "Wallet not found")
         | balance :: _ =>
             redis_setEx env cacheKey 300 balance;;
             mret (Success 200 (BalanceData balance (now env) false))
         end
     end)
    (λ _, mret (Failure 500 "Failed to fetch balance")).

(** [POST /add-money]. *)
Definition post_add_money (env : Env) (userId : Uuid) (amount : Decimal)
    (paymentMethod : string) : M Response :=
  pool_connect;;
  try_finally
    (try_catch
       (let referenceId := "ADD_" +:+ stamp env in
        client_begin env;;
        transactionId ← client_query env (InsertTransaction add_money)
          (insert_transaction
             (mkTransaction (uuid env 0) (Some userId) None (to_numeric_2 amount) add_money
                completed (Some paymentMethod) None (Some referenceId) (now env)));
        walletResult ← client_query env (UpdateBalance amount userId)
          (update_balance amount userId);
        match walletResult with
        | [] => throw (TypeError "Cannot read properties of undefined")
        | newBalance :: _ =>
            client_commit env;;
            redis_del env (balance_key userId);;
            mret (Success 200
                    (AddMoneyData transactionId amount newBalance paymentMethod referenceId))
        end)
       (λ _, client_rollback;; mret (Failure 500 "Failed to add money")))
    client_release.

(** [POST /send-money]. [senderId === recipientId] compares the id of the
    caller's row with the text of the body; the statements read that text as
    a uuid. *)
Definition post_send_money (env : Env) (senderId : Uuid) (recipientId : string)
    (amount : Decimal) (note : option string) : M Response :=
  pool_connect;;
  try_finally
    (try_catch
       (if bool_decide (senderId = recipientId)
        then mret (Failure 400 "Cannot send money to yourself")
        else
          client_begin env;;
          senderWallet ← client_query env (SelectBalance senderId)
            (reading (select_balance senderId));
          match senderWallet with
          | [] => throw (Error "Sender wallet not found")
          | senderBalance :: _ =>
              if bool_decide (balance_below senderBalance amount)
              then client_rollback;; mret (Failure 400 "Insufficient balance")
              else
                recipient ← client_query env (SelectActiveUser recipientId)
                  (uuid_param recipientId (λ id, reading (select_active_user id)));
                match recipient with
                | [] => client_rollback;; mret (Failure 404 "Recipient not found")
                | recipient0 :: _ =>
                    let referenceId := "SEND_" +:+ stamp env in
                    sendTransactionId ← client_query env (InsertTransaction send_money)
                      (uuid_param recipientId (λ id,
                         insert_transaction
                           (mkTransaction (uuid env 0) (Some senderId) (Some id)
                              (to_numeric_2 amount) send_money completed None note
                              (Some referenceId) (now env))));
                    client_query env (InsertTransaction receive_money)
                      (uuid_param recipientId (λ id,
                         insert_transaction
                           (mkTransaction (uuid env 1) (Some senderId) (Some id)
                              (to_numeric_2 amount) receive_money completed None note
                              (Some referenceId) (now env))));;
                    senderNewBalance ← client_query env (UpdateBalance (negated amount) senderId)
                      (update_balance (negated amount) senderId);
                    client_query env (UpdateBalance amount recipientId)
                      (uuid_param recipientId (update_balance amount));;
                    client_commit env;;
                    promise_all (redis_del env (balance_key senderId))
                      (redis_del env (balance_key recipientId));;
                    match senderNewBalance with
                    | [] => throw (TypeError "Cannot read properties of undefined")
                    | newBalance :: _ =>
                        mret (Success 200
                                (SendMoneyData sendTransactionId amount newBalance
                                   (u_id recipient0) (u_name recipient0) (u_email recipient0)
                                   note referenceId))
                    end
                end
          end)
       (λ _, client_rollback;; mret (Failure 500 "Failed to send money")))
    client_release.

(** ** auth.js: registration *)

(** [POST /register]. *)
Definition post_register (env : Env) (email password name phone : string) : M Response :=
  try_catch
    (existingUser ← pool_query env SelectUserByEmailOrPhone
       (reading (select_user_by_email_or_phone email phone));
     match existingUser with
     | _ :: _ => mret (Failure 409 "User with this email or phone already exists")
     | [] =>
         let passwordHash := bcrypt_hash env password in
         pool_connect;;
         try_finally
           (try_catch
              (client_begin env;;
               user ← client_query env InsertUser
                 (insert_user (mkUser (uuid env 0) email passwordHash name phone true));
               client_query env InsertWallet (insert_wallet (u_id user) 0);;
               client_commit env;;
               match jwt_sign env (u_id user) (u_email user) with
               | None => throw JsonWebTokenError
               | Some token =>
                   mret (Success 201
                           (RegisterData token (u_id user) (u_email user) (u_name user)
                              (u_phone user)))
               end)
              (λ error, client_rollback;; throw error))
           client_release
     end)
    (λ _, mret (Failure 500 "Registration failed")).

(** ** transactions.js *)

(** A row of [transactions t LEFT JOIN users sender LEFT JOIN users recipient]. *)
Record TxRow := mkTxRow {
  r_tx : Transaction;
  r_sender : option User;
  r_recipient : option User }.

(** [LEFT JOIN users x ON id = x.id] for a nullable [id]. *)
Definition left_join_users (o : option Uuid) (d : Db) : list (option User) :=
  match o with
  | None => [None]
  | Some id =>
      match filter (λ u, u_id u = id) (users d) with
      | [] => [None]
      | us => Some <$> us
      end
  end.

Definition joined_rows (d : Db) : list TxRow :=
  t ← transactions d;
  s ← left_join_users (t_sender_id t) d;
  r ← left_join_users (t_recipient_id t) d;
  [mkTxRow t s r].

(** [(t.sender_id = $1 OR t.recipient_id = $1)]. *)
Definition is_party (userId : Uuid) (t : Transaction) : bool :=
  bool_decide (t_sender_id t = Some userId ∨ t_recipient_id t = Some userId).

(** The [whereClause] the handler builds from [req.query.type]. *)
Definition where_clause (userId : Uuid) (type : option string) (t : Transaction) : bool :=
  is_party userId t &&
  match type with
  | Some ty =>
      if bool_decide (ty = "sent") then
        bool_decide (t_sender_id t = Some userId)
        && bool_decide (t_transaction_type t ∈ [send_money; add_money])
      else if bool_decide (ty = "received") then
        bool_decide (t_recipient_id t = Some userId)
        && bool_decide (t_transaction_type t = receive_money)
      else if bool_decide (ty = "add_money") then
        bool_decide (t_sender_id t = Some userId)
        && bool_decide (t_transaction_type t = add_money)
      else true
  | None => true
  end.

(** [ORDER BY t.created_at DESC]: later rows first; the clause names no
    further key, so rows created at the same time come in the order the
    store picks for this query ([tie]). *)
Definition comes_before (tie : Transaction → Transaction → bool) (a b : TxRow) : bool :=
  bool_decide (t_created_at (r_tx b) < t_created_at (r_tx a))
  || (bool_decide (t_created_at (r_tx a) = t_created_at (r_tx b)) && tie (r_tx a) (r_tx b)).

Fixpoint insert_row (before : TxRow → TxRow → bool) (x : TxRow) (l : list TxRow) : list TxRow :=
  match l with
  | [] => [x]
  | y :: l' => if before x y then x :: l else y :: insert_row before x l'
  end.

Definition order_by_created_at_desc (tie : Transaction → Transaction → bool)
    (rows : list TxRow) : list TxRow :=
  foldr (insert_row (comes_before tie)) [] rows.

(** [LIMIT limit OFFSET offset]. Both parameters are [bigint]: a Number
    outside its range makes the statement fail, and so does a negative one. *)
Definition limit_offset (limit offset : Z) (rows : list TxRow) : DbError + list TxRow :=
  if negb (bigint limit && bigint offset) then inl numeric_value_out_of_range
  else if bool_decide (limit < 0) || bool_decide (offset < 0) then inl invalid_row_count
  else inr (take (Z.to_nat limit) (drop (Z.to_nat offset) rows)).

(** The page query of [GET /transactions]. *)
Definition select_transactions (tie : Transaction → Transaction → bool) (userId : Uuid)
    (type : option string) (limit offset : Z) (d : Db) : DbError + (Db * list TxRow) :=
  match limit_offset limit offset
          (order_by_created_at_desc tie
             (filter (λ r, where_clause userId type (r_tx r) = true) (joined_rows d))) with
  | inl e => inl e
  | inr rows => inr (d, rows)
  end.

(** [SELECT COUNT( * ) as total FROM transactions t WHERE ...]. *)
Definition count_transactions (userId : Uuid) (type : option string) (d : Db) : Z :=
  Z.of_nat (length (filter (λ t, where_clause userId type t = true) (transactions d))).

(** The query of [GET /transactions/:id], for the uuid its first parameter
    is read as. *)
Definition select_transaction (id userId : Uuid) (d : Db) : list TxRow :=
  filter (λ r, t_id (r_tx r) = id ∧ is_party userId (r_tx r) = true) (joined_rows d).

(** The object both history endpoints build from a row. *)
Definition format_transaction (tx : TxRow) : TxView :=
  mkTxView
    (t_id (r_tx tx))
    (t_transaction_type (r_tx tx))
    (t_amount (r_tx tx))
    (t_status (r_tx tx))
    (t_payment_method (r_tx tx))
    (t_note (r_tx tx))
    (t_reference_id (r_tx tx))
    (t_created_at (r_tx tx))
    (if bool_decide (t_transaction_type (r_tx tx) = send_money)
     then Some (mkParty (u_name <$> r_recipient tx) (u_email <$> r_recipient tx))
     else None)
    (if bool_decide (t_transaction_type (r_tx tx) = receive_money)
     then Some (mkParty (u_name <$> r_sender tx) (u_email <$> r_sender tx))
     else None).

(** [parseInt(x) || d]. [x] is the integer the parameter spells, [None] when
    it spells none ([NaN]); [parseInt] returns the Number nearest to it, and
    zero is falsy as well. *)
Definition parseInt_or (x : option Z) (d : Z) : Z :=
  match x with
  | Some v => if bool_decide (to_number v = 0) then d else to_number v
  | None => d
  end.

(** [Math.ceil(total / limit)], for a count of rows (below 2^53) and a
    positive limit. *)
Definition ceil_div (total limit : Z) : Z := - ((- total) / limit).

(** [GET /transactions]. *)
Definition get_transactions (env : Env) (userId : Uuid) (q_page q_limit : option Z)
    (type : option string) : M Response :=
  try_catch
    (let page := parseInt_or q_page 1 in
     let limit := parseInt_or q_limit 20 in
     let offset := js_mul (js_sub page 1) limit in
     transactionsResult ← pool_query env SelectTransactions
       (select_transactions (tie_order env) userId type limit offset);
     total ← pool_query env CountTransactions (reading (count_transactions userId type));
     let transactions := format_transaction <$> transactionsResult in
     mret (Success 200
             (TransactionsData transactions
                (mkPagination page limit total (ceil_div total limit)
                   (bool_decide (page < ceil_div total limit))
                   (bool_decide (1 < page))))))
    (λ _, mret (Failure 500 "Failed to fetch transactions")).

(** [GET /transactions/:id]. The route has no validator: [id] is whatever
    text the path holds. *)
Definition get_transaction_by_id (env : Env) (userId : Uuid) (id : string) : M Response :=
  try_catch
    (result ← pool_query env SelectTransaction
       (uuid_param id (λ id, reading (select_transaction id userId)));
     match result with
     | [] => mret (Failure 404 "Transaction not found")
     | tx :: _ => mret (Success 200 (TransactionData (format_transaction tx)))
     end)
    (λ _, mret (Failure 500 "Failed to fetch transaction")).

(** ** validation.js *)

(** [isFloat({ min: lo, max: hi })] on a JSON number. *)
Definition isFloat (lo hi : Z) (a : Decimal) : bool :=
  bool_decide (lo * 10 ^ Z.of_nat (scale a) ≤ mantissa a ≤ hi * 10 ^ Z.of_nat (scale a)).

(** [sendMoneyValidation]. The chain of [note] is [optional()]; it trims
    the note, which is what the handler then reads, and bounds its length. *)
Definition sanitized_note (note : option string) : option string := trim <$> note.

Definition sendMoneyValidation (recipientId : string) (amount : Decimal)
    (note : option string) : bool :=
  isUUID recipientId && isFloat 1 50000 amount
  && match sanitized_note note with
     | Some n => bool_decide (isLength_len n ≤ 200)%nat
     | None => true
     end.

(** [addMoneyValidation]. *)
Definition addMoneyValidation (amount : Decimal) (paymentMethod : string) : bool :=
  isFloat 1 100000 amount
  && bool_decide (paymentMethod ∈ ["UPI"; "Card"; "Net Banking"]).

(** [transactionQueryValidation], on the integers [isInt] reads. *)
Definition transactionQueryValidation (q_page q_limit : option Z) (type : option string) : bool :=
  match q_page with Some p => bool_decide (1 ≤ p) | None => true end
  && match q_limit with Some l => bool_decide (1 ≤ l ≤ 100) | None => true end
  && match type with
     | Some ty => bool_decide (ty ∈ ["sent"; "received"; "add_money"])
     | None => true
     end.

(** ** Serving a request *)

(** What outlives a request: the committed ledger and Redis. *)
Record Store := mkStore {
  st_ledger : Db;
  st_redis : gmap string CacheEntry }.

Definition empty_store : Store := mkStore empty_db ∅.

(** Run a handler on a fresh client; the result is what was sent (or the
    exception that escaped), the stores afterwards and the calls made. *)
Definition serve (h : M Response) (s : Store) : (Exn + Response) * Store * list Event :=
  match h (mkConn (st_ledger s) None (st_redis s) []) with
  | (r, c) => (r, mkStore (ledger c) (redis c), log c)
  end.

(** ** The service as a transition system *)

Inductive Request :=
| Register (email password name phone : string)
| GetBalance (user_id : Uuid)
| AddMoney (userId : Uuid) (amount : Decimal) (paymentMethod : string)
| SendMoney (senderId : Uuid) (recipientId : string) (amount : Decimal) (note : option string)
| GetTransactions (userId : Uuid) (q_page q_limit : option Z) (type : option string)
| GetTransaction (userId : Uuid) (id : string).

Definition handler (env : Env) (q : Request) : M Response :=
  match q with
  | Register email password name phone => post_register env email password name phone
  | GetBalance user_id => get_balance env user_id
  | AddMoney userId amount paymentMethod => post_add_money env userId amount paymentMethod
  | SendMoney senderId recipientId amount note =>
      post_send_money env senderId recipientId amount note
  | GetTransactions userId q_page q_limit type =>
      get_transactions env userId q_page q_limit type
  | GetTransaction userId id => get_transaction_by_id env userId id
  end.

Definition response_of (x : (Exn + Response) * Store * list Event) : Exn + Response := x.1.1.
Definition store_of (x : (Exn + Response) * Store * list Event) : Store := x.1.2.
Definition log_of (x : (Exn + Response) * Store * list Event) : list Event := x.2.

Definition next (env : Env) (q : Request) (s : Store) : Store :=
  store_of (serve (handler env q) s).

(** The stores the service can be in: it starts empty and serves requests,
    whatever their parameters and environment. *)
Inductive reachable : Store → Prop :=
| reachable_init : reachable empty_store
| reachable_step env q s : reachable s → reachable (next env q s).

(** The stores it can be in when the environment of every request so far
    was as [ok] says. *)
Inductive reachable_when (ok : Env → Prop) : Store → Prop :=
| reachable_when_init : reachable_when ok empty_store
| reachable_when_step env q s :
    ok env → reachable_when ok s → reachable_when ok (next env q s).

(** No cache invalidation is rejected. *)
Definition invalidations_succeed (env : Env) : Prop := ∀ key, del_fault env key = false.

(** ** Predicates on the ledger *)

(** No wallet is overdrawn. *)
Definition nonneg_balances (d : Db) : Prop :=
  Forall (λ w, 0 ≤ w_balance w) (wallets d).

(** Deposits are recorded on the sender side only. *)
Definition deposit_rows_on_sender_side (d : Db) : Prop :=
  Forall (λ t, t_transaction_type t = add_money →
               is_Some (t_sender_id t) ∧ t_recipient_id t = None)
         (transactions d).

Definition ledger_invariant (d : Db) : Prop :=
  nonneg_balances d ∧ deposit_rows_on_sender_side d.

(** ** Concrete stores used in the examples below *)

Module Examples.

Definition quiet : Stmt → bool := λ _, false.
Definition first_come : Transaction → Transaction → bool := λ _ _, true.

Definition env_at (t : Z) (id0 id1 : Uuid) (st : string) : Env :=
  mkEnv t (λ n, match n with O => id0 | _ => id1 end) st quiet first_come
    (λ pw, "$2b$12$" +:+ pw) (λ id email, Some ("jwt." +:+ id)) (λ _, false).

(** The ids of two users, the id of the first in capitals, an id nobody
    has, and ids for transactions. *)
Definition asha : Uuid := "a5a00000-0000-4000-8000-000000000001".
Definition ravi : Uuid := "4a710000-0000-4000-8000-000000000002".
Definition ASHA : string := "A5A00000-0000-4000-8000-000000000001".
Definition nobody : Uuid := "00b0d100-0000-4000-8000-000000000009".
Definition t1 : Uuid := "70000000-0000-4000-8000-000000000001".
Definition t2 : Uuid := "70000000-0000-4000-8000-000000000002".
Definition t3 : Uuid := "70000000-0000-4000-8000-000000000003".
Definition t4 : Uuid := "70000000-0000-4000-8000-000000000004".
Definition t5 : Uuid := "70000000-0000-4000-8000-000000000005".

(** A name of three hundred letters. *)
Definition long_name : string := String.string_of_list_ascii (replicate 300 "a"%char).

(** Two registrations and a deposit of 100.00 by the first user. *)
Definition asha_registered : Store :=
  next (env_at 1 asha "" "") (Register "asha@example.in" "secret1" "Asha" "9876543210")
    empty_store.
Definition both_registered : Store :=
  next (env_at 2 ravi "" "") (Register "ravi@example.in" "secret2" "Ravi" "9876543211")
    asha_registered.
Definition funded : Store :=
  next (env_at 3 t1 "" "1700000000000_k3j9x2m1q") (AddMoney asha (paise 10000) "UPI")
    both_registered.

End Examples.

(** A transfer of 25.00 from the funded wallet, with every precondition of
    the handler met. *)
Module Transfer.
Definition env : Env :=
  Examples.env_at 4 Examples.t2 Examples.t3 "1700000000500_p0o9i8u7y".
Definition send_row : Transaction :=
  mkTransaction Examples.t2 (Some Examples.asha) (Some Examples.ravi) 2500 send_money
    completed None (Some "lunch") (Some "SEND_1700000000500_p0o9i8u7y") 4.
Definition receive_row : Transaction :=
  mkTransaction Examples.t3 (Some Examples.asha) (Some Examples.ravi) 2500 receive_money
    completed None (Some "lunch") (Some "SEND_1700000000500_p0o9i8u7y") 4.
Definition outcome : (Exn + Response) * Store * list Event :=
  serve (post_send_money env Examples.asha Examples.ravi (paise 2500) (Some "lunch"))
    Examples.funded.
End Transfer.

(** Two transfers of 80.00 each out of the 100.00 of the funded wallet, one
    served after the other. *)
Module Twice.
Definition env1 : Env :=
  Examples.env_at 5 Examples.t2 Examples.t3 "1700000000600_a1b2c3d4e".
Definition env2 : Env :=
  Examples.env_at 6 Examples.t4 Examples.t5 "1700000000700_f5g6h7i8j".
Definition first : (Exn + Response) * Store * list Event :=
  serve (post_send_money env1 Examples.asha Examples.ravi (paise 8000) None) Examples.funded.
Definition second : (Exn + Response) * Store * list Event :=
  serve (post_send_money env2 Examples.asha Examples.ravi (paise 8000) None) (store_of first).
End Twice.

(** The funded store with the balance of the first user cached, and an
    environment in which the invalidation of that entry is rejected. *)
Module Stale.
Definition cached : Store :=
  next (Examples.env_at 4 "" "" "") (GetBalance Examples.asha) Examples.funded.
Definition env : Env :=
  mkEnv 5 (λ _, Examples.t2) "1700000000500_p0o9i8u7y" Examples.quiet Examples.first_come
    (λ pw, pw) (λ id _, Some id) (λ _, true).
(** An environment in which [jwt.sign] throws. *)
Definition unsigned : Env :=
  mkEnv 5 (λ _, Examples.t2) "" Examples.quiet Examples.first_come (λ pw, pw) (λ _ _, None)
    (λ _, false).
End Stale.

(** ** Vocabulary of the statements below *)

(** One of the steps of the transfer unit fails: the balance does not cover
    the amount, the recipient is missing or inactive (or its id is no uuid),
    or the store fails on one of the two inserts or one of the two updates. *)
Definition transfer_step_fails (env : Env) (senderId : Uuid) (recipientId : string)
    (amount : Decimal) (d : Db) : Prop :=
  (∃ b rest, select_balance senderId d = b :: rest ∧ balance_below b amount)
  ∨ match uuid_in recipientId with
    | Some id => select_active_user id d = []
    | None => True
    end
  ∨ fault env (InsertTransaction send_money) = true
  ∨ fault env (InsertTransaction receive_money) = true
  ∨ fault env (UpdateBalance (negated amount) senderId) = true
  ∨ fault env (UpdateBalance amount recipientId) = true.

(** The ledger holds a transaction [id] that [userId] sent or received. *)
Definition party_to (userId id : Uuid) (d : Db) : Prop :=
  ∃ t, t ∈ transactions d ∧ t_id t = id
       ∧ (t_sender_id t = Some userId ∨ t_recipient_id t = Some userId).

(** [v] shows the transaction [t]: every column the endpoint selects, and
    the other party only where the type of the row calls for it. *)
Definition view_of (v : TxView) (t : Transaction) : Prop :=
  v_id v = t_id t
  ∧ v_type v = t_transaction_type t
  ∧ v_amount v = t_amount t
  ∧ v_status v = t_status t
  ∧ v_paymentMethod v = t_payment_method t
  ∧ v_note v = t_note t
  ∧ v_referenceId v = t_reference_id t
  ∧ v_createdAt v = t_created_at t
  ∧ (is_Some (v_recipient v) ↔ t_transaction_type t = send_money)
  ∧ (is_Some (v_sender v) ↔ t_transaction_type t = receive_money).

(** The rows a history query of [userId] is about, in ledger order. *)
Definition matching_rows (userId : Uuid) (type : option string) (d : Db) : list TxRow :=
  filter (λ r, where_clause userId type (r_tx r) = true) (joined_rows d).

(** [a] was created strictly after [b]. *)
Definition created_after (a b : TxRow) : Prop :=
  t_created_at (r_tx b) < t_created_at (r_tx a).

(** Rows [LIMIT limit OFFSET (page - 1) * limit] keeps of a result. *)
Definition page_of (limit page : Z) (rows : list TxRow) : list TxRow :=
  take (Z.to_nat limit) (drop (Z.to_nat ((page - 1) * limit)) rows).

(** [a] was not created before [b]. *)
Definition created_not_before (a b : TxRow) : Prop :=
  t_created_at (r_tx b) ≤ t_created_at (r_tx a).

Definition created_times (rows : list TxRow) : list Z :=
  (λ r, t_created_at (r_tx r)) <$> rows.

Module Ties.
(** A second deposit by the same user at the same clock reading as the
    first, and two ways the store may order tied rows. *)
Definition twice_funded : Store :=
  next (Examples.env_at 3 Examples.t4 "" "1700000000000_w5e4r3t2y")
    (AddMoney Examples.asha (paise 5000) "Card") Examples.funded.
Definition last_come : Transaction → Transaction → bool := λ _ _, false.
Definition env_first : Env :=
  mkEnv 9 (λ _, "") "" Examples.quiet Examples.first_come (λ pw, pw) (λ id _, Some id)
    (λ _, false).
Definition env_last : Env :=
  mkEnv 9 (λ _, "") "" Examples.quiet last_come (λ pw, pw) (λ id _, Some id) (λ _, false).
Definition view_t1 : TxView :=
  mkTxView Examples.t1 add_money 10000 completed (Some "UPI") None
    (Some "ADD_1700000000000_k3j9x2m1q") 3 None None.
Definition view_t4 : TxView :=
  mkTxView Examples.t4 add_money 5000 completed (Some "Card") None
    (Some "ADD_1700000000000_w5e4r3t2y") 3 None None.
End Ties.

Module Fifteen.
(** Fifteen deposits of 1.00 by one user, each at a clock reading of its
    own, not in the order of the clock. *)
Definition two_digits (n : nat) : string :=
  if (n <? 10)%nat then "0" +:+ pretty n else pretty n.
Definition deposit_id (n : nat) : Uuid := "d0000000-0000-4000-8000-0000000000" +:+ two_digits n.
Definition clock (n : nat) : Z := 10 + (7 * Z.of_nat n) mod 15.
Definition deposit (n : nat) (s : Store) : Store :=
  next (Examples.env_at (clock n) (deposit_id n) "" ("17000000" +:+ pretty n))
    (AddMoney Examples.asha (paise 100) "Net Banking") s.
Definition store : Store := foldr deposit Examples.both_registered (seq 0 15).
End Fifteen.

(** ** Consistency of the stores *)

(** The deposits recorded for a user, and their total. *)
Definition deposits_of (uid : Uuid) (d : Db) : list Transaction :=
  filter (λ t, t_transaction_type t = add_money ∧ t_sender_id t = Some uid) (transactions d).

Definition deposited (uid : Uuid) (d : Db) : Z :=
  foldr Z.add 0 (t_amount <$> deposits_of uid d).

(** Keys are what the schema says they are, and every user has one wallet. *)
Definition keys_consistent (d : Db) : Prop :=
  NoDup (u_id <$> users d)
  ∧ NoDup (u_email <$> users d)
  ∧ NoDup (u_phone <$> users d)
  ∧ Forall (λ u, u_is_active u = true) (users d)
  ∧ w_user_id <$> wallets d = u_id <$> users d
  ∧ NoDup (t_id <$> transactions d)
  ∧ NoDup (t_reference_id <$> transactions d).

(** What the rows of [transactions] look like. *)
Definition deposit_row (d : Db) (t : Transaction) : Prop :=
  t_transaction_type t = add_money
  ∧ t_status t = completed
  ∧ 0 < t_amount t
  ∧ (∃ u, t_sender_id t = Some u ∧ u ∈ u_id <$> users d)
  ∧ t_recipient_id t = None
  ∧ is_Some (t_payment_method t)
  ∧ is_Some (t_reference_id t).

(** Every wallet holds what its user deposited. *)
Definition balances_match_deposits (d : Db) : Prop :=
  Forall (λ w, w_balance w = deposited (w_user_id w) d) (wallets d).

(** Every entry of the balance cache is the balance the ledger has. *)
Definition cache_coherent (s : Store) : Prop :=
  ∀ key e, st_redis s !! key = Some e →
           ∃ u, key = balance_key u ∧ select_balance u (st_ledger s) = [c_value e].

Definition ledger_consistent (d : Db) : Prop :=
  nonneg_balances d
  ∧ keys_consistent d
  ∧ Forall (deposit_row d) (transactions d)
  ∧ balances_match_deposits d.

Definition store_invariant (s : Store) : Prop :=
  ledger_consistent (st_ledger s) ∧ cache_coherent s.

(** ** middleware/auth.js *)

(** [s.split(" ")]. *)
Fixpoint split_space (s : string) : list string :=
  match s with
  | EmptyString => [""]
  | String c s' =>
      if Ascii.eqb c " "%char then "" :: split_space s'
      else match split_space s' with
           | w :: ws => String c w :: ws
           | [] => [String c ""]
           end
  end.

(** [authHeader && authHeader.split(" ")[1]], when it is truthy. *)
Definition bearer_token (authHeader : option string) : option string :=
  match authHeader with
  | None => None
  | Some h =>
      if bool_decide (h = "") then None
      else match split_space h !! 1%nat with
           | Some token => if bool_decide (token = "") then None else Some token
           | None => None
           end
  end.

(** The columns the middleware selects into [req.user]. *)
Record ReqUser := mkReqUser {
  ru_id : Uuid;
  ru_email : string;
  ru_name : string;
  ru_phone : string;
  ru_is_active : bool }.

(** [SELECT id, email, name, phone, is_active FROM users WHERE id = $1]. *)
Definition select_user_by_id (id : Uuid) (d : Db) : list ReqUser :=
  (λ u, mkReqUser (u_id u) (u_email u) (u_name u) (u_phone u) (u_is_active u))
    <$> filter (λ u, u_id u = id) (users d).

(** The middleware either calls [next()] with [req.user] set or answers. *)
Inductive AuthResult :=
| Next (user : ReqUser)
| Denied (code : Z) (message : string).

(** [authenticateToken]. It reads the ledger and nothing else, so it is a
    function of the header and the ledger. [jwt_verify token] is the
    [userId] of the payload [jwt.verify] returns, the id of a row that
    [jwt.sign] was given, and [None] when it throws; [store_fails] says that
    the [SELECT] throws. *)
Definition authenticateToken (jwt_verify : string → option Uuid) (store_fails : bool)
    (authHeader : option string) (d : Db) : AuthResult :=
  match bearer_token authHeader with
  | None => Denied 401 "Access token required"
  | Some token =>
      match jwt_verify token with
      | None => Denied 403 "Invalid token"
      | Some userId =>
          if store_fails then Denied 403 "Invalid token"
          else match select_user_by_id userId d with
               | [] => Denied 401 "Invalid or expired token"
               | user :: _ =>
                   if negb (ru_is_active user) then Denied 401 "Invalid or expired token"
                   else Next user
               end
      end
  end.

(** ** auth.js: login and logout *)

Definition session_key (id : Uuid) : string := "session:" +:+ id.

(** The object login serializes into the session entry. *)
Record Session := mkSession {
  se_userId : Uuid;
  se_email : string;
  se_loginTime : Z }.

(** The [setEx] login sends to Redis. *)
Record SessionWrite := mkSessionWrite {
  sw_key : string;
  sw_seconds : Z;
  sw_value : Session }.

Inductive LoginResponse :=
| LoggedIn (token : string) (id : Uuid) (email name phone : string)
| LoginFailure (code : Z) (message : string).

(** [SELECT id, email, password_hash, name, phone, is_active FROM users
    WHERE email = $1]. *)
Definition select_user_by_email (email : string) (d : Db) : list User :=
  filter (λ u, u_email u = email) (users d).

(** [POST /login]. The handler reads the ledger and writes one Redis entry;
    the result is its answer together with that write, if it makes one.
    [bcrypt_compare] is [bcrypt.compare]; [store_fails] says that the
    [SELECT] throws. *)
Definition post_login (bcrypt_compare : string → string → bool) (env : Env)
    (store_fails : bool) (email password : string) (d : Db)
  : LoginResponse * option SessionWrite :=
  if store_fails then (LoginFailure 500 "Login failed", None)
  else match select_user_by_email email d with
       | [] => (LoginFailure 401 "Invalid email or password", None)
       | user :: _ =>
           if negb (u_is_active user)
           then (LoginFailure 401 "Account is deactivated", None)
           else if negb (bcrypt_compare password (u_password_hash user))
           then (LoginFailure 401 "Invalid email or password", None)
           else
             match jwt_sign env (u_id user) (u_email user) with
             | None => (LoginFailure 500 "Login failed", None)
             | Some token =>
                 (LoggedIn token (u_id user) (u_email user) (u_name user) (u_phone user),
                  Some (mkSessionWrite (session_key (u_id user)) 604800
                          (mkSession (u_id user) (u_email user) (now env))))
             end
       end.

Inductive LogoutResponse :=
| LoggedOut (message : string)
| LogoutFailure (code : Z) (message : string).

(** [POST /logout]. *)
Definition post_logout (env : Env) (user_id : Uuid) : M LogoutResponse :=
  try_catch
    (redis_del env (session_key user_id);;
     mret (LoggedOut "Logout successful"))
    (λ _, mret (LogoutFailure 500 "Logout failed")).

(** [serve] for a handler with an answer of its own kind. *)
Definition serve_as {A} (h : M A) (s : Store) : (Exn + A) * Store * list Event :=
  match h (mkConn (st_ledger s) None (st_redis s) []) with
  | (r, c) => (r, mkStore (ledger c) (redis c), log c)
  end.

(** ** users.js: search *)

(** What the search shows of a user. *)
Record SearchUser := mkSearchUser {
  su_id : Uuid;
  su_name : string;
  su_email : string;
  su_phone : string }.

Inductive SearchResponse :=
| SearchResult (users : list SearchUser)
| SearchFailure (code : Z) (message : string).

Section search.

(** [ilike subject pattern] is PostgreSQL's [subject ILIKE pattern]; [scan]
    is the order in which the store returns the selected rows, the query
    having no [ORDER BY]. *)
Variable ilike : string → string → bool.
Variable scan : list User → list User.

(** [SELECT id, name, email, phone FROM users WHERE (name ILIKE $1 OR email
    ILIKE $1 OR phone ILIKE $1) AND id != $2 AND is_active = true LIMIT 10]. *)
Definition search_query (pattern : string) (userId : Uuid) (d : Db) : list User :=
  take 10
    (scan (filter (λ u, (ilike (u_name u) pattern = true
                         ∨ ilike (u_email u) pattern = true
                         ∨ ilike (u_phone u) pattern = true)
                        ∧ u_id u ≠ userId ∧ u_is_active u = true)
                  (users d))).

(** [GET /search]. *)
Definition get_search (store_fails : bool) (searchQuery : string) (userId : Uuid) (d : Db)
  : SearchResponse :=
  if store_fails then SearchFailure 500 "Failed to search users"
  else SearchResult
         ((λ user, mkSearchUser (u_id user) (u_name user) (u_email user) (u_phone user))
            <$> search_query ("%" +:+ searchQuery +:+ "%") userId d).

End search.

Module Tokens.
(** A [jwt.verify] that inverts the [jwt.sign] of the example environments,
    and a [bcrypt.compare] that matches their [bcrypt.hash]. *)
Definition verify (token : string) : option Uuid :=
  match token with
  | String "j"%char (String "w"%char (String "t"%char (String "."%char id))) => Some id
  | _ => None
  end.
Definition compare (password hash : string) : bool :=
  bool_decide (hash = "$2b$12$" +:+ password).
End Tokens.

(** No character of [s] is a space. *)
Fixpoint no_space (s : string) : bool :=
  match s with
  | EmptyString => true
  | String c s' => negb (Ascii.eqb c " "%char) && no_space s'
  end.


(** * Properties *)

(** ** Values *)

Lemma round_half_away_add b n d :
  0 < d → 0 ≤ b → 0 ≤ n → round_half_away (b * d + n) d = b + round_half_away n d.
Proof.
  intros Hd Hb Hn. unfold round_half_away.
  destruct (decide (n = 0)) as [->|Hn0].
  - rewrite Z.add_0_r. simpl. rewrite Z.add_0_l.
    destruct (decide (b = 0)) as [->|Hb0]; [done|].
    rewrite Z.sgn_pos by nia. rewrite Z.abs_eq by nia.
    replace (2 * (b * d) + d) with (b * (2 * d) + d) by lia.
    rewrite Z.div_add_l by lia. rewrite (Z.div_small d (2 * d)) by lia. lia.
  - rewrite (Z.sgn_pos n) by lia. rewrite (Z.sgn_pos (b * d + n)) by nia.
    rewrite !Z.abs_eq by nia.
    replace (2 * (b * d + n) + d) with (b * (2 * d) + (2 * n + d)) by lia.
    rewrite Z.div_add_l by lia. lia.
Qed.

Lemma round_half_away_pos n d : 0 < d → 0 < round_half_away n d → 0 < n.
Proof.
  unfold round_half_away. intros Hd H.
  destruct (Z.sgn_spec n) as [[? Hs]|[[? Hs]|[? Hs]]]; rewrite Hs in H; [done|lia|].
  assert (0 ≤ (2 * Z.abs n + d) / (2 * d)) by (apply Z.div_pos; lia). lia.
Qed.

Lemma round_half_away_exact v d : 0 < d → round_half_away (v * d) d = v.
Proof.
  intros Hd. unfold round_half_away.
  rewrite Z.abs_mul, (Z.abs_eq d) by lia.
  replace (2 * (Z.abs v * d) + d) with (Z.abs v * (2 * d) + d) by lia.
  rewrite Z.div_add_l by lia. rewrite (Z.div_small d (2 * d)) by lia.
  rewrite Z.sgn_mul, (Z.sgn_pos d) by lia.
  pose proof (Z.abs_sgn v). lia.
Qed.

Lemma pow10_pos (n : nat) : 0 < 10 ^ Z.of_nat n.
Proof. apply Z.pow_pos_nonneg; lia. Qed.

(** An amount of whole minor units is stored and added as it is. *)
Lemma to_numeric_2_paise v : to_numeric_2 (paise v) = v.
Proof. unfold to_numeric_2, paise. simpl. by apply (round_half_away_exact v 100). Qed.

Lemma add_numeric_2_paise b v : add_numeric_2 b (paise v) = b + v.
Proof.
  unfold add_numeric_2, paise. simpl. change (10 ^ Z.of_nat 2) with 100.
  replace (b * 100 + v * 100) with ((b + v) * 100) by lia.
  by apply (round_half_away_exact (b + v) 100).
Qed.

(** Adding a deposit to a balance adds what the deposit's row records. *)
Lemma add_numeric_2_deposit b a :
  0 ≤ b → 0 < to_numeric_2 a → add_numeric_2 b a = b + to_numeric_2 a.
Proof.
  unfold add_numeric_2, to_numeric_2. intros Hb Ha.
  apply round_half_away_pos in Ha; [|apply pow10_pos].
  apply round_half_away_add; [apply pow10_pos|done|lia].
Qed.

Lemma to_number_safe z : Z.abs z ≤ 2 ^ 53 → to_number z = z.
Proof. intros H. unfold to_number. by rewrite bool_decide_eq_true_2. Qed.

Lemma to_number_zero z : to_number z = 0 ↔ z = 0.
Proof.
  split; [|by intros ->].
  unfold to_number. case_bool_decide as Hs; [done|].
  assert (Ha : 2 ^ 53 < Z.abs z) by lia.
  generalize dependent (Z.abs z). intros a Hs Ha.
  assert (Hlog : 53 ≤ Z.log2 a).
  { apply Z.log2_le_pow2; lia. }
  set (e := Z.log2 a - 52).
  assert (He : 1 ≤ e) by (unfold e; lia).
  assert (Hp : 0 < 2 ^ e) by (apply Z.pow_pos_nonneg; lia).
  assert (Hq : 1 ≤ a / 2 ^ e).
  { apply Z.div_le_lower_bound; [done|].
    rewrite Z.mul_1_r. unfold e.
    destruct (Z.log2_spec a ltac:(lia)) as [Hlo _].
    etrans; [|exact Hlo]. apply Z.pow_le_mono_r; lia. }
  intros H. apply Z.mul_eq_0 in H as [H|H]; [by apply Z.sgn_null_iff|].
  exfalso. repeat case_bool_decide; try case_match; nia.
Qed.

(** ** Statements *)

Lemma nullable_is_Some f o o' : nullable f o = inr o' → (is_Some o' ↔ is_Some o).
Proof.
  destruct o as [s|]; simpl.
  - unfold and_then. destruct (f s); intros [= <-]. by split; eexists.
  - intros [= <-]. done.
Qed.

Lemma transactions_columns_inv t t' :
  transactions_columns t = inr t' →
  t_id t' = t_id t ∧ t_sender_id t' = t_sender_id t ∧ t_recipient_id t' = t_recipient_id t
  ∧ t_amount t' = t_amount t ∧ t_transaction_type t' = t_transaction_type t
  ∧ t_status t' = t_status t ∧ t_created_at t' = t_created_at t
  ∧ nullable (varchar 50) (t_payment_method t) = inr (t_payment_method t')
  ∧ nullable text (t_note t) = inr (t_note t')
  ∧ nullable (varchar 100) (t_reference_id t) = inr (t_reference_id t')
  ∧ Z.abs (t_amount t) < 10 ^ 15.
Proof.
  unfold transactions_columns, and_then, numeric_15_2. intros H.
  repeat (case_match; simplify_eq/=).
  match goal with H : negb _ = false |- _ =>
    apply negb_false_iff, bool_decide_eq_true_1 in H end.
  done.
Qed.

Lemma users_columns_inv u u' :
  users_columns u = inr u' →
  u_id u' = u_id u ∧ u_is_active u' = u_is_active u
  ∧ varchar 255 (u_email u) = inr (u_email u')
  ∧ varchar 255 (u_password_hash u) = inr (u_password_hash u')
  ∧ varchar 255 (u_name u) = inr (u_name u')
  ∧ varchar 20 (u_phone u) = inr (u_phone u').
Proof.
  unfold users_columns, and_then. intros H. repeat (case_match; simplify_eq/=). done.
Qed.

Lemma update_wallet_row_inv delta uid w w' :
  update_wallet_row delta uid w = inr w' →
  w_user_id w' = w_user_id w ∧
  (w_user_id w = uid →
   w_balance w' = add_numeric_2 (w_balance w) delta ∧ 0 ≤ w_balance w'
   ∧ w_balance w' < 10 ^ 15) ∧
  (w_user_id w ≠ uid → w' = w).
Proof.
  unfold update_wallet_row, wallets_balance_check, numeric_15_2.
  intros H. repeat case_bool_decide; repeat (case_match; simplify_eq/=);
    repeat case_bool_decide; simplify_eq/=; try done.
  repeat split; try done; lia.
Qed.

Lemma update_wallet_rows_inv delta uid ws ws' :
  update_wallet_rows delta uid ws = inr ws' →
  Forall2 (λ w w', update_wallet_row delta uid w = inr w') ws ws'.
Proof.
  revert ws'. induction ws as [|w ws IH]; intros ws' H; simpl in H.
  - simplify_eq. constructor.
  - destruct (update_wallet_row delta uid w) as [e|w1] eqn:E1; [done|].
    destruct (update_wallet_rows delta uid ws) as [e|ws1] eqn:E2; [done|].
    simplify_eq. constructor; [done|]. by apply IH.
Qed.

Lemma update_wallet_rows_nonneg delta uid ws ws' :
  update_wallet_rows delta uid ws = inr ws' →
  Forall (λ w, 0 ≤ w_balance w) ws →
  Forall (λ w, 0 ≤ w_balance w) ws'.
Proof.
  intros H%update_wallet_rows_inv. induction H as [|w w' ws ws' Hw _ IH]; [done|].
  intros [Hw0 Hws]%Forall_cons. constructor; [|by apply IH].
  apply update_wallet_row_inv in Hw as (Hid & Hyes & Hno).
  destruct (decide (w_user_id w = uid)) as [Heq|Hne].
  - by apply Hyes.
  - by rewrite (Hno Hne).
Qed.

Lemma update_balance_inv delta uid d d' rows :
  update_balance delta uid d = inr (d', rows) →
  users d' = users d ∧ transactions d' = transactions d ∧
  update_wallet_rows delta uid (wallets d) = inr (wallets d') ∧
  rows = select_balance uid d'.
Proof.
  unfold update_balance. intros H.
  destruct (update_wallet_rows delta uid (wallets d)) as [e|ws] eqn:E; [done|].
  by simplify_eq/=.
Qed.

Lemma update_balance_nonneg delta uid d d' rows :
  update_balance delta uid d = inr (d', rows) →
  nonneg_balances d → nonneg_balances d'.
Proof.
  intros (_ & _ & H & _)%update_balance_inv. unfold nonneg_balances.
  by eapply update_wallet_rows_nonneg.
Qed.

Lemma insert_wallet_inv uid b d d' r :
  insert_wallet uid b d = inr (d', r) →
  users d' = users d ∧ transactions d' = transactions d ∧
  wallets d' = wallets d ++ [mkWallet uid b] ∧ 0 ≤ b.
Proof.
  unfold insert_wallet, wallets_balance_check. intros H.
  repeat (case_match; simplify_eq/=). case_bool_decide; done.
Qed.

Lemma insert_user_inv u d d' r :
  insert_user u d = inr (d', r) →
  users_columns u = inr r ∧
  users d' = users d ++ [r] ∧ wallets d' = wallets d ∧
  transactions d' = transactions d.
Proof.
  unfold insert_user, and_then. intros H.
  destruct (users_columns u) as [e|u']; [done|].
  repeat (case_match; simplify_eq/=). done.
Qed.

Lemma insert_transaction_inv t d d' r :
  insert_transaction t d = inr (d', r) →
  ∃ t', transactions_columns t = inr t' ∧
  users d' = users d ∧ wallets d' = wallets d ∧
  transactions d' = transactions d ++ [t'] ∧ r = t_id t ∧
  (t_id t ∉ (t_id <$> transactions d)) ∧
  (is_Some (t_reference_id t') → t_reference_id t' ∉ (t_reference_id <$> transactions d)).
Proof.
  unfold insert_transaction, and_then. intros H.
  destruct (transactions_columns t) as [e|t'] eqn:E; [done|].
  pose proof (transactions_columns_inv _ _ E) as (Hid & _).
  exists t'. split; [done|].
  repeat case_bool_decide; repeat (case_match; simplify_eq/=); try done.
  rewrite <- Hid. repeat split; try done. intros ??. tauto.
Qed.

(** The second row of a pair cannot follow the first: [reference_id] is
    [UNIQUE], and both rows carry the same one. *)
Lemma paired_insert_rejected t1 t2 d d1 r1 :
  insert_transaction t1 d = inr (d1, r1) →
  is_Some (t_reference_id t1) →
  t_reference_id t2 = t_reference_id t1 →
  ∃ e, insert_transaction t2 d1 = inl e.
Proof.
  intros (t1' & Hc1 & _ & _ & Htx & _)%insert_transaction_inv Hsome Href.
  apply transactions_columns_inv in Hc1 as (_ & _ & _ & _ & _ & _ & _ & _ & _ & Hr1 & _).
  unfold insert_transaction, and_then.
  destruct (transactions_columns t2) as [e|t2'] eqn:Hc2; [by eexists|].
  apply transactions_columns_inv in Hc2 as (_ & _ & _ & _ & _ & _ & _ & _ & _ & Hr2 & _).
  rewrite Href, Hr1 in Hr2. injection Hr2 as Hr2.
  rewrite Htx.
  repeat (case_bool_decide || case_match); eauto.
  exfalso. match goal with H : ¬ (_ ∧ _) |- _ => apply H end.
  split.
  - rewrite <- Hr2. by apply (nullable_is_Some _ _ _ Hr1).
  - rewrite fmap_app, <- Hr2. set_solver.
Qed.

(** ** Handlers, one request at a time *)

Ltac unfold_handler :=
  unfold serve, serve_as, response_of, store_of, log_of, next, handler,
    post_register, post_add_money, post_send_money, get_balance,
    get_transactions, get_transaction_by_id, post_logout,
    try_finally, try_catch, promise_all, client_begin, client_commit, client_rollback,
    client_query, pool_query, pool_connect, client_release, uuid_param,
    redis_get, redis_setEx, redis_del, throw, reading, current, set_current, emit,
    mbind, M_bind, mret, M_ret in *.

Ltac run_handler := unfold_handler; simpl in *; repeat (case_match; simplify_eq/=; try done).

(** Two inserts under one [reference_id] cannot both have been accepted. *)
Ltac paired_inserts :=
  match goal with
  | H1 : insert_transaction ?t1 _ = inr (?d1, _),
    H2 : insert_transaction ?t2 ?d1 = inr _ |- _ =>
      destruct (paired_insert_rejected t1 t2 _ _ _ H1) as [? ?];
      [by eexists | done | congruence]
  end.

Lemma get_balance_ledger env user_id s :
  st_ledger (store_of (serve (get_balance env user_id) s)) = st_ledger s.
Proof. destruct s. by run_handler. Qed.

Lemma get_transactions_store env userId q_page q_limit type s :
  store_of (serve (get_transactions env userId q_page q_limit type) s) = s.
Proof.
  destruct s. unfold select_transactions. run_handler.
  all: unfold select_transactions in *; repeat (case_match; simplify_eq/=); done.
Qed.

Lemma get_transaction_by_id_store env userId id s :
  store_of (serve (get_transaction_by_id env userId id) s) = s.
Proof. destruct s. by run_handler. Qed.

(** Whatever the request, a transfer leaves both stores as they were, is
    answered with a failure, and commits nothing. *)
Lemma post_send_money_run env senderId recipientId amount note s :
  store_of (serve (post_send_money env senderId recipientId amount note) s) = s
  ∧ (∃ code message,
       response_of (serve (post_send_money env senderId recipientId amount note) s)
       = inr (Failure code message))
  ∧ (EvQuery Commit
     ∉ log_of (serve (post_send_money env senderId recipientId amount note) s)).
Proof.
  destruct s. run_handler.
  all: try paired_inserts.
  all: split; [done|]; split; [eauto|].
  all: intros Hin; repeat (apply elem_of_cons in Hin as [Hin|Hin]; [done|]);
    by apply elem_of_nil in Hin.
Qed.

Lemma post_send_money_store env senderId recipientId amount note s :
  store_of (serve (post_send_money env senderId recipientId amount note) s) = s.
Proof. apply post_send_money_run. Qed.

Lemma post_send_money_fails env senderId recipientId amount note s :
  ∃ code message,
    response_of (serve (post_send_money env senderId recipientId amount note) s)
    = inr (Failure code message).
Proof. apply post_send_money_run. Qed.

Lemma post_send_money_never_commits env senderId recipientId amount note s :
  EvQuery Commit ∉ log_of (serve (post_send_money env senderId recipientId amount note) s).
Proof. apply post_send_money_run. Qed.

(** The outcomes of a deposit: it fails and changes nothing; or it commits
    its row together with the new balance, and then either drops the cached
    balance and answers 200, or fails to drop it and answers 500. *)
Lemma post_add_money_outcome env userId amount paymentMethod s :
  let x := serve (post_add_money env userId amount paymentMethod) s in
  let row := mkTransaction (uuid env 0) (Some userId) None (to_numeric_2 amount) add_money
               completed (Some paymentMethod) None (Some ("ADD_" +:+ stamp env)) (now env) in
  (response_of x = inr (Failure 500 "Failed to add money") ∧ store_of x = s)
  ∨ (∃ d1 d2 newBalance rest,
        insert_transaction row (st_ledger s) = inr (d1, uuid env 0) ∧
        update_balance amount userId d1 = inr (d2, newBalance :: rest) ∧
        fault env Commit = false ∧
        EvQuery Commit ∈ log_of x ∧
        ((del_fault env (balance_key userId) = false
          ∧ response_of x = inr (Success 200
              (AddMoneyData (uuid env 0) amount newBalance paymentMethod
                 ("ADD_" +:+ stamp env)))
          ∧ store_of x = mkStore d2 (delete (balance_key userId) (st_redis s)))
         ∨ (del_fault env (balance_key userId) = true
            ∧ response_of x = inr (Failure 500 "Failed to add money")
            ∧ store_of x = mkStore d2 (st_redis s)))).
Proof.
  destruct s. run_handler.
  all: try (by left).
  all: right;
    match goal with H : insert_transaction _ _ = inr _ |- _ =>
      pose proof (insert_transaction_inv _ _ _ _ H) as (? & _ & _ & _ & _ & -> & _) end;
    eexists _, _, _, _; split; [done|]; split; [done|]; split; [done|];
    split; [rewrite !elem_of_cons; tauto|]; eauto.
Qed.

(** Registration either changes nothing in the ledger or adds the user,
    as the columns of [users] take it, together with a wallet holding zero. *)
Lemma post_register_outcome env email password name phone s :
  let x := serve (post_register env email password name phone) s in
  st_redis (store_of x) = st_redis s ∧
  (st_ledger (store_of x) = st_ledger s
   ∨ ∃ u, users_columns (mkUser (uuid env 0) email (bcrypt_hash env password) name phone true)
          = inr u
          ∧ st_ledger (store_of x)
            = mkDb (users (st_ledger s) ++ [u])
                (wallets (st_ledger s) ++ [mkWallet (uuid env 0) 0])
                (transactions (st_ledger s))).
Proof.
  destruct s as [d r]. run_handler; split; try done; try (by left).
  all: right;
    match goal with H : insert_user _ _ = inr (_, ?u) |- _ =>
      apply insert_user_inv in H as (Hc & Hu & Hw & Ht); exists u;
      pose proof (users_columns_inv _ _ Hc) as (Hid & _) end;
    match goal with H : insert_wallet _ _ _ = inr _ |- _ =>
      apply insert_wallet_inv in H as (Hu' & Ht' & Hw' & _) end;
    simpl in *; split; [done|];
    match goal with |- ?d' = _ => destruct d' end; simpl in *; congruence.
Qed.

(** ** Invariants of the reachable stores *)

Lemma ledger_invariant_empty : ledger_invariant empty_db.
Proof. split; constructor. Qed.

Lemma ledger_invariant_next env q s :
  ledger_invariant (st_ledger s) → ledger_invariant (st_ledger (next env q s)).
Proof.
  intros [Hbal Hrows]. unfold next. destruct q as [e p n ph|u|u a pm|u r a nt|u qp ql ty|u i]; simpl.
  - destruct (post_register_outcome env e p n ph s) as [_ [->|(u & _ & ->)]]; [done|].
    split; [|done]. unfold nonneg_balances in *; simpl.
    apply Forall_app; split; [done|]. by repeat constructor.
  - by rewrite get_balance_ledger.
  - destruct (post_add_money_outcome env u a pm s)
      as [(_ & ->)|(d1 & d2 & b & rest & Hins & Hupd & _ & _ & Hout)]; [done|].
    assert (st_ledger (store_of (serve (post_add_money env u a pm) s)) = d2) as ->.
    { by destruct Hout as [(_ & _ & ->)|(_ & _ & ->)]. }
    apply insert_transaction_inv in Hins as (t' & Hc & Hu1 & Hw1 & Ht1 & _).
    apply transactions_columns_inv in Hc as (_ & Hs & Hr & _).
    pose proof (update_balance_inv _ _ _ _ _ Hupd) as (_ & Ht2 & _).
    split.
    + eapply update_balance_nonneg; [done|]. unfold nonneg_balances. by rewrite Hw1.
    + unfold deposit_rows_on_sender_side. rewrite Ht2, Ht1.
      apply Forall_app; split; [done|]. apply Forall_singleton. intros _.
      rewrite Hs, Hr. simpl. eauto.
  - by rewrite post_send_money_store.
  - by rewrite get_transactions_store.
  - by rewrite get_transaction_by_id_store.
Qed.

Lemma reachable_ledger_invariant s : reachable s → ledger_invariant (st_ledger s).
Proof.
  induction 1 as [|env q s _ IH]; [apply ledger_invariant_empty|].
  by apply ledger_invariant_next.
Qed.

Lemma reachable_when_reachable ok s : reachable_when ok s → reachable s.
Proof. induction 1; [apply reachable_init|by apply reachable_step]. Qed.

(** ** The example stores *)

Lemma funded_reachable : reachable Examples.funded.
Proof. repeat apply reachable_step. apply reachable_init. Qed.

Lemma funded_ledger :
  st_ledger Examples.funded =
  mkDb [mkUser Examples.asha "asha@example.in" "$2b$12$secret1" "Asha" "9876543210" true;
        mkUser Examples.ravi "ravi@example.in" "$2b$12$secret2" "Ravi" "9876543211" true]
       [mkWallet Examples.asha 10000; mkWallet Examples.ravi 0]
       [mkTransaction Examples.t1 (Some Examples.asha) None 10000 add_money completed
          (Some "UPI") None (Some "ADD_1700000000000_k3j9x2m1q") 3].
Proof. vm_compute. reflexivity. Qed.

(** ** Transfers *)

(** C1. Conservation is claimed of every transfer that completes: sender
    wallet present, balance at least the amount, recipient present and
    active, sender and recipient distinct. Here is such a transfer (25.00
    out of 100.00, in a request the validator accepts); the handler answers
    500, the sender still holds 100.00 and the recipient 0.00. The insert of
    the [receive_money] row is the statement that fails. *)
Theorem transfer_does_not_complete :
  sendMoneyValidation Examples.ravi (paise 2500) (Some "lunch") = true
  ∧ sanitized_note (Some "lunch") = Some "lunch"
  ∧ select_balance Examples.asha (st_ledger Examples.funded) = [10000]
  ∧ uuid_in Examples.ravi = Some Examples.ravi
  ∧ length (select_active_user Examples.ravi (st_ledger Examples.funded)) = 1%nat
  ∧ response_of Transfer.outcome = inr (Failure 500 "Failed to send money")
  ∧ log_of Transfer.outcome
    = [EvConnect; EvQuery Begin; EvQuery (SelectBalance Examples.asha);
       EvQuery (SelectActiveUser Examples.ravi); EvQuery (InsertTransaction send_money);
       EvQuery (InsertTransaction receive_money); EvQuery Rollback; EvRelease]
  ∧ select_balance Examples.asha (st_ledger (store_of Transfer.outcome)) = [10000]
  ∧ select_balance Examples.ravi (st_ledger (store_of Transfer.outcome)) = [0].
Proof. vm_compute. done. Qed.

(** C5. The two rows of a transfer share one [reference_id], which the
    schema declares [UNIQUE]: once the [send_money] row is in, the ledger
    refuses the [receive_money] row, and the request ends with no row added
    where the claim has two. *)
Theorem paired_rows_refused_by_schema :
  (∃ d1, insert_transaction Transfer.send_row (st_ledger Examples.funded)
         = inr (d1, Examples.t2)
         ∧ insert_transaction Transfer.receive_row d1 = inl unique_violation)
  ∧ transactions (st_ledger (store_of Transfer.outcome))
    = transactions (st_ledger Examples.funded)
  ∧ length (transactions (st_ledger (store_of Transfer.outcome))) = 1%nat.
Proof.
  split; [|by vm_compute].
  eexists. split; vm_compute; reflexivity.
Qed.

(** The deposit half of C5: a deposit answered with a success has added
    exactly one row, [add_money] and [completed], of the amount as the
    column rounds it. *)
Lemma post_add_money_one_row env userId amount paymentMethod s code data :
  response_of (serve (post_add_money env userId amount paymentMethod) s)
  = inr (Success code data) →
  ∃ t, transactions (st_ledger (store_of (serve (post_add_money env userId amount paymentMethod) s)))
       = transactions (st_ledger s) ++ [t]
    ∧ t_transaction_type t = add_money ∧ t_status t = completed
    ∧ t_sender_id t = Some userId ∧ t_recipient_id t = None
    ∧ t_amount t = to_numeric_2 amount.
Proof.
  intros Hok.
  destruct (post_add_money_outcome env userId amount paymentMethod s)
    as [(Hr & _)|(d1 & d2 & b & rest & Hins & Hupd & _ & _ & Hout)]; [congruence|].
  destruct Hout as [(_ & _ & ->)|(_ & Hr & _)]; [|congruence].
  apply insert_transaction_inv in Hins as (t & Hc & _ & _ & Ht1 & _).
  apply transactions_columns_inv in Hc as (_ & Hs & Hrc & Ha & Hty & Hst & _).
  apply update_balance_inv in Hupd as (_ & Ht2 & _).
  exists t. simpl. rewrite Ht2, Ht1, Hty, Hst, Hs, Hrc, Ha. done.
Qed.

(** The two balance updates of a transfer of whole minor units, taken by
    themselves, move the amount: where the ledger accepts both, every wallet
    of the sender is down by the amount, every wallet of the recipient is up
    by it, all others are as before, and the balance returned for the sender
    is the old one less the amount. *)
Lemma balance_updates_conserve amount senderId recipientId d d1 d2 rows1 rows2 :
  senderId ≠ recipientId →
  update_balance (negated (paise amount)) senderId d = inr (d1, rows1) →
  update_balance (paise amount) recipientId d1 = inr (d2, rows2) →
  Forall2 (λ w w', w_user_id w' = w_user_id w
                   ∧ w_balance w' = w_balance w
                       + (if decide (w_user_id w = senderId) then - amount
                          else if decide (w_user_id w = recipientId) then amount
                          else 0))
          (wallets d) (wallets d2)
  ∧ rows1 = (λ b, b - amount) <$> select_balance senderId d.
Proof.
  change (negated (paise amount)) with (paise (- amount)).
  intros Hne (_ & _ & H1 & ->)%update_balance_inv (_ & _ & H2 & _)%update_balance_inv.
  apply update_wallet_rows_inv in H1. apply update_wallet_rows_inv in H2. split.
  - eapply Forall2_trans; [|exact H1|exact H2]. simpl.
    intros w w1 w2 (Hid1 & Hyes1 & Hno1)%update_wallet_row_inv
                   (Hid2 & Hyes2 & Hno2)%update_wallet_row_inv.
    split; [congruence|].
    destruct (decide (w_user_id w = senderId)) as [Hs|Hs].
    + destruct (Hyes1 Hs) as [Hb _]. rewrite Hno2 by congruence.
      rewrite Hb, add_numeric_2_paise. lia.
    + rewrite (Hno1 Hs) in *. destruct (decide (w_user_id w = recipientId)) as [Hr|Hr].
      * destruct (Hyes2 Hr) as [Hb _]. by rewrite Hb, add_numeric_2_paise.
      * rewrite (Hno2 Hr). lia.
  - unfold select_balance. clear H2. induction H1 as [|w w1 ws ws1 Hw _ IH]; [done|].
    apply update_wallet_row_inv in Hw as (Hid & Hyes & Hno).
    rewrite !filter_cons. rewrite Hid.
    destruct (decide (w_user_id w = senderId)) as [Hs|Hs].
    + rewrite !fmap_cons, IH. destruct (Hyes Hs) as [-> _].
      rewrite add_numeric_2_paise. f_equal.
    + done.
Qed.

(** C6. The handler rejects a transfer to oneself by comparing the id of
    the caller with the text of [recipientId]: when the two are the same
    text the answer is 400 and the handler has issued no statement and no
    Redis call (it has acquired and released a client). The ledger compares
    uuid values. The caller's own id in capitals passes the validator and
    is another text, so the check lets it through; the statements then find
    the caller as the recipient, and the request ends, like every transfer,
    with 500 after [BEGIN], two [SELECT]s and two [INSERT]s. No text that
    differs from the caller's id is ever answered with the message of this
    check, whichever uuid it spells. *)
Theorem self_transfer_check_compares_text :
  (∀ env u amount note s,
     serve (post_send_money env u u amount note) s
     = (inr (Failure 400 "Cannot send money to yourself"), s, [EvConnect; EvRelease]))
  ∧ (∀ env u recipientId amount note s,
       recipientId ≠ u →
       uuid_in recipientId = Some u →
       response_of (serve (post_send_money env u recipientId amount note) s)
       ≠ inr (Failure 400 "Cannot send money to yourself"))
  ∧ sendMoneyValidation Examples.ASHA (paise 1000) None = true
  ∧ Examples.ASHA ≠ Examples.asha
  ∧ uuid_in Examples.ASHA = Some Examples.asha
  ∧ serve (post_send_money Transfer.env Examples.asha Examples.ASHA (paise 1000) None)
      Examples.funded
    = (inr (Failure 500 "Failed to send money"), Examples.funded,
       [EvConnect; EvQuery Begin; EvQuery (SelectBalance Examples.asha);
        EvQuery (SelectActiveUser Examples.ASHA); EvQuery (InsertTransaction send_money);
        EvQuery (InsertTransaction receive_money); EvQuery Rollback; EvRelease]).
Proof.
  split; [|split; [|split; [|split; [|split]]]].
  - intros env u amount note [d r]. unfold_handler. simpl. by rewrite bool_decide_eq_true_2.
  - intros env u recipientId amount note [d r] Hne _. unfold_handler. simpl.
    rewrite bool_decide_eq_false_2 by done.
    repeat (case_match; simplify_eq/=; try done).
  - by vm_compute.
  - discriminate.
  - by vm_compute.
  - by vm_compute.
Qed.

Lemma self_transfer_check_compares_text_witness :
  response_of (serve (post_send_money Transfer.env Examples.asha Examples.ASHA (paise 1000)
                        None) Examples.funded)
  ≠ inr (Failure 400 "Cannot send money to yourself").
Proof.
  destruct self_transfer_check_compares_text as (_ & H & _).
  apply H; [discriminate|by vm_compute].
Defined.

Lemma update_wallet_rows_overdraw delta uid ws w :
  w ∈ ws → w_user_id w = uid → add_numeric_2 (w_balance w) delta < 0 →
  ∃ e, update_wallet_rows delta uid ws = inl e.
Proof.
  intros Hin Hid Hneg. induction Hin as [w ws|w w0 ws Hin IH]; simpl.
  - unfold update_wallet_row, wallets_balance_check.
    rewrite bool_decide_eq_true_2 by done.
    destruct (numeric_15_2 (add_numeric_2 (w_balance w) delta)); simpl; [|eauto].
    rewrite bool_decide_eq_false_2 by lia. simpl. eauto.
  - destruct (update_wallet_row delta uid w0); [eauto|].
    destruct (IH Hid Hneg) as [e ->]. eauto.
Qed.

(** C2. No reachable store has an overdrawn wallet. A transfer of more than
    the sender holds is answered 400 (the message is that of the balance
    check, or that of the self-transfer check when it applies) and leaves
    both stores, hence both balances, as they were. The ledger itself keeps
    balances from going negative: whatever [UPDATE] or [INSERT] on [wallets]
    it accepts leaves no negative balance, and an [UPDATE] that would
    overdraw a wallet is refused. *)
Theorem balances_never_negative env senderId recipientId amount note s b rest :
  reachable s →
  select_balance senderId (st_ledger s) = b :: rest →
  balance_below b amount →
  fault env Begin = false →
  fault env (SelectBalance senderId) = false →
  nonneg_balances (st_ledger s)
  ∧ response_of (serve (post_send_money env senderId recipientId amount note) s)
    = inr (Failure 400 (if bool_decide (senderId = recipientId)
                        then "Cannot send money to yourself"
                        else "Insufficient balance"))
  ∧ store_of (serve (post_send_money env senderId recipientId amount note) s) = s
  ∧ (∀ delta uid d' rows,
       update_balance delta uid (st_ledger s) = inr (d', rows) → nonneg_balances d')
  ∧ (∀ uid v d' r,
       insert_wallet uid v (st_ledger s) = inr (d', r) → nonneg_balances d')
  ∧ (∀ delta uid w,
       w ∈ wallets (st_ledger s) → w_user_id w = uid →
       add_numeric_2 (w_balance w) delta < 0 →
       ∃ e, update_balance delta uid (st_ledger s) = inl e).
Proof.
  intros Hreach Hsel Hlt Hf1 Hf2.
  pose proof (reachable_ledger_invariant s Hreach) as [Hnn _].
  split; [done|]. split; [|split; [apply post_send_money_store|]].
  - destruct s as [d r]. simpl in *. unfold_handler. simpl.
    case_bool_decide; [done|]. rewrite Hf1. simpl. rewrite Hf2. simpl.
    rewrite Hsel. simpl. by rewrite bool_decide_eq_true_2.
  - split; [|split].
    + intros delta uid d' rows H. by eapply update_balance_nonneg.
    + intros uid v d' r (_ & _ & Hw & Hv)%insert_wallet_inv.
      unfold nonneg_balances. rewrite Hw. apply Forall_app. split; [done|].
      by repeat constructor.
    + intros delta uid w Hin Hid Hneg. unfold update_balance.
      destruct (update_wallet_rows_overdraw delta uid _ w Hin Hid Hneg) as [e ->]. eauto.
Qed.

Lemma balances_never_negative_witness :
  nonneg_balances (st_ledger Examples.funded)
  ∧ response_of (serve (post_send_money Transfer.env Examples.asha Examples.ravi
                          (paise 20000) None) Examples.funded)
    = inr (Failure 400 "Insufficient balance")
  ∧ store_of (serve (post_send_money Transfer.env Examples.asha Examples.ravi
                       (paise 20000) None) Examples.funded) = Examples.funded.
Proof.
  pose proof (balances_never_negative Transfer.env Examples.asha Examples.ravi (paise 20000)
                None Examples.funded 10000 [] funded_reachable) as H.
  destruct H as (H1 & H2 & H3 & _); [by vm_compute|by vm_compute|done|done|].
  split; [exact H1|]. split; [exact H2|exact H3].
Defined.

Lemma insufficient_balance_response env senderId recipientId amount note s :
  response_of (serve (post_send_money env senderId recipientId amount note) s)
  = inr (Failure 400 "Insufficient balance") →
  ∃ b rest, select_balance senderId (st_ledger s) = b :: rest ∧ balance_below b amount.
Proof.
  destruct s. run_handler.
  all: try (case_bool_decide; [|done]).
  all: eauto.
Qed.

(** C3. When a step of the transfer unit fails (balance below the amount,
    recipient missing or inactive, or a failure of the store on either insert
    or either update) the request is answered with a failure, nothing was
    committed, and ledger and cache are exactly as before: no row without
    its balance change, no balance change without its rows. A balance below
    the amount has an answer of its own, 400 "Insufficient balance", and
    that answer is given for no other reason. *)
Theorem failed_transfer_rolls_back env senderId recipientId amount note s :
  transfer_step_fails env senderId recipientId amount (st_ledger s) →
  store_of (serve (post_send_money env senderId recipientId amount note) s) = s
  ∧ (∃ code message,
       response_of (serve (post_send_money env senderId recipientId amount note) s)
       = inr (Failure code message))
  ∧ (EvQuery Commit ∉ log_of (serve (post_send_money env senderId recipientId amount note) s))
  ∧ (senderId ≠ recipientId →
     fault env Begin = false →
     fault env (SelectBalance senderId) = false →
     (∃ b rest, select_balance senderId (st_ledger s) = b :: rest ∧ balance_below b amount) →
     serve (post_send_money env senderId recipientId amount note) s
     = (inr (Failure 400 "Insufficient balance"), s,
        [EvConnect; EvQuery Begin; EvQuery (SelectBalance senderId); EvQuery Rollback;
         EvRelease]))
  ∧ (response_of (serve (post_send_money env senderId recipientId amount note) s)
     = inr (Failure 400 "Insufficient balance") →
     ∃ b rest, select_balance senderId (st_ledger s) = b :: rest ∧ balance_below b amount).
Proof.
  intros _. split; [apply post_send_money_store|].
  split; [apply post_send_money_fails|].
  split; [apply post_send_money_never_commits|].
  split; [|apply insufficient_balance_response].
  intros Hne Hf1 Hf2 (b & rest & Hsel & Hlt).
  destruct s as [d r]. simpl in *. unfold_handler. simpl.
  rewrite bool_decide_eq_false_2 by done. rewrite Hf1. simpl. rewrite Hf2. simpl.
  rewrite Hsel. simpl. by rewrite bool_decide_eq_true_2.
Qed.

Lemma failed_transfer_rolls_back_witness :
  store_of (serve (post_send_money Transfer.env Examples.asha Examples.ravi (paise 20000) None)
              Examples.funded) = Examples.funded
  ∧ serve (post_send_money Transfer.env Examples.asha Examples.ravi (paise 20000) None)
      Examples.funded
    = (inr (Failure 400 "Insufficient balance"), Examples.funded,
       [EvConnect; EvQuery Begin; EvQuery (SelectBalance Examples.asha); EvQuery Rollback;
        EvRelease]).
Proof.
  assert (Hlow : ∃ b rest,
             select_balance Examples.asha (st_ledger Examples.funded) = b :: rest
             ∧ balance_below b (paise 20000)).
  { exists 10000, []. split; by vm_compute. }
  pose proof (failed_transfer_rolls_back Transfer.env Examples.asha Examples.ravi
                (paise 20000) None Examples.funded (or_introl Hlow)) as (H1 & _ & _ & H4 & _).
  split; [exact H1|]. apply H4; [done|reflexivity|reflexivity|exact Hlow].
Defined.

(** C4. The handler reads the sender's balance with a plain [SELECT]; it
    takes no lock, and the claim's outcome already fails for two transfers
    served one after the other, which is one of the schedules two concurrent
    requests may take. With a balance that covers either amount, the first
    transfer does not succeed and neither does the second; neither is
    answered "Insufficient balance", whatever the two amounts add up to, and
    the balance of the sender is what it was before the two. *)
Theorem transfers_in_turn_both_fail env1 env2 senderId recipient1 recipient2 amount1 amount2
    note1 note2 s b rest :
  select_balance senderId (st_ledger s) = b :: rest →
  ¬ balance_below b amount1 →
  ¬ balance_below b amount2 →
  (∃ code message,
     response_of (serve (post_send_money env1 senderId recipient1 amount1 note1) s)
     = inr (Failure code message)
     ∧ Failure code message ≠ Failure 400 "Insufficient balance")
  ∧ (∃ code message,
       response_of (serve (post_send_money env2 senderId recipient2 amount2 note2)
                      (store_of (serve (post_send_money env1 senderId recipient1 amount1 note1) s)))
       = inr (Failure code message)
       ∧ Failure code message ≠ Failure 400 "Insufficient balance")
  ∧ store_of (serve (post_send_money env2 senderId recipient2 amount2 note2)
                (store_of (serve (post_send_money env1 senderId recipient1 amount1 note1) s)))
    = s
  ∧ (EvQuery Commit
     ∉ log_of (serve (post_send_money env1 senderId recipient1 amount1 note1) s)
       ++ log_of (serve (post_send_money env2 senderId recipient2 amount2 note2)
                    (store_of (serve (post_send_money env1 senderId recipient1 amount1 note1) s)))).
Proof.
  intros Hsel Hno1 Hno2. rewrite !post_send_money_store.
  assert (Hone : ∀ env recipientId amount note,
            ¬ balance_below b amount →
            ∃ code message,
              response_of (serve (post_send_money env senderId recipientId amount note) s)
              = inr (Failure code message)
              ∧ Failure code message ≠ Failure 400 "Insufficient balance").
  { intros env recipientId amount note Hno.
    destruct (post_send_money_fails env senderId recipientId amount note s)
      as (code & message & Hr).
    exists code, message. split; [done|]. intros Heq. rewrite Heq in Hr.
    apply insufficient_balance_response in Hr as (b' & rest' & Hsel' & Hlow).
    rewrite Hsel in Hsel'. by simplify_eq. }
  split; [by apply Hone|]. split; [by apply Hone|]. split; [done|].
  rewrite not_elem_of_app. split; apply post_send_money_never_commits.
Qed.

Lemma transfers_in_turn_both_fail_witness :
  select_balance Examples.asha (st_ledger Examples.funded) = [10000]
  ∧ sendMoneyValidation Examples.ravi (paise 8000) None = true
  ∧ balance_below 10000 (paise (8000 + 8000))
  ∧ response_of Twice.first = inr (Failure 500 "Failed to send money")
  ∧ response_of Twice.second = inr (Failure 500 "Failed to send money")
  ∧ store_of Twice.second = Examples.funded
  ∧ select_balance Examples.asha (st_ledger (store_of Twice.second)) = [10000].
Proof.
  destruct (transfers_in_turn_both_fail Twice.env1 Twice.env2 Examples.asha Examples.ravi
              Examples.ravi (paise 8000) (paise 8000) None None Examples.funded 10000 [])
    as (_ & _ & Hstore & _); [by vm_compute|by vm_compute|by vm_compute|].
  split; [by vm_compute|]. split; [by vm_compute|]. split; [by vm_compute|].
  split; [by vm_compute|]. split; [by vm_compute|].
  split; [exact Hstore|]. unfold Twice.second, Twice.first. rewrite Hstore. by vm_compute.
Defined.

(** ** Balance reads *)

(** C9. [GET /balance] reads through the cache. With a live entry under the
    user's key the answer is that entry with [cached = true], the stores are
    untouched and the only call made is the Redis [get]. Without one, and
    with the wallet in the ledger, the answer is the wallet's balance with
    [cached = false]; the ledger is unchanged and the balance is cached for
    300 seconds, after which the entry is gone. *)
Theorem get_balance_reads_through env user_id s :
  (∀ v, redis_lookup (now env) (balance_key user_id) (st_redis s) = Some v →
        serve (get_balance env user_id) s
        = (inr (Success 200 (BalanceData v (now env) true)), s,
           [EvRedisGet (balance_key user_id)]))
  ∧ (∀ b rest,
       redis_lookup (now env) (balance_key user_id) (st_redis s) = None →
       fault env (SelectBalance user_id) = false →
       select_balance user_id (st_ledger s) = b :: rest →
       serve (get_balance env user_id) s
       = (inr (Success 200 (BalanceData b (now env) false)),
          mkStore (st_ledger s)
            (<[balance_key user_id := mkCacheEntry b (now env + 300)]> (st_redis s)),
          [EvRedisGet (balance_key user_id); EvQuery (SelectBalance user_id);
           EvRedisSetEx (balance_key user_id) 300])
       ∧ ∀ t, redis_lookup t (balance_key user_id)
                (st_redis (store_of (serve (get_balance env user_id) s)))
              = if bool_decide (t < now env + 300) then Some b else None).
Proof.
  destruct s as [d r]. split.
  - intros v Hv. unfold_handler. simpl in *. by rewrite Hv.
  - intros b rest Hmiss Hf Hsel. unfold_handler. simpl in *.
    rewrite Hmiss, Hf. simpl. rewrite Hsel. simpl. split; [done|].
    intros t. unfold redis_lookup. by rewrite lookup_insert_eq.
Qed.

Lemma get_balance_reads_through_witness :
  serve (get_balance Transfer.env Examples.asha) Examples.funded
  = (inr (Success 200 (BalanceData 10000 4 false)),
     mkStore (st_ledger Examples.funded)
       (<[balance_key Examples.asha := mkCacheEntry 10000 304]> (st_redis Examples.funded)),
     [EvRedisGet (balance_key Examples.asha); EvQuery (SelectBalance Examples.asha);
      EvRedisSetEx (balance_key Examples.asha) 300])
  ∧ serve (get_balance Transfer.env Examples.asha)
      (store_of (serve (get_balance Transfer.env Examples.asha) Examples.funded))
    = (inr (Success 200 (BalanceData 10000 4 true)),
       store_of (serve (get_balance Transfer.env Examples.asha) Examples.funded),
       [EvRedisGet (balance_key Examples.asha)]).
Proof.
  split.
  - apply (proj2 (get_balance_reads_through Transfer.env Examples.asha Examples.funded)
             10000 []).
    + by vm_compute.
    + reflexivity.
    + by vm_compute.
  - apply (proj1 (get_balance_reads_through Transfer.env Examples.asha
                    (store_of (serve (get_balance Transfer.env Examples.asha)
                                 Examples.funded)))).
    by vm_compute.
Defined.

(** ** History *)

Lemma left_join_users_nonempty o d : ∃ x, x ∈ left_join_users o d.
Proof.
  unfold left_join_users. destruct o as [id|]; [|exists None; set_solver].
  destruct (filter _ (users d)) as [|u us]; [exists None|exists (Some u)]; set_solver.
Qed.

Lemma elem_of_joined_rows row d :
  row ∈ joined_rows d ↔
  r_tx row ∈ transactions d
  ∧ r_sender row ∈ left_join_users (t_sender_id (r_tx row)) d
  ∧ r_recipient row ∈ left_join_users (t_recipient_id (r_tx row)) d.
Proof.
  unfold joined_rows. rewrite list_elem_of_bind. split.
  - intros (t & Hrow & Ht). apply list_elem_of_bind in Hrow as (sd & Hrow & Hs).
    apply list_elem_of_bind in Hrow as (rc & Hrow & Hr).
    apply list_elem_of_singleton in Hrow as ->. done.
  - intros (Ht & Hs & Hr). exists (r_tx row). split; [|done].
    apply list_elem_of_bind. exists (r_sender row). split; [|done].
    apply list_elem_of_bind. exists (r_recipient row). split; [|done].
    destruct row. set_solver.
Qed.

Lemma joined_rows_cover t d : t ∈ transactions d → ∃ row, row ∈ joined_rows d ∧ r_tx row = t.
Proof.
  intros Ht.
  destruct (left_join_users_nonempty (t_sender_id t) d) as [sd Hs].
  destruct (left_join_users_nonempty (t_recipient_id t) d) as [rc Hr].
  exists (mkTxRow t sd rc). split; [|done]. by apply elem_of_joined_rows.
Qed.

Lemma elem_of_select_transaction row id userId d :
  row ∈ select_transaction id userId d ↔
  row ∈ joined_rows d ∧ t_id (r_tx row) = id ∧ is_party userId (r_tx row) = true.
Proof. unfold select_transaction. rewrite list_elem_of_filter. tauto. Qed.

Lemma select_transaction_party id userId d :
  party_to userId id d ↔ select_transaction id userId d ≠ [].
Proof.
  split.
  - intros (t & Ht & Hid & Hp).
    destruct (joined_rows_cover t d Ht) as (row & Hrow & <-).
    intros Hnil.
    assert (row ∈ select_transaction id userId d) as Hin.
    { apply elem_of_select_transaction. unfold is_party.
      by rewrite bool_decide_eq_true_2. }
    rewrite Hnil in Hin. by apply elem_of_nil in Hin.
  - intros Hne. destruct (select_transaction id userId d) as [|row rows] eqn:E; [done|].
    assert (row ∈ select_transaction id userId d) as Hin by (rewrite E; left).
    apply elem_of_select_transaction in Hin as (Hj & Hid & Hp).
    apply elem_of_joined_rows in Hj as (Ht & _).
    exists (r_tx row). unfold is_party in Hp. apply bool_decide_eq_true_1 in Hp. done.
Qed.

Lemma view_of_format row : view_of (format_transaction row) (r_tx row).
Proof.
  unfold view_of, format_transaction. simpl. repeat split; try done.
  all: try (case_bool_decide; [done|by intros [? [=]]]).
  all: intros ->; by rewrite bool_decide_eq_true_2.
Qed.

(** What [GET /transactions/:id] answers when its statement does not fail
    for reasons of the store. *)
Lemma get_transaction_by_id_response env userId id s :
  fault env SelectTransaction = false →
  response_of (serve (get_transaction_by_id env userId id) s)
  = inr match uuid_in id with
        | None => Failure 500 "Failed to fetch transaction"
        | Some tid =>
            match select_transaction tid userId (st_ledger s) with
            | [] => Failure 404 "Transaction not found"
            | tx :: _ => Success 200 (TransactionData (format_transaction tx))
            end
        end.
Proof.
  intros Hf. destruct s as [d r]. unfold_handler. simpl. rewrite Hf. simpl.
  destruct (uuid_in id) as [tid|]; [|done]. simpl.
  by destruct (select_transaction tid userId d).
Qed.

(** C7. [GET /transactions/:id] answers with a transaction exactly when
    the caller is the sender or the recipient of the transaction the path
    names, and what it shows is that transaction. The route has no
    validator, and the statement reads the id of the path as a uuid: a text
    that is not one makes the statement fail, and the answer is 500, not
    404. For a text that is a uuid, in whatever spelling, a caller who is
    not party to the transaction gets 404 "Transaction not found", the same
    answer as over any ledger that has no transaction of that id. The
    stores are not changed. *)
Theorem get_transaction_only_for_parties env userId id s :
  fault env SelectTransaction = false →
  (uuid_in id = None →
   response_of (serve (get_transaction_by_id env userId id) s)
   = inr (Failure 500 "Failed to fetch transaction"))
  ∧ (∀ tid,
       uuid_in id = Some tid →
       (party_to userId tid (st_ledger s) →
        ∃ t v, t ∈ transactions (st_ledger s) ∧ t_id t = tid
               ∧ (t_sender_id t = Some userId ∨ t_recipient_id t = Some userId)
               ∧ response_of (serve (get_transaction_by_id env userId id) s)
                 = inr (Success 200 (TransactionData v))
               ∧ view_of v t)
       ∧ (¬ party_to userId tid (st_ledger s) →
          response_of (serve (get_transaction_by_id env userId id) s)
          = inr (Failure 404 "Transaction not found")
          ∧ ∀ s', (∀ t, t ∈ transactions (st_ledger s') → t_id t ≠ tid) →
                  response_of (serve (get_transaction_by_id env userId id) s')
                  = response_of (serve (get_transaction_by_id env userId id) s)))
  ∧ ((∃ code data, response_of (serve (get_transaction_by_id env userId id) s)
                   = inr (Success code data)) →
     ∃ tid, uuid_in id = Some tid ∧ party_to userId tid (st_ledger s))
  ∧ store_of (serve (get_transaction_by_id env userId id) s) = s.
Proof.
  intros Hf. split; [|split; [|split]].
  - intros Hbad. by rewrite get_transaction_by_id_response, Hbad.
  - intros tid Hid.
    assert (Hmiss : ∀ s0 : Store, ¬ party_to userId tid (st_ledger s0) →
      response_of (serve (get_transaction_by_id env userId id) s0)
      = inr (Failure 404 "Transaction not found")).
    { intros s0 Hnp. rewrite get_transaction_by_id_response, Hid by done.
      destruct (select_transaction tid userId (st_ledger s0)) eqn:E; [done|].
      exfalso. apply Hnp, select_transaction_party. by rewrite E. }
    split.
    + intros Hp. apply select_transaction_party in Hp.
      destruct (select_transaction tid userId (st_ledger s)) as [|row rows] eqn:E; [done|].
      assert (row ∈ select_transaction tid userId (st_ledger s)) as Hin by (rewrite E; left).
      apply elem_of_select_transaction in Hin as (Hj & Hrow & Hparty).
      apply elem_of_joined_rows in Hj as (Ht & _).
      unfold is_party in Hparty. apply bool_decide_eq_true_1 in Hparty.
      exists (r_tx row), (format_transaction row).
      split; [done|]. split; [done|]. split; [done|].
      split; [|apply view_of_format].
      by rewrite get_transaction_by_id_response, Hid, E.
    + intros Hnp. split; [by apply Hmiss|].
      intros s' Hnone. rewrite (Hmiss s) by done. apply Hmiss.
      intros (t & Ht & Htid & _). by apply (Hnone t).
  - intros (code & data & Hok). rewrite get_transaction_by_id_response in Hok by done.
    destruct (uuid_in id) as [tid|]; [|done]. exists tid. split; [done|].
    apply select_transaction_party.
    by destruct (select_transaction tid userId (st_ledger s)).
  - apply get_transaction_by_id_store.
Qed.

Lemma get_transaction_only_for_parties_witness :
  response_of (serve (get_transaction_by_id Transfer.env Examples.asha "not-a-uuid")
                 Examples.funded)
  = inr (Failure 500 "Failed to fetch transaction")
  ∧ response_of (serve (get_transaction_by_id Transfer.env Examples.ravi Examples.t1)
                   Examples.funded)
    = inr (Failure 404 "Transaction not found")
  ∧ response_of (serve (get_transaction_by_id Transfer.env Examples.asha Examples.t5)
                   Examples.funded)
    = inr (Failure 404 "Transaction not found")
  ∧ response_of (serve (get_transaction_by_id Transfer.env Examples.asha Examples.t1)
                   Examples.funded)
    = inr (Success 200 (TransactionData
        (mkTxView Examples.t1 add_money 10000 completed (Some "UPI") None
           (Some "ADD_1700000000000_k3j9x2m1q") 3 None None))).
Proof.
  split; [|split; [|split]].
  - by apply (proj1 (get_transaction_only_for_parties Transfer.env Examples.asha
                       "not-a-uuid" Examples.funded eq_refl)).
  - destruct (get_transaction_only_for_parties Transfer.env Examples.ravi Examples.t1
                Examples.funded eq_refl) as (_ & H & _).
    destruct (H Examples.t1) as [_ Hmiss]; [by vm_compute|].
    refine (proj1 (Hmiss _)).
    intros (t & Ht & _ & Hp). rewrite funded_ledger in Ht. simpl in Ht.
    apply list_elem_of_singleton in Ht as ->. simpl in Hp. by destruct Hp.
  - destruct (get_transaction_only_for_parties Transfer.env Examples.asha Examples.t5
                Examples.funded eq_refl) as (_ & H & _).
    destruct (H Examples.t5) as [_ Hmiss]; [by vm_compute|].
    refine (proj1 (Hmiss _)).
    intros (t & Ht & Hid & _). rewrite funded_ledger in Ht. simpl in Ht.
    apply list_elem_of_singleton in Ht as ->. simpl in Hid. discriminate Hid.
  - by vm_compute.
Defined.

(** C10. In every reachable ledger an [add_money] row names its user in
    [sender_id] and has no [recipient_id]; it is the row the deposit handler
    writes for [req.user.id]. For that user the row passes the [sent] and
    the [add_money] filter, both of which test [sender_id], and not the
    [received] one. Its view carries neither a [sender] nor a [recipient]
    object: [recipient] is attached to [send_money] rows only and [sender]
    to [receive_money] rows only. *)
Theorem deposits_are_recorded_on_the_sender_side s t :
  reachable s →
  t ∈ transactions (st_ledger s) →
  t_transaction_type t = add_money →
  (∃ u, t_sender_id t = Some u ∧ t_recipient_id t = None
        ∧ where_clause u (Some "sent") t = true
        ∧ where_clause u (Some "add_money") t = true
        ∧ where_clause u (Some "received") t = false)
  ∧ (∀ row, r_tx row = t →
            v_sender (format_transaction row) = None
            ∧ v_recipient (format_transaction row) = None)
  ∧ (∀ row, (is_Some (v_recipient (format_transaction row))
             ↔ t_transaction_type (r_tx row) = send_money)
            ∧ (is_Some (v_sender (format_transaction row))
               ↔ t_transaction_type (r_tx row) = receive_money))
  ∧ (∀ env userId amount paymentMethod s0 code data,
       response_of (serve (post_add_money env userId amount paymentMethod) s0)
       = inr (Success code data) →
       ∃ t0, transactions (st_ledger (store_of
                (serve (post_add_money env userId amount paymentMethod) s0)))
             = transactions (st_ledger s0) ++ [t0]
             ∧ t_transaction_type t0 = add_money
             ∧ t_sender_id t0 = Some userId ∧ t_recipient_id t0 = None).
Proof.
  intros Hreach Hin Hty.
  pose proof (reachable_ledger_invariant s Hreach) as [_ Hrows].
  unfold deposit_rows_on_sender_side in Hrows. rewrite Forall_forall in Hrows.
  destruct (Hrows t Hin Hty) as [[u Hs] Hr].
  split; [|split; [|split]].
  - exists u. unfold where_clause, is_party. rewrite Hs, Hr, Hty. simpl.
    rewrite !bool_decide_eq_true_2 by eauto. done.
  - intros row <-. unfold format_transaction. simpl. by rewrite Hty.
  - intros row. unfold format_transaction. simpl.
    split; (case_bool_decide; split; [done| |intros [? [=]]|done]); by eexists.
  - intros env userId amount pm s0 code data Hok.
    destruct (post_add_money_one_row env userId amount pm s0 code data Hok)
      as (t0 & H1 & H2 & _ & H3 & H4 & _). eauto.
Qed.

Lemma deposits_are_recorded_on_the_sender_side_witness :
  ∃ t, t ∈ transactions (st_ledger Examples.funded)
       ∧ t_sender_id t = Some Examples.asha ∧ t_recipient_id t = None
       ∧ where_clause Examples.asha (Some "sent") t = true
       ∧ where_clause Examples.asha (Some "add_money") t = true.
Proof.
  pose (t := mkTransaction Examples.t1 (Some Examples.asha) None 10000 add_money completed
               (Some "UPI") None (Some "ADD_1700000000000_k3j9x2m1q") 3).
  assert (Hin : t ∈ transactions (st_ledger Examples.funded)).
  { rewrite funded_ledger. simpl. left. }
  pose proof (deposits_are_recorded_on_the_sender_side Examples.funded t funded_reachable
                Hin eq_refl) as ((u & Hs & Hr & Hsent & Hadd & _) & _).
  exists t. simpl in Hs. injection Hs as <-. done.
Defined.

(** ** Ordering and pages *)

Section ordering.
Variable tie : Transaction → Transaction → bool.

Lemma insert_row_permutation x l : insert_row (comes_before tie) x l ≡ₚ x :: l.
Proof.
  induction l as [|y l IH]; simpl; [done|].
  destruct (comes_before tie x y); [done|]. rewrite IH. apply perm_swap.
Qed.

Lemma order_by_permutation rows : order_by_created_at_desc tie rows ≡ₚ rows.
Proof.
  unfold order_by_created_at_desc. induction rows as [|x rows IH]; simpl; [done|].
  by rewrite insert_row_permutation, IH.
Qed.

Lemma comes_before_true a b : comes_before tie a b = true → created_not_before a b.
Proof.
  unfold comes_before, created_not_before. intros H.
  apply orb_true_iff in H as [H|H].
  - apply bool_decide_eq_true_1 in H. lia.
  - apply andb_true_iff in H as [H _]. apply bool_decide_eq_true_1 in H. lia.
Qed.

Lemma comes_before_false a b : comes_before tie a b = false → created_not_before b a.
Proof.
  unfold comes_before, created_not_before. intros H.
  apply orb_false_iff in H as [H _]. apply bool_decide_eq_false_1 in H. lia.
Qed.

Lemma insert_row_sorted x l :
  StronglySorted created_not_before l →
  StronglySorted created_not_before (insert_row (comes_before tie) x l).
Proof.
  induction 1 as [|y l Hl IH Hy]; simpl; [by repeat constructor|].
  destruct (comes_before tie x y) eqn:E.
  - apply comes_before_true in E. constructor; [by constructor|].
    constructor; [done|]. eapply Forall_impl; [exact Hy|].
    unfold created_not_before in *. intros z Hz. lia.
  - apply comes_before_false in E. constructor; [done|].
    rewrite insert_row_permutation. by constructor.
Qed.

Lemma order_by_sorted rows :
  StronglySorted created_not_before (order_by_created_at_desc tie rows).
Proof.
  unfold order_by_created_at_desc. induction rows as [|x rows IH]; simpl; [constructor|].
  by apply insert_row_sorted.
Qed.

End ordering.

Lemma created_times_injective rows a b :
  NoDup (created_times rows) → a ∈ rows → b ∈ rows →
  t_created_at (r_tx a) = t_created_at (r_tx b) → a = b.
Proof.
  unfold created_times. induction rows as [|x rows IH]; [by intros _ ?%elem_of_nil|].
  rewrite fmap_cons, NoDup_cons. intros [Hx Hnd] Ha Hb Heq.
  apply elem_of_cons in Ha as [->|Ha]; apply elem_of_cons in Hb as [->|Hb]; auto.
  - exfalso. apply Hx. rewrite Heq. apply list_elem_of_fmap. eauto.
  - exfalso. apply Hx. rewrite <- Heq. apply list_elem_of_fmap. eauto.
Qed.

(** With creation times all different the result of [ORDER BY] does not
    depend on how the store treats ties. *)
Lemma order_by_without_ties tie1 tie2 rows :
  NoDup (created_times rows) →
  order_by_created_at_desc tie1 rows = order_by_created_at_desc tie2 rows.
Proof.
  intros Hnd. apply (StronglySorted_unique_strong created_not_before).
  - intros a b Ha Hb Hab Hba.
    rewrite order_by_permutation in Ha. rewrite order_by_permutation in Hb.
    apply (created_times_injective rows); try done.
    unfold created_not_before in *. lia.
  - apply order_by_sorted.
  - apply order_by_sorted.
  - by rewrite !order_by_permutation.
Qed.

Lemma sorted_without_ties rows :
  NoDup (created_times rows) →
  StronglySorted created_not_before rows → StronglySorted created_after rows.
Proof.
  intros Hnd Hs. induction Hs as [|x l Hl IH Hx]; [constructor|].
  unfold created_times in Hnd. rewrite fmap_cons in Hnd. apply NoDup_cons in Hnd as [Hx' Hnd].
  constructor; [by apply IH|].
  rewrite Forall_forall in Hx |- *. intros y Hy. specialize (Hx y Hy).
  unfold created_not_before, created_after in *.
  assert (t_created_at (r_tx y) ≠ t_created_at (r_tx x)); [|lia].
  intros Heq. apply Hx'. rewrite <- Heq. apply list_elem_of_fmap. eauto.
Qed.

(** Consecutive slices of a list, put one after the other, are a prefix. *)
Lemma pages_concat {A} (l : nat) (xs : list A) (n : nat) :
  mjoin ((λ p, take l (drop (p * l) xs)) <$> seq 0 n) = take (n * l) xs.
Proof.
  induction n as [|n IH]; [done|].
  rewrite seq_S, fmap_app, join_app, IH. simpl. rewrite app_nil_r.
  rewrite take_take_drop. f_equal. lia.
Qed.

Lemma page_of_nat limit (p : nat) rows :
  0 ≤ limit →
  page_of limit (Z.of_nat p + 1) rows = take (Z.to_nat limit) (drop (p * Z.to_nat limit) rows).
Proof.
  intros Hl. unfold page_of. do 2 f_equal.
  replace (Z.of_nat p + 1 - 1) with (Z.of_nat p) by lia.
  rewrite Z2Nat.inj_mul by lia. by rewrite Nat2Z.id.
Qed.

Lemma parseInt_or_safe v d : v ≠ 0 → Z.abs v ≤ 2 ^ 53 → parseInt_or (Some v) d = v.
Proof.
  intros Hv Hs. unfold parseInt_or. rewrite to_number_safe by done.
  by rewrite bool_decide_eq_false_2.
Qed.

(** Within the integers JavaScript holds exactly, the offset is the product. *)
Lemma offset_safe page limit :
  1 ≤ page → 1 ≤ limit → page * limit ≤ 2 ^ 53 →
  js_mul (js_sub page 1) limit = (page - 1) * limit.
Proof.
  intros Hp Hl Hs. unfold js_mul, js_sub.
  rewrite (to_number_safe (page - 1)) by nia. apply to_number_safe. nia.
Qed.

Lemma limit_offset_safe limit offset rows :
  0 ≤ limit ≤ 2 ^ 53 → 0 ≤ offset ≤ 2 ^ 53 →
  limit_offset limit offset rows
  = inr (take (Z.to_nat limit) (drop (Z.to_nat offset) rows)).
Proof.
  intros Hl Ho. unfold limit_offset, bigint.
  rewrite !bool_decide_eq_true_2 by lia. simpl.
  by rewrite !bool_decide_eq_false_2 by lia.
Qed.

Lemma get_transactions_response env userId page limit type s :
  1 ≤ page → 1 ≤ limit → page * limit ≤ 2 ^ 53 →
  fault env SelectTransactions = false →
  fault env CountTransactions = false →
  serve (get_transactions env userId (Some page) (Some limit) type) s
  = (inr (Success 200
       (TransactionsData
          (format_transaction <$>
             page_of limit page
               (order_by_created_at_desc (tie_order env)
                  (matching_rows userId type (st_ledger s))))
          (mkPagination page limit (count_transactions userId type (st_ledger s))
             (ceil_div (count_transactions userId type (st_ledger s)) limit)
             (bool_decide (page < ceil_div (count_transactions userId type (st_ledger s)) limit))
             (bool_decide (1 < page))))),
     s, [EvQuery SelectTransactions; EvQuery CountTransactions]).
Proof.
  intros Hp Hl Hs Hf1 Hf2. destruct s as [d r]. unfold serve, get_transactions.
  rewrite !parseInt_or_safe by nia. rewrite offset_safe by done.
  unfold_handler. simpl. rewrite Hf1. simpl. unfold select_transactions.
  rewrite limit_offset_safe by nia. simpl. rewrite Hf2. simpl. done.
Qed.

(** An offset or a limit that is no [bigint] makes the page query fail. *)
Lemma get_transactions_out_of_range env userId q_page q_limit type s :
  bigint (parseInt_or q_limit 20)
  && bigint (js_mul (js_sub (parseInt_or q_page 1) 1) (parseInt_or q_limit 20)) = false →
  serve (get_transactions env userId q_page q_limit type) s
  = (inr (Failure 500 "Failed to fetch transactions"), s, [EvQuery SelectTransactions]).
Proof.
  intros Hbig. destruct s as [d r]. unfold serve, get_transactions.
  generalize dependent (parseInt_or q_limit 20).
  generalize (js_sub (parseInt_or q_page 1) 1). intros o l Hbig.
  unfold_handler. simpl.
  unfold select_transactions, limit_offset. rewrite Hbig. simpl.
  by destruct (fault env SelectTransactions).
Qed.

(** C8, as stated, fails. Two deposits of one user carry the same creation
    time; [ORDER BY t.created_at DESC] names no further key, so the store is
    free to return them in either order, and may choose differently for
    different [LIMIT]/[OFFSET]. With one row per page and the two orders
    below, page 1 and page 2 both show deposit [t1] and deposit [t4] is on
    neither; page 1 alone already differs between the two orders. *)
Lemma pages_overlap_on_tied_times :
  transactionQueryValidation (Some 1) (Some 1) None = true
  ∧ transactionQueryValidation (Some 2) (Some 1) None = true
  ∧ reachable Ties.twice_funded
  ∧ response_of (serve (get_transactions Ties.env_first Examples.asha (Some 1) (Some 1) None)
                   Ties.twice_funded)
    = inr (Success 200 (TransactionsData [Ties.view_t1]
                          (mkPagination 1 1 2 2 true false)))
  ∧ response_of (serve (get_transactions Ties.env_last Examples.asha (Some 2) (Some 1) None)
                   Ties.twice_funded)
    = inr (Success 200 (TransactionsData [Ties.view_t1]
                          (mkPagination 2 1 2 2 false true)))
  ∧ response_of (serve (get_transactions Ties.env_last Examples.asha (Some 1) (Some 1) None)
                   Ties.twice_funded)
    = inr (Success 200 (TransactionsData [Ties.view_t4]
                          (mkPagination 1 1 2 2 true false))).
Proof.
  split; [done|]. split; [done|]. split.
  - apply reachable_step, funded_reachable.
  - by vm_compute.
Qed.

Lemma pages_prefix limit rows (n : nat) :
  1 ≤ limit →
  mjoin ((λ p : nat, page_of limit (Z.of_nat p + 1) rows) <$> seq 0 n)
  = take (n * Z.to_nat limit) rows.
Proof.
  intros Hl. rewrite <- pages_concat. f_equal.
  apply list_fmap_ext. intros _ p _. apply page_of_nat. lia.
Qed.

(** C8, amended. The page query returns the matching rows latest first,
    [limit] rows from offset [(page - 1) * limit], as long as [page * limit]
    is an integer JavaScript holds exactly (up to 2^53); among rows created
    at the same time the order is the one the store picks for that query.
    Queries answered with one and the same order of ties return consecutive
    slices of one arrangement. When the matching rows have pairwise
    different creation times there is only one arrangement, strictly
    descending, and every query returns a slice of it: pages 1 to n one
    after the other are its first [n * limit] rows, so consecutive pages
    neither overlap nor leave a gap. *)
Theorem pages_partition_without_ties userId type limit s :
  1 ≤ limit →
  (∀ env page,
     1 ≤ page →
     page * limit ≤ 2 ^ 53 →
     fault env SelectTransactions = false →
     fault env CountTransactions = false →
     ∃ pagination,
       response_of (serve (get_transactions env userId (Some page) (Some limit) type) s)
       = inr (Success 200
           (TransactionsData
              (format_transaction <$>
                 page_of limit page
                   (order_by_created_at_desc (tie_order env)
                      (matching_rows userId type (st_ledger s))))
              pagination))
       ∧ order_by_created_at_desc (tie_order env) (matching_rows userId type (st_ledger s))
         ≡ₚ matching_rows userId type (st_ledger s)
       ∧ StronglySorted created_not_before
           (order_by_created_at_desc (tie_order env)
              (matching_rows userId type (st_ledger s)))
       ∧ ∀ n : nat,
           mjoin ((λ p : nat,
                     page_of limit (Z.of_nat p + 1)
                       (order_by_created_at_desc (tie_order env)
                          (matching_rows userId type (st_ledger s)))) <$> seq 0 n)
           = take (n * Z.to_nat limit)
               (order_by_created_at_desc (tie_order env)
                  (matching_rows userId type (st_ledger s))))
  ∧ (NoDup (created_times (matching_rows userId type (st_ledger s))) →
     ∃ sorted,
       sorted ≡ₚ matching_rows userId type (st_ledger s)
       ∧ StronglySorted created_after sorted
       ∧ (∀ env, order_by_created_at_desc (tie_order env)
                   (matching_rows userId type (st_ledger s)) = sorted)
       ∧ (∀ env page,
            1 ≤ page →
            page * limit ≤ 2 ^ 53 →
            fault env SelectTransactions = false →
            fault env CountTransactions = false →
            ∃ pagination,
              response_of (serve (get_transactions env userId (Some page) (Some limit) type) s)
              = inr (Success 200
                  (TransactionsData (format_transaction <$> page_of limit page sorted)
                     pagination)))
       ∧ (∀ n : nat,
            mjoin ((λ p : nat, page_of limit (Z.of_nat p + 1) sorted) <$> seq 0 n)
            = take (n * Z.to_nat limit) sorted)
       ∧ (∀ n : nat,
            (length sorted ≤ n * Z.to_nat limit)%nat →
            mjoin ((λ p : nat, page_of limit (Z.of_nat p + 1) sorted) <$> seq 0 n)
            = sorted)).
Proof.
  intros Hl. split.
  - intros env page Hp Hs Hf1 Hf2. eexists. split; [|split; [|split]].
    + unfold response_of. by rewrite get_transactions_response.
    + apply order_by_permutation.
    + apply order_by_sorted.
    + intros n. by apply pages_prefix.
  - intros Hnd.
    set (rows := matching_rows userId type (st_ledger s)) in *.
    exists (order_by_created_at_desc Examples.first_come rows).
    split; [apply order_by_permutation|]. split; [|split; [|split; [|split]]].
    + apply sorted_without_ties; [|apply order_by_sorted].
      unfold created_times. by rewrite order_by_permutation.
    + intros env. by apply order_by_without_ties.
    + intros env page Hp Hs Hf1 Hf2. eexists. unfold response_of.
      rewrite get_transactions_response by done. simpl. fold rows.
      by rewrite (order_by_without_ties (tie_order env) Examples.first_come rows Hnd).
    + intros n. by apply pages_prefix.
    + intros n Hn. rewrite pages_prefix by done. by apply take_ge.
Qed.

Lemma fifteen_reachable : reachable Fifteen.store.
Proof.
  unfold Fifteen.store. generalize (seq 0 15). intros l.
  induction l as [|n l IH]; simpl.
  - repeat apply reachable_step. apply reachable_init.
  - by apply reachable_step.
Qed.

Lemma pages_partition_without_ties_witness :
  ∃ sorted,
    sorted ≡ₚ matching_rows Examples.asha None (st_ledger Fifteen.store)
    ∧ created_times sorted
      ≠ created_times (matching_rows Examples.asha None (st_ledger Fifteen.store))
    ∧ length sorted = 15%nat
    ∧ (∀ env, order_by_created_at_desc (tie_order env)
                (matching_rows Examples.asha None (st_ledger Fifteen.store)) = sorted)
    ∧ length (page_of 10 1 sorted) = 10%nat
    ∧ length (page_of 10 2 sorted) = 5%nat
    ∧ page_of 10 1 sorted ++ page_of 10 2 sorted = sorted.
Proof.
  destruct (pages_partition_without_ties Examples.asha None 10 Fifteen.store) as [_ H];
    [lia|].
  assert (Hlen : length (matching_rows Examples.asha None (st_ledger Fifteen.store)) = 15%nat)
    by (by vm_compute).
  destruct H as (sorted & Hperm & _ & Hsame & _ & _ & Hall).
  - apply (bool_decide_unpack _). by vm_compute.
  - assert (Hlen' : length sorted = 15%nat) by (by rewrite Hperm).
    exists sorted. split; [exact Hperm|]. split.
    { rewrite <- (Hsame Ties.env_first). apply (bool_decide_unpack _). by vm_compute. }
    split; [exact Hlen'|]. split; [exact Hsame|].
    unfold page_of. rewrite !length_take, !length_drop, Hlen'.
    split; [by vm_compute|]. split; [by vm_compute|].
    specialize (Hall 2%nat). simpl in Hall. rewrite app_nil_r in Hall.
    apply Hall. rewrite Hlen'. vm_compute. lia.
Defined.

(** * Further properties of the handlers *)

(** ** What the statements check *)

Lemma insert_transaction_checks t d d' r :
  insert_transaction t d = inr (d', r) →
  0 < t_amount t ∧ t_amount t < 10 ^ 15
  ∧ (∀ u, t_sender_id t = Some u → u ∈ u_id <$> users d)
  ∧ (∀ u, t_recipient_id t = Some u → u ∈ u_id <$> users d).
Proof.
  unfold insert_transaction, and_then, transactions_amount_check.
  destruct (transactions_columns t) as [e|t'] eqn:E; [done|].
  apply transactions_columns_inv in E as (_ & Hs & Hr & Ha & _ & _ & _ & _ & _ & _ & Hmax).
  rewrite Hs, Hr, Ha. intros H. repeat (case_match; simplify_eq/=).
  repeat match goal with
         | H : negb _ = false |- _ => apply negb_false_iff in H
         | H : _ && _ = true |- _ => apply andb_true_iff in H as [??]
         end.
  repeat match goal with
         | H : bool_decide (_ < _) = true |- _ => apply bool_decide_eq_true_1 in H
         end.
  split; [done|]. split; [lia|].
  unfold references_users, user_exists in *.
  split; intros u Hu; rewrite Hu in *;
    match goal with
    | H : bool_decide (u ∈ _) = true |- _ => by apply bool_decide_eq_true_1 in H
    end.
Qed.

Lemma insert_user_checks u d d' r :
  insert_user u d = inr (d', r) →
  (u_id r ∉ (u_id <$> users d)) ∧ (u_email r ∉ (u_email <$> users d))
  ∧ (u_phone r ∉ (u_phone <$> users d)).
Proof.
  unfold insert_user, and_then. intros H.
  destruct (users_columns u) as [e|u']; [done|].
  repeat (case_match; simplify_eq/=).
  repeat match goal with
         | H : bool_decide _ = false |- _ => apply bool_decide_eq_false_1 in H
         end.
  done.
Qed.

(** ** Wallet rows and deposits *)

Lemma filter_user_nil ws u :
  u ∉ (w_user_id <$> ws) → filter (λ w, w_user_id w = u) ws = [].
Proof.
  induction ws as [|w ws IH]; [done|]. rewrite fmap_cons, not_elem_of_cons.
  intros [Hne Hnin]. rewrite filter_cons. destruct (decide (w_user_id w = u)); [done|].
  by apply IH.
Qed.

Lemma select_balance_elem u d b rest :
  select_balance u d = b :: rest → u ∈ w_user_id <$> wallets d.
Proof.
  unfold select_balance. intros H.
  destruct (decide (u ∈ w_user_id <$> wallets d)) as [|Hn]; [done|].
  by rewrite (filter_user_nil _ _ Hn) in H.
Qed.

Lemma select_balance_singleton u d :
  NoDup (w_user_id <$> wallets d) → u ∈ (w_user_id <$> wallets d) →
  ∃ b, select_balance u d = [b].
Proof.
  unfold select_balance. generalize (wallets d). intros ws.
  induction ws as [|w ws IH]; [by intros _ ?%elem_of_nil|].
  rewrite fmap_cons, NoDup_cons. intros [Hw Hnd] Hin. rewrite filter_cons.
  destruct (decide (w_user_id w = u)) as [<-|Hne].
  - rewrite (filter_user_nil _ _ Hw). by eexists.
  - apply elem_of_cons in Hin as [?|Hin]; [done|]. by apply IH.
Qed.

Lemma select_balance_at_most_one u d b rest :
  NoDup (w_user_id <$> wallets d) → select_balance u d = b :: rest → rest = [].
Proof.
  intros Hnd H. pose proof (select_balance_elem _ _ _ _ H) as Hin.
  destruct (select_balance_singleton u d Hnd Hin) as [b' Hb]. congruence.
Qed.

Lemma update_rows_owners delta uid ws ws' :
  Forall2 (λ w w', update_wallet_row delta uid w = inr w') ws ws' →
  w_user_id <$> ws' = w_user_id <$> ws.
Proof.
  induction 1 as [|w w' ws ws' Hw _ IH]; [done|].
  apply update_wallet_row_inv in Hw as (Hid & _). rewrite !fmap_cons. congruence.
Qed.

Lemma update_rows_select delta uid ws ws' u :
  Forall2 (λ w w', update_wallet_row delta uid w = inr w') ws ws' →
  w_balance <$> filter (λ w, w_user_id w = u) ws'
  = (λ b, if decide (u = uid) then add_numeric_2 b delta else b)
      <$> (w_balance <$> filter (λ w, w_user_id w = u) ws).
Proof.
  induction 1 as [|w w' ws ws' Hw _ IH]; [done|].
  apply update_wallet_row_inv in Hw as (Hid & Hyes & Hno).
  rewrite !filter_cons, Hid.
  destruct (decide (w_user_id w = u)) as [Hu|Hu]; [|done].
  rewrite !fmap_cons, IH. f_equal.
  destruct (decide (u = uid)) as [->|Hne].
  - by destruct (Hyes Hu) as [-> _].
  - rewrite Hno; [done|congruence].
Qed.

Lemma update_balance_select delta uid d d' rows u :
  update_balance delta uid d = inr (d', rows) →
  select_balance u d'
  = (λ b, if decide (u = uid) then add_numeric_2 b delta else b) <$> select_balance u d.
Proof.
  intros (_ & _ & H & _)%update_balance_inv. apply update_wallet_rows_inv in H.
  by apply update_rows_select.
Qed.

Lemma sum_snoc (l : list Z) x : foldr Z.add 0 (l ++ [x]) = foldr Z.add 0 l + x.
Proof. induction l as [|y l IH]; simpl; lia. Qed.

Lemma deposited_same u d d' : transactions d' = transactions d → deposited u d' = deposited u d.
Proof. unfold deposited, deposits_of. by intros ->. Qed.

Lemma deposited_snoc u d d' t :
  transactions d' = transactions d ++ [t] →
  deposited u d'
  = deposited u d
    + (if decide (t_transaction_type t = add_money ∧ t_sender_id t = Some u)
       then t_amount t else 0).
Proof.
  unfold deposited, deposits_of. intros ->. rewrite filter_app, fmap_app.
  rewrite filter_cons, filter_nil. case_decide; simpl.
  - by rewrite sum_snoc.
  - rewrite app_nil_r. lia.
Qed.

Lemma deposited_none u d :
  (∀ t, t ∈ transactions d → t_sender_id t ≠ Some u) → deposited u d = 0.
Proof.
  unfold deposited, deposits_of. intros H.
  assert (filter (λ t, t_transaction_type t = add_money ∧ t_sender_id t = Some u)
            (transactions d) = []) as ->; [|done].
  induction (transactions d) as [|t ts IH]; [done|].
  rewrite filter_cons. case_decide as Hc.
  - destruct Hc as [_ Hs]. exfalso. by apply (H t); [left|].
  - apply IH. intros t' Ht'. apply H. by right.
Qed.

(** ** Outcomes of registration and of a balance read *)

(** The answers of a registration: 409 before anything is written; 500 with
    nothing written; or user and wallet committed, and then 201 with the
    token, or 500 when [jwt.sign] throws. *)
Lemma post_register_cases env email password name phone s :
  let x := serve (post_register env email password name phone) s in
  let u := mkUser (uuid env 0) email (bcrypt_hash env password) name phone true in
  (response_of x = inr (Failure 409 "User with this email or phone already exists")
   ∧ store_of x = s
   ∧ select_user_by_email_or_phone email phone (st_ledger s) ≠ []
   ∧ log_of x = [EvQuery SelectUserByEmailOrPhone])
  ∨ (response_of x = inr (Failure 500 "Registration failed") ∧ store_of x = s)
  ∨ (∃ u' d1 d2,
       select_user_by_email_or_phone email phone (st_ledger s) = []
       ∧ insert_user u (st_ledger s) = inr (d1, u')
       ∧ insert_wallet (uuid env 0) 0 d1 = inr (d2, tt)
       ∧ store_of x = mkStore d2 (st_redis s)
       ∧ EvQuery Commit ∈ log_of x
       ∧ response_of x
         = inr match jwt_sign env (uuid env 0) (u_email u') with
               | Some token =>
                   Success 201
                     (RegisterData token (uuid env 0) (u_email u') (u_name u') (u_phone u'))
               | None => Failure 500 "Registration failed"
               end).
Proof.
  destruct s as [d r]. run_handler.
  all: try (right; left; done).
  all: try (left; split; [done|]; split; [done|]; split; [congruence|done]).
  all: right; right;
    match goal with H : insert_user _ _ = inr (_, ?u) |- _ =>
      pose proof (insert_user_inv _ _ _ _ H) as (Hc & _);
      apply users_columns_inv in Hc as (Hid & _); simpl in Hid; exists u end;
    match goal with H : insert_wallet _ _ _ = inr (_, ?r) |- _ => destruct r end;
    rewrite Hid in *; eexists _, _; split; [done|]; split; [done|]; split; [done|];
    split; [done|]; split; [by repeat constructor|];
    match goal with H : jwt_sign _ _ _ = _ |- _ => by rewrite H end.
Qed.

Lemma get_balance_cases env user_id s :
  let x := serve (get_balance env user_id) s in
  st_ledger (store_of x) = st_ledger s
  ∧ (st_redis (store_of x) = st_redis s
     ∨ ∃ b rest, select_balance user_id (st_ledger s) = b :: rest
                 ∧ st_redis (store_of x)
                   = <[balance_key user_id := mkCacheEntry b (now env + 300)]> (st_redis s)).
Proof. destruct s as [d r]. run_handler; split; eauto. Qed.

(** ** The stores stay consistent *)

Lemma deposit_row_users d d' t :
  users d ⊆ users d' → deposit_row d t → deposit_row d' t.
Proof.
  intros Hsub (H1 & H2 & H3 & (u & Hu & Hin) & H5 & H6 & H7).
  repeat split; try done. exists u. split; [done|].
  apply list_elem_of_fmap in Hin as (x & -> & Hx). apply list_elem_of_fmap. eauto.
Qed.

Lemma ledger_consistent_empty : ledger_consistent empty_db.
Proof. repeat split; simpl; constructor. Qed.

Lemma ledger_consistent_register d d1 d2 u u' :
  ledger_consistent d →
  u_is_active u = true →
  insert_user u d = inr (d1, u') →
  insert_wallet (u_id u) 0 d1 = inr (d2, tt) →
  ledger_consistent d2.
Proof.
  intros (Hnn & (Hid & Hem & Hph & Hact & Hwu & Htid & Href) & Hrows & Hbal) Hactive Hu Hw.
  pose proof (insert_user_checks _ _ _ _ Hu) as (Hfid & Hfem & Hfph).
  apply insert_user_inv in Hu as (Hc & Hu1 & Hw1 & Ht1).
  apply users_columns_inv in Hc as (Hid' & Hact' & _).
  apply insert_wallet_inv in Hw as (Hu2 & Ht2 & Hw2 & _).
  assert (Hnew : ∀ t, t ∈ transactions d → t_sender_id t ≠ Some (u_id u)).
  { intros t Ht Hs. rewrite Forall_forall in Hrows.
    destruct (Hrows t Ht) as (_ & _ & _ & (x & Hx & Hin) & _). congruence. }
  split; [|split; [|split]].
  - unfold nonneg_balances in *. rewrite Hw2, Hw1.
    apply Forall_app. split; [done|]. by repeat constructor.
  - unfold keys_consistent. rewrite Hu2, Hu1, Hw2, Hw1, Ht2, Ht1, !fmap_app. simpl.
    rewrite Hid'. split; [|split; [|split; [|split; [|split; [|split]]]]]; try done.
    + apply NoDup_app. split; [done|]. split; [|apply NoDup_singleton].
      intros x Hx ->%list_elem_of_singleton. congruence.
    + apply NoDup_app. split; [done|]. split; [|apply NoDup_singleton].
      intros x Hx ->%list_elem_of_singleton. done.
    + apply NoDup_app. split; [done|]. split; [|apply NoDup_singleton].
      intros x Hx ->%list_elem_of_singleton. done.
    + apply Forall_app. split; [done|]. apply Forall_singleton. congruence.
    + by rewrite Hwu.
  - rewrite Ht2, Ht1. eapply Forall_impl; [exact Hrows|].
    intros t. apply deposit_row_users. rewrite Hu2, Hu1. set_solver.
  - unfold balances_match_deposits in *. rewrite Hw2, Hw1.
    apply Forall_app. split.
    + eapply Forall_impl; [exact Hbal|]. intros w ->. symmetry.
      apply deposited_same. congruence.
    + repeat constructor. simpl. symmetry. apply deposited_none.
      intros t Ht. apply Hnew. by rewrite Ht2, Ht1 in Ht.
Qed.

Lemma ledger_consistent_add_money d d1 d2 t id userId amount rows :
  ledger_consistent d →
  t_transaction_type t = add_money → t_status t = completed →
  t_sender_id t = Some userId → t_recipient_id t = None →
  t_amount t = to_numeric_2 amount →
  is_Some (t_payment_method t) → is_Some (t_reference_id t) →
  insert_transaction t d = inr (d1, id) →
  update_balance amount userId d1 = inr (d2, rows) →
  ledger_consistent d2.
Proof.
  intros (Hnn & (Hid & Hem & Hph & Hact & Hwu & Htid & Href) & Hrows & Hbal)
    Hty Hst Hsd Hrc Ham Hpm Hrf Hins Hupd.
  pose proof (insert_transaction_checks _ _ _ _ Hins) as (Hpos & _ & Hsender & _).
  apply insert_transaction_inv in Hins as (t' & Hc & Hu1 & Hw1 & Ht1 & _ & Hfid & Hfref).
  apply transactions_columns_inv in Hc
    as (Hid' & Hs' & Hr' & Ha' & Hty' & Hst' & _ & Hpm' & _ & Hrf' & _).
  pose proof (update_balance_inv _ _ _ _ _ Hupd) as (Hu2 & Ht2 & Hrowsupd & _).
  apply update_wallet_rows_inv in Hrowsupd.
  pose proof (update_rows_owners _ _ _ _ Hrowsupd) as Hown.
  split; [|split; [|split]].
  - eapply update_balance_nonneg; [done|]. unfold nonneg_balances. by rewrite Hw1.
  - unfold keys_consistent. rewrite Hu2, Hu1, Ht2, Ht1, Hown, Hw1, !fmap_app. simpl.
    split; [|split; [|split; [|split; [|split; [|split]]]]]; try done.
    + apply NoDup_app. split; [done|]. split; [|apply NoDup_singleton].
      intros x Hx ->%list_elem_of_singleton. by rewrite Hid' in Hx.
    + apply NoDup_app. split; [done|]. split; [|apply NoDup_singleton].
      intros x Hx ->%list_elem_of_singleton. apply Hfref; [|done].
      by apply (nullable_is_Some _ _ _ Hrf').
  - rewrite Ht2, Ht1. apply Forall_app. split.
    + eapply Forall_impl; [exact Hrows|]. intros t0. apply deposit_row_users.
      by rewrite Hu2, Hu1.
    + apply Forall_singleton. unfold deposit_row.
      rewrite Hty', Hst', Ha', Hs', Hr'.
      split; [done|]. split; [done|]. split; [done|]. split.
      { exists userId. split; [done|]. rewrite Hu2, Hu1. by apply Hsender. }
      split; [done|]. split.
      * by apply (nullable_is_Some _ _ _ Hpm').
      * by apply (nullable_is_Some _ _ _ Hrf').
  - unfold balances_match_deposits in *. rewrite Hw1 in Hrowsupd.
    apply (Forall2_Forall_r _ _ _ _ Hrowsupd).
    unfold nonneg_balances in Hnn.
    rewrite Forall_forall in Hbal, Hnn |- *. intros w Hin w' Hupdw.
    pose proof (Hbal w Hin) as Hw. pose proof (Hnn w Hin) as Hw0. simpl in Hw0.
    apply update_wallet_row_inv in Hupdw as (Hidw & Hyes & Hno).
    rewrite (deposited_same _ d1 d2 Ht2).
    rewrite (deposited_snoc _ d d1 _ Ht1). simpl.
    rewrite Hidw, Hty', Hs', Hsd, Ha'.
    destruct (decide (w_user_id w = userId)) as [Heq|Hne].
    + destruct (Hyes Heq) as [-> _]. rewrite Heq, decide_True by done.
      rewrite add_numeric_2_deposit by (done || lia). rewrite Hw, Heq. lia.
    + rewrite (Hno Hne), Hw. rewrite decide_False; [lia|]. intros [_ [=]]. done.
Qed.

Lemma ledger_consistent_next env q s :
  ledger_consistent (st_ledger s) → ledger_consistent (st_ledger (next env q s)).
Proof.
  intros Hinv. unfold next. destruct q as [e p n ph|u|u a pm|u r a nt|u qp ql ty|u i]; simpl.
  - destruct (post_register_cases env e p n ph s)
      as [(_ & -> & _)|[(_ & ->)|(u' & d1 & d2 & _ & Hu & Hw & -> & _)]]; [done..|].
    simpl.
    eapply (ledger_consistent_register _ _ _
              (mkUser (uuid env 0) e (bcrypt_hash env p) n ph true));
      [exact Hinv|done|exact Hu|exact Hw].
  - by rewrite get_balance_ledger.
  - destruct (post_add_money_outcome env u a pm s)
      as [(_ & ->)|(d1 & d2 & b & rest & Hins & Hupd & _ & _ & Hout)]; [done|].
    assert (st_ledger (store_of (serve (post_add_money env u a pm) s)) = d2) as ->.
    { by destruct Hout as [(_ & _ & ->)|(_ & _ & ->)]. }
    eapply (ledger_consistent_add_money _ _ _ _ _ u a); [done| | | | | | | |done|done];
      simpl; by eauto.
  - by rewrite post_send_money_store.
  - by rewrite get_transactions_store.
  - by rewrite get_transaction_by_id_store.
Qed.

Lemma reachable_ledger_consistent s : reachable s → ledger_consistent (st_ledger s).
Proof.
  induction 1 as [|env q s _ IH]; [apply ledger_consistent_empty|].
  by apply ledger_consistent_next.
Qed.

Lemma cache_coherent_empty : cache_coherent empty_store.
Proof. intros key e H. unfold empty_store in H. simpl in H. by rewrite lookup_empty in H. Qed.

(** The cache stays coherent as long as every invalidation goes through. *)
Lemma cache_coherent_next env q s :
  invalidations_succeed env →
  ledger_consistent (st_ledger s) → cache_coherent s → cache_coherent (next env q s).
Proof.
  intros Hdel Hinv Hcache.
  destruct Hinv as (Hnn & (Hid & Hem & Hph & Hact & Hwu & Htid & Href) & Hrows & Hbal).
  unfold next. destruct q as [e p n ph|u|u a pm|u r a nt|u qp ql ty|u i]; simpl.
  - destruct (post_register_cases env e p n ph s)
      as [(_ & -> & _)|[(_ & ->)|(u' & d1 & d2 & _ & Hu & Hw & -> & _)]]; [done..|].
    pose proof (insert_user_checks _ _ _ _ Hu) as (Hfid & _).
    apply insert_user_inv in Hu as (Hc & Hu1 & Hw1 & Ht1).
    apply users_columns_inv in Hc as (Hid' & _). simpl in Hid'.
    apply insert_wallet_inv in Hw as (Hu2 & Ht2 & Hw2 & _).
    intros key c Hk. simpl in *. destruct (Hcache key c Hk) as (u & -> & Hsel).
    exists u. split; [done|]. unfold select_balance in *. rewrite Hw2, Hw1.
    rewrite filter_app, fmap_app, Hsel. rewrite filter_cons, filter_nil. simpl.
    destruct (decide (uuid env 0 = u)) as [<-|]; [|done].
    exfalso. apply Hfid. rewrite Hid', <- Hwu. by eapply select_balance_elem.
  - destruct (get_balance_cases env u s) as [Hl Hr].
    intros key c Hk. rewrite Hl.
    destruct Hr as [Hr|(b & rest & Hsel & Hr)]; rewrite Hr in Hk; [by apply Hcache|].
    apply lookup_insert_Some in Hk as [[<- <-]|[_ Hk]]; [|by apply Hcache].
    exists u. split; [done|]. simpl.
    rewrite <- Hwu in Hid. by rewrite (select_balance_at_most_one _ _ _ _ Hid Hsel) in Hsel.
  - destruct (post_add_money_outcome env u a pm s)
      as [(_ & ->)|(d1 & d2 & b & rest & Hins & Hupd & _ & _ & Hout)]; [done|].
    destruct Hout as [(_ & _ & ->)|(Hbad & _)]; [|by rewrite Hdel in Hbad].
    apply insert_transaction_inv in Hins as (t' & _ & _ & Hw1 & _).
    intros key c Hk. simpl in Hk. apply lookup_delete_Some in Hk as [Hne Hk].
    destruct (Hcache key c Hk) as (u0 & -> & Hsel). exists u0. split; [done|]. simpl.
    rewrite (update_balance_select _ _ _ _ _ u0 Hupd).
    assert (select_balance u0 d1 = select_balance u0 (st_ledger s)) as ->.
    { unfold select_balance. by rewrite Hw1. }
    rewrite Hsel. simpl. rewrite decide_False; [done|]. by intros ->.
  - by rewrite post_send_money_store.
  - by rewrite get_transactions_store.
  - by rewrite get_transaction_by_id_store.
Qed.

Lemma reachable_store_invariant s :
  reachable_when invalidations_succeed s → store_invariant s.
Proof.
  induction 1 as [|env q s Hok Hreach [IH1 IH2]].
  - split; [apply ledger_consistent_empty|apply cache_coherent_empty].
  - split; [by apply ledger_consistent_next|by apply cache_coherent_next].
Qed.

(** ** Registered users and their wallets *)

(** X1. In every reachable store users and wallets pair off: the wallet
    rows name the users in the order of registration, no user id occurs
    twice, and so the balance query returns exactly one row for a registered
    user and none for anyone else. *)
Theorem one_wallet_per_user s u :
  reachable s →
  w_user_id <$> wallets (st_ledger s) = u_id <$> users (st_ledger s)
  ∧ NoDup (u_id <$> users (st_ledger s))
  ∧ (u ∈ (u_id <$> users (st_ledger s)) ↔ ∃ b, select_balance u (st_ledger s) = [b])
  ∧ (u ∉ (u_id <$> users (st_ledger s)) ↔ select_balance u (st_ledger s) = []).
Proof.
  intros (_ & (Hid & _ & _ & _ & Hwu & _) & _)%reachable_ledger_consistent.
  split; [done|]. split; [done|].
  assert (Hyes : u ∈ (u_id <$> users (st_ledger s)) →
                 ∃ b, select_balance u (st_ledger s) = [b]).
  { intros Hin. apply select_balance_singleton; by rewrite Hwu. }
  assert (Hno : u ∉ (u_id <$> users (st_ledger s)) → select_balance u (st_ledger s) = []).
  { intros Hn. unfold select_balance. rewrite filter_user_nil; [done|]. by rewrite Hwu. }
  split; split.
  - exact Hyes.
  - intros [b Hb]. rewrite <- Hwu. by eapply select_balance_elem.
  - exact Hno.
  - intros Hnil Hin. destruct (Hyes Hin) as [b Hb]. congruence.
Qed.

Lemma one_wallet_per_user_witness :
  select_balance Examples.ravi (st_ledger Examples.funded) = [0]
  ∧ select_balance Examples.nobody (st_ledger Examples.funded) = [].
Proof.
  split.
  - by vm_compute.
  - apply (one_wallet_per_user Examples.funded Examples.nobody funded_reachable).
    rewrite funded_ledger. simpl. apply (bool_decide_unpack _). by vm_compute.
Defined.

(** X2. The keys of the schema hold in every reachable ledger: e-mail
    addresses and phone numbers are not shared between users, every user is
    active, and neither a transaction id nor a reference id occurs twice. *)
Theorem keys_stay_unique s :
  reachable s →
  NoDup (u_email <$> users (st_ledger s))
  ∧ NoDup (u_phone <$> users (st_ledger s))
  ∧ Forall (λ u, u_is_active u = true) (users (st_ledger s))
  ∧ NoDup (t_id <$> transactions (st_ledger s))
  ∧ NoDup (t_reference_id <$> transactions (st_ledger s)).
Proof.
  intros (_ & (_ & Hem & Hph & Hact & _ & Htid & Href) & _)%reachable_ledger_consistent.
  done.
Qed.

Lemma keys_stay_unique_witness :
  NoDup (u_email <$> users (st_ledger Fifteen.store))
  ∧ NoDup (t_reference_id <$> transactions (st_ledger Fifteen.store)).
Proof.
  destruct (keys_stay_unique Fifteen.store fifteen_reachable) as (H1 & _ & _ & _ & H5).
  split; [exact H1|exact H5].
Defined.

(** X3. In every reachable ledger each row of [transactions] is a completed
    deposit of a positive amount by a registered user, and each wallet holds
    exactly the sum of the deposits recorded for its user. *)
Theorem balance_is_sum_of_deposits s :
  reachable s →
  Forall (deposit_row (st_ledger s)) (transactions (st_ledger s))
  ∧ (∀ w, w ∈ wallets (st_ledger s) → w_balance w = deposited (w_user_id w) (st_ledger s))
  ∧ (∀ u b, select_balance u (st_ledger s) = [b] → b = deposited u (st_ledger s)).
Proof.
  intros (_ & _ & Hrows & Hbal)%reachable_ledger_consistent.
  unfold balances_match_deposits in Hbal. rewrite Forall_forall in Hbal.
  split; [done|]. split; [done|].
  intros u b Hsel. unfold select_balance in Hsel.
  destruct (filter _ _) as [|w ws] eqn:E; [done|]. simpl in Hsel. simplify_eq.
  assert (w ∈ filter (λ w, w_user_id w = u) (wallets (st_ledger s))) as Hin
    by (rewrite E; left).
  apply list_elem_of_filter in Hin as [<- Hin]. by apply Hbal.
Qed.

Lemma balance_is_sum_of_deposits_witness :
  select_balance Examples.asha (st_ledger Fifteen.store) = [1500]
  ∧ deposited Examples.asha (st_ledger Fifteen.store) = 1500.
Proof.
  assert (H : select_balance Examples.asha (st_ledger Fifteen.store) = [1500])
    by (by vm_compute).
  split; [exact H|].
  destruct (balance_is_sum_of_deposits Fifteen.store fifteen_reachable) as (_ & _ & Hb).
  symmetry. by apply Hb.
Defined.

(** X4. With requests served one at a time and no cache invalidation
    failing, a balance read is never stale: in every store reachable that
    way, whatever [GET /balance] answers with a success, from the cache or
    not, is the balance the ledger holds for that user. *)
Theorem balance_read_is_current env user_id s code b t cached :
  reachable_when invalidations_succeed s →
  response_of (serve (get_balance env user_id) s)
  = inr (Success code (BalanceData b t cached)) →
  select_balance user_id (st_ledger s) = [b].
Proof.
  intros ((_ & (Hid & _ & _ & _ & Hwu & _) & _) & Hcache)%reachable_store_invariant.
  destruct s as [d r]. unfold cache_coherent in Hcache. simpl in *.
  unfold_handler. simpl. unfold redis_lookup.
  destruct (r !! balance_key user_id) as [e|] eqn:E.
  - case_bool_decide.
    + intros [= _ <- _ _]. destruct (Hcache _ _ E) as (u & Hkey & Hsel).
      unfold balance_key in Hkey. simpl in Hkey. simplify_eq. done.
    + destruct (fault env (SelectBalance user_id)); simpl; [done|].
      destruct (select_balance user_id d) as [|b0 rest] eqn:Hsel; simpl; [done|].
      intros [= _ <- _ _]. rewrite <- Hwu in Hid.
      by rewrite (select_balance_at_most_one _ _ _ _ Hid Hsel).
  - destruct (fault env (SelectBalance user_id)); simpl; [done|].
    destruct (select_balance user_id d) as [|b0 rest] eqn:Hsel; simpl; [done|].
    intros [= _ <- _ _]. rewrite <- Hwu in Hid.
    by rewrite (select_balance_at_most_one _ _ _ _ Hid Hsel).
Qed.

Lemma funded_reachable_quietly : reachable_when invalidations_succeed Examples.funded.
Proof. repeat (apply reachable_when_step; [done|]). apply reachable_when_init. Qed.

Lemma balance_read_is_current_witness :
  select_balance Examples.asha
    (st_ledger (next Transfer.env (GetBalance Examples.asha) Examples.funded)) = [10000].
Proof.
  apply (balance_read_is_current Transfer.env Examples.asha _ 200 10000 4 true).
  - apply reachable_when_step; [done|]. apply funded_reachable_quietly.
  - by vm_compute.
Defined.

(** ** Deposits *)

(** What a deposit does to the stores. *)
Lemma post_add_money_effect env userId amount paymentMethod s :
  (response_of (serve (post_add_money env userId amount paymentMethod) s)
   = inr (Failure 500 "Failed to add money")
   ∧ store_of (serve (post_add_money env userId amount paymentMethod) s) = s)
  ∨ (∃ b rest row,
       select_balance userId (st_ledger s) = b :: rest
       ∧ EvQuery Commit ∈ log_of (serve (post_add_money env userId amount paymentMethod) s)
       ∧ users (st_ledger (store_of (serve (post_add_money env userId amount paymentMethod) s)))
         = users (st_ledger s)
       ∧ transactions
           (st_ledger (store_of (serve (post_add_money env userId amount paymentMethod) s)))
         = transactions (st_ledger s) ++ [row]
       ∧ t_id row = uuid env 0 ∧ t_transaction_type row = add_money
       ∧ t_status row = completed
       ∧ t_sender_id row = Some userId ∧ t_recipient_id row = None
       ∧ t_amount row = to_numeric_2 amount ∧ 0 < t_amount row
       ∧ t_created_at row = now env
       ∧ (∀ u, select_balance u
                 (st_ledger (store_of (serve (post_add_money env userId amount paymentMethod) s)))
               = (λ v, if decide (u = userId) then add_numeric_2 v amount else v)
                   <$> select_balance u (st_ledger s))
       ∧ (0 ≤ b → add_numeric_2 b amount = b + to_numeric_2 amount)
       ∧ ((del_fault env (balance_key userId) = false
           ∧ response_of (serve (post_add_money env userId amount paymentMethod) s)
             = inr (Success 200
                      (AddMoneyData (uuid env 0) amount (add_numeric_2 b amount) paymentMethod
                         ("ADD_" +:+ stamp env)))
           ∧ st_redis (store_of (serve (post_add_money env userId amount paymentMethod) s))
             = delete (balance_key userId) (st_redis s))
          ∨ (del_fault env (balance_key userId) = true
             ∧ response_of (serve (post_add_money env userId amount paymentMethod) s)
               = inr (Failure 500 "Failed to add money")
             ∧ st_redis (store_of (serve (post_add_money env userId amount paymentMethod) s))
               = st_redis s))).
Proof.
  destruct (post_add_money_outcome env userId amount paymentMethod s)
    as [H|(d1 & d2 & nb & rest & Hins & Hupd & _ & Hcommit & Hout)]; [by left|right].
  pose proof (insert_transaction_checks _ _ _ _ Hins) as (Hpos & _).
  pose proof (insert_transaction_inv _ _ _ _ Hins) as (row & Hc & Hu1 & Hw1 & Ht1 & _).
  apply transactions_columns_inv in Hc
    as (Hid & Hs & Hr & Ha & Hty & Hst & Hcr & _). simpl in *.
  pose proof (update_balance_inv _ _ _ _ _ Hupd) as (Hu2 & Ht2 & _ & Hrows).
  assert (Hsel : ∀ u, select_balance u d2
                      = (λ v, if decide (u = userId) then add_numeric_2 v amount else v)
                          <$> select_balance u (st_ledger s)).
  { intros u. rewrite (update_balance_select _ _ _ _ _ u Hupd).
    unfold select_balance. by rewrite Hw1. }
  rewrite (Hsel userId) in Hrows.
  destruct (select_balance userId (st_ledger s)) as [|b rest0] eqn:E; [done|].
  simpl in Hrows. rewrite decide_True in Hrows by done. simplify_eq.
  assert (Hledger : st_ledger (store_of (serve (post_add_money env userId amount paymentMethod) s))
                    = d2).
  { by destruct Hout as [(_ & _ & ->)|(_ & _ & ->)]. }
  exists b, rest0, row. rewrite Hledger.
  split; [done|]. split; [done|]. split; [congruence|]. split; [congruence|].
  split; [done|]. split; [done|]. split; [done|]. split; [done|]. split; [done|].
  split; [done|]. split; [by rewrite Ha|]. split; [done|]. split; [done|]. split.
  { intros Hb. by apply add_numeric_2_deposit. }
  destruct Hout as [(Hd & Hr' & ->)|(Hd & Hr' & ->)]; [left|right]; done.
Qed.

(** X5. A deposit changes the ledger all or nothing. Either it is answered
    500 and ledger and cache are as before, or it was committed: one
    [add_money] row was appended, holding the amount as the column rounds
    it, the wallet of the user (and no other) took the amount, and the users
    are untouched. A committed deposit is answered 200, with the new balance
    and with the cached balance of the user dropped, unless that
    invalidation fails: then it is answered 500 all the same, and the cached
    balance stays. *)
Theorem deposit_all_or_nothing env userId amount paymentMethod s :
  (response_of (serve (post_add_money env userId amount paymentMethod) s)
   = inr (Failure 500 "Failed to add money")
   ∧ store_of (serve (post_add_money env userId amount paymentMethod) s) = s)
  ∨ (∃ b rest row,
       select_balance userId (st_ledger s) = b :: rest
       ∧ EvQuery Commit ∈ log_of (serve (post_add_money env userId amount paymentMethod) s)
       ∧ users (st_ledger (store_of (serve (post_add_money env userId amount paymentMethod) s)))
         = users (st_ledger s)
       ∧ transactions
           (st_ledger (store_of (serve (post_add_money env userId amount paymentMethod) s)))
         = transactions (st_ledger s) ++ [row]
       ∧ t_id row = uuid env 0 ∧ t_transaction_type row = add_money
       ∧ t_status row = completed
       ∧ t_sender_id row = Some userId ∧ t_recipient_id row = None
       ∧ t_amount row = to_numeric_2 amount ∧ 0 < t_amount row
       ∧ t_created_at row = now env
       ∧ (∀ u, select_balance u
                 (st_ledger (store_of (serve (post_add_money env userId amount paymentMethod) s)))
               = (λ v, if decide (u = userId) then add_numeric_2 v amount else v)
                   <$> select_balance u (st_ledger s))
       ∧ (0 ≤ b → add_numeric_2 b amount = b + to_numeric_2 amount)
       ∧ ((del_fault env (balance_key userId) = false
           ∧ response_of (serve (post_add_money env userId amount paymentMethod) s)
             = inr (Success 200
                      (AddMoneyData (uuid env 0) amount (add_numeric_2 b amount) paymentMethod
                         ("ADD_" +:+ stamp env)))
           ∧ st_redis (store_of (serve (post_add_money env userId amount paymentMethod) s))
             = delete (balance_key userId) (st_redis s))
          ∨ (del_fault env (balance_key userId) = true
             ∧ response_of (serve (post_add_money env userId amount paymentMethod) s)
               = inr (Failure 500 "Failed to add money")
             ∧ st_redis (store_of (serve (post_add_money env userId amount paymentMethod) s))
               = st_redis s))).
Proof. apply post_add_money_effect. Qed.

Lemma deposit_all_or_nothing_witness :
  ∃ row,
    response_of (serve (post_add_money Stale.env Examples.asha (mkDecimal 10005 3) "Card")
                   Stale.cached)
    = inr (Failure 500 "Failed to add money")
    ∧ transactions (st_ledger (store_of (serve (post_add_money Stale.env Examples.asha
                                                  (mkDecimal 10005 3) "Card") Stale.cached)))
      = transactions (st_ledger Stale.cached) ++ [row]
    ∧ t_amount row = 1001
    ∧ select_balance Examples.asha
        (st_ledger (store_of (serve (post_add_money Stale.env Examples.asha
                                       (mkDecimal 10005 3) "Card") Stale.cached)))
      = [11001]
    ∧ redis_lookup 5 (balance_key Examples.asha)
        (st_redis (store_of (serve (post_add_money Stale.env Examples.asha
                                      (mkDecimal 10005 3) "Card") Stale.cached)))
      = Some 10000.
Proof.
  destruct (deposit_all_or_nothing Stale.env Examples.asha (mkDecimal 10005 3) "Card"
              Stale.cached)
    as [[_ Hsame]|(b & rest & row & _ & _ & _ & Hrows & _ & _ & _ & _ & _ & Ha & _)].
  - exfalso. revert Hsame. vm_compute. discriminate.
  - exists row. split; [by vm_compute|]. split; [exact Hrows|]. split.
    + rewrite Ha. by vm_compute.
    + split; by vm_compute.
Defined.

Lemma update_wallet_rows_ok delta uid ws :
  Forall (λ w, w_user_id w = uid →
               0 ≤ add_numeric_2 (w_balance w) delta
               ∧ add_numeric_2 (w_balance w) delta < 10 ^ 15) ws →
  ∃ ws', update_wallet_rows delta uid ws = inr ws'.
Proof.
  induction 1 as [|w ws Hw _ [ws' IH]]; simpl; [by eexists|].
  unfold update_wallet_row, numeric_15_2, wallets_balance_check.
  case_bool_decide as Hu.
  - destruct (Hw Hu) as [H0 H1].
    rewrite (bool_decide_eq_true_2 (Z.abs _ < _)) by lia.
    rewrite (bool_decide_eq_true_2 (0 ≤ _)) by lia. simpl. rewrite IH. by eexists.
  - rewrite IH. by eexists.
Qed.

Lemma insert_transaction_ok t d :
  transactions_columns t = inr t →
  t_id t ∉ (t_id <$> transactions d) →
  0 < t_amount t →
  t_reference_id t ∉ (t_reference_id <$> transactions d) →
  references_users (t_sender_id t) d = true →
  references_users (t_recipient_id t) d = true →
  insert_transaction t d
  = inr (mkDb (users d) (wallets d) (transactions d ++ [t]), t_id t).
Proof.
  intros Hc Hid Hpos Href Hs Hr. unfold insert_transaction, and_then,
    transactions_amount_check. rewrite Hc.
  rewrite (bool_decide_eq_false_2 (t_id t ∈ _)) by done.
  rewrite (bool_decide_eq_true_2 (0 < _)) by lia. simpl.
  rewrite bool_decide_eq_false_2 by tauto. by rewrite Hs, Hr.
Qed.

(** An amount the validator accepts is, rounded, between its bounds. *)
Lemma isFloat_to_numeric_2 lo hi a :
  0 < lo → isFloat lo hi a = true → lo * 100 ≤ to_numeric_2 a ≤ hi * 100.
Proof.
  intros Hlo H. unfold isFloat in H. apply bool_decide_eq_true_1 in H.
  unfold to_numeric_2, round_half_away.
  pose proof (pow10_pos (scale a)) as Hd. set (d := 10 ^ Z.of_nat (scale a)) in *.
  rewrite Z.sgn_pos by nia. rewrite Z.abs_eq by nia. rewrite Z.mul_1_l. split.
  - apply Z.div_le_lower_bound; nia.
  - assert ((2 * (mantissa a * 100) + d) / (2 * d) < hi * 100 + 1); [|lia].
    apply Z.div_lt_upper_bound; nia.
Qed.

Lemma payment_method_fits paymentMethod :
  paymentMethod ∈ ["UPI"; "Card"; "Net Banking"] →
  varchar 50 paymentMethod = inr paymentMethod.
Proof.
  intros H. repeat (apply elem_of_cons in H as [->|H]; [by vm_compute|]).
  by apply elem_of_nil in H.
Qed.

(** X6. A deposit goes through when nothing stands in its way: in a
    reachable store, for a registered user holding [b], an amount and a
    payment method the validator accepts, a generated id and a reference not
    yet in the ledger (the reference within the width of its column), a new
    balance within the column's range and no failure of the store, the
    deposit is committed and the wallet holds [b] plus the amount as the
    column rounds it. The answer is 200 with that balance and with the
    amount as it was sent; when the cache invalidation fails it is 500. *)
Theorem deposit_succeeds env userId amount paymentMethod s b :
  reachable s →
  select_balance userId (st_ledger s) = [b] →
  addMoneyValidation amount paymentMethod = true →
  b + to_numeric_2 amount < 10 ^ 15 →
  uuid env 0 ∉ (t_id <$> transactions (st_ledger s)) →
  varchar 100 ("ADD_" +:+ stamp env) = inr ("ADD_" +:+ stamp env) →
  Some ("ADD_" +:+ stamp env) ∉ (t_reference_id <$> transactions (st_ledger s)) →
  fault env Begin = false →
  fault env (InsertTransaction add_money) = false →
  fault env (UpdateBalance amount userId) = false →
  fault env Commit = false →
  100 ≤ to_numeric_2 amount ≤ 10000000
  ∧ select_balance userId
      (st_ledger (store_of (serve (post_add_money env userId amount paymentMethod) s)))
    = [b + to_numeric_2 amount]
  ∧ (del_fault env (balance_key userId) = false →
     response_of (serve (post_add_money env userId amount paymentMethod) s)
     = inr (Success 200
              (AddMoneyData (uuid env 0) amount (b + to_numeric_2 amount) paymentMethod
                 ("ADD_" +:+ stamp env))))
  ∧ (del_fault env (balance_key userId) = true →
     response_of (serve (post_add_money env userId amount paymentMethod) s)
     = inr (Failure 500 "Failed to add money")).
Proof.
  intros Hreach Hsel Hval Hmax Hid Hfit Href Hf1 Hf2 Hf3 Hf4.
  pose proof (reachable_ledger_consistent s Hreach)
    as (Hnn & (_ & _ & _ & _ & Hwu & _) & _).
  unfold addMoneyValidation in Hval. apply andb_true_iff in Hval as [Hamt Hpm].
  apply bool_decide_eq_true_1 in Hpm.
  pose proof (isFloat_to_numeric_2 1 100000 amount ltac:(lia) Hamt) as Hrange.
  assert (Hb : 0 ≤ b).
  { unfold nonneg_balances in Hnn. rewrite Forall_forall in Hnn.
    unfold select_balance in Hsel.
    destruct (filter _ _) as [|w ws] eqn:E; [done|]. simpl in Hsel. simplify_eq.
    apply (Hnn w).
    assert (w ∈ filter (λ w, w_user_id w = userId) (wallets (st_ledger s))) as Hin
      by (rewrite E; left).
    by apply list_elem_of_filter in Hin as [_ Hin]. }
  assert (Hadd : add_numeric_2 b amount = b + to_numeric_2 amount)
    by (apply add_numeric_2_deposit; lia).
  set (row := mkTransaction (uuid env 0) (Some userId) None (to_numeric_2 amount) add_money
                completed (Some paymentMethod) None (Some ("ADD_" +:+ stamp env)) (now env)).
  assert (Hins : insert_transaction row (st_ledger s)
                 = inr (mkDb (users (st_ledger s)) (wallets (st_ledger s))
                          (transactions (st_ledger s) ++ [row]), uuid env 0)).
  { apply (insert_transaction_ok row); simpl; try done; try lia.
    - unfold transactions_columns, and_then, numeric_15_2. simpl.
      rewrite (payment_method_fits _ Hpm), Hfit. simpl.
      by rewrite bool_decide_eq_true_2 by lia.
    - unfold user_exists. apply bool_decide_eq_true_2. rewrite <- Hwu.
      by eapply select_balance_elem. }
  destruct (update_wallet_rows_ok amount userId (wallets (st_ledger s))) as [ws' Hws].
  { rewrite Forall_forall. intros w Hw Hu.
    assert (w_balance w ∈ select_balance userId (st_ledger s)) as Hin.
    { unfold select_balance. apply list_elem_of_fmap. exists w. split; [done|].
      by apply list_elem_of_filter. }
    rewrite Hsel in Hin. apply list_elem_of_singleton in Hin. rewrite Hin, Hadd. lia. }
  assert (Hnew : w_balance <$> filter (λ w, w_user_id w = userId) ws'
                 = [b + to_numeric_2 amount]).
  { rewrite (update_rows_select amount userId (wallets (st_ledger s)) ws' userId)
      by by apply update_wallet_rows_inv.
    unfold select_balance in Hsel. rewrite Hsel. simpl. by rewrite decide_True, Hadd. }
  split; [lia|].
  destruct s as [d r]. simpl in *. unfold_handler. simpl.
  rewrite Hf1. simpl. rewrite Hf2. simpl. fold row. rewrite Hins. simpl.
  rewrite Hf3. simpl. unfold update_balance. simpl. rewrite Hws. simpl.
  unfold select_balance. simpl. rewrite Hnew. simpl. rewrite Hf4. simpl.
  destruct (del_fault env (balance_key userId)); simpl; by rewrite ?Hnew.
Qed.

Lemma deposit_succeeds_witness :
  response_of (serve (post_add_money Transfer.env Examples.asha (mkDecimal 10005 3) "Card")
                 Examples.funded)
  = inr (Success 200
           (AddMoneyData Examples.t2 (mkDecimal 10005 3) 11001 "Card"
              "ADD_1700000000500_p0o9i8u7y"))
  ∧ response_of (serve (post_add_money Stale.env Examples.asha (mkDecimal 10005 3) "Card")
                   Examples.funded)
    = inr (Failure 500 "Failed to add money")
  ∧ select_balance Examples.asha
      (st_ledger (store_of (serve (post_add_money Stale.env Examples.asha
                                     (mkDecimal 10005 3) "Card") Examples.funded)))
    = [11001].
Proof.
  assert (Hid : Examples.t2 ∉ (t_id <$> transactions (st_ledger Examples.funded))).
  { rewrite funded_ledger. apply (bool_decide_unpack _). by vm_compute. }
  assert (Href : Some "ADD_1700000000500_p0o9i8u7y"
                 ∉ (t_reference_id <$> transactions (st_ledger Examples.funded))).
  { rewrite funded_ledger. apply (bool_decide_unpack _). by vm_compute. }
  assert (Hsel : select_balance Examples.asha (st_ledger Examples.funded) = [10000])
    by (by vm_compute).
  destruct (deposit_succeeds Transfer.env Examples.asha (mkDecimal 10005 3) "Card"
              Examples.funded 10000 funded_reachable Hsel)
    as (_ & _ & Hok & _);
    [by vm_compute|by vm_compute|exact Hid|by vm_compute|exact Href|reflexivity..|].
  destruct (deposit_succeeds Stale.env Examples.asha (mkDecimal 10005 3) "Card"
              Examples.funded 10000 funded_reachable Hsel)
    as (_ & Hbal & _ & Hbad);
    [by vm_compute|by vm_compute|exact Hid|by vm_compute|exact Href|reflexivity..|].
  split; [by apply Hok|]. split; [by apply Hbad|exact Hbal].
Defined.

Lemma get_balance_miss env user_id s b rest :
  st_redis s !! balance_key user_id = None →
  fault env (SelectBalance user_id) = false →
  select_balance user_id (st_ledger s) = b :: rest →
  response_of (serve (get_balance env user_id) s)
  = inr (Success 200 (BalanceData b (now env) false)).
Proof.
  destruct s as [d r]. simpl. intros Hmiss Hf Hsel. unfold_handler. simpl.
  unfold redis_lookup. rewrite Hmiss, Hf. simpl. by rewrite Hsel.
Qed.

(** X7. A deposit is seen by the next balance read: after a deposit answered
    with a success, [GET /balance] for the same user finds no cached entry,
    reads the ledger and reports the balance the deposit reported, with
    [cached = false]. *)
Theorem deposit_then_balance env env' userId amount paymentMethod s id a newBalance pm ref :
  response_of (serve (post_add_money env userId amount paymentMethod) s)
  = inr (Success 200 (AddMoneyData id a newBalance pm ref)) →
  fault env' (SelectBalance userId) = false →
  response_of (serve (get_balance env' userId)
                 (store_of (serve (post_add_money env userId amount paymentMethod) s)))
  = inr (Success 200 (BalanceData newBalance (now env') false)).
Proof.
  intros Hok Hf.
  destruct (post_add_money_effect env userId amount paymentMethod s)
    as [[Hfail _]|(b & rest & row & Hsel & _ & _ & _ & _ & _ & _ & _ & _ & _ & _ & _
                   & Hbal & _ & Hout)];
    [congruence|].
  destruct Hout as [(_ & Hresp & Hredis)|(_ & Hresp & _)]; [|congruence].
  rewrite Hresp in Hok. injection Hok as <- <- <- <- <-.
  apply (get_balance_miss env' userId _ (add_numeric_2 b amount)
           ((λ v, if decide (userId = userId) then add_numeric_2 v amount else v) <$> rest)).
  - by rewrite Hredis, lookup_delete_eq.
  - done.
  - rewrite Hbal, Hsel. simpl. by rewrite decide_True.
Qed.

Lemma deposit_then_balance_witness :
  response_of (serve (get_balance Ties.env_first Examples.asha)
                 (store_of (serve (post_add_money Transfer.env Examples.asha
                                     (mkDecimal 10005 3) "Card") Examples.funded)))
  = inr (Success 200 (BalanceData 11001 9 false)).
Proof.
  apply (deposit_then_balance Transfer.env Ties.env_first Examples.asha (mkDecimal 10005 3)
           "Card" Examples.funded Examples.t2 (mkDecimal 10005 3) 11001 "Card"
           "ADD_1700000000500_p0o9i8u7y").
  - by vm_compute.
  - reflexivity.
Defined.

(** ** Registration *)

(** X8. A registration whose e-mail address or phone number belongs to a
    user already in the ledger is answered 409 after the one [SELECT]: no
    client is acquired, nothing is written, both stores are as before. *)
Theorem duplicate_registration_rejected env email password name phone s u :
  u ∈ users (st_ledger s) →
  u_email u = email ∨ u_phone u = phone →
  fault env SelectUserByEmailOrPhone = false →
  serve (post_register env email password name phone) s
  = (inr (Failure 409 "User with this email or phone already exists"), s,
     [EvQuery SelectUserByEmailOrPhone]).
Proof.
  intros Hin Hdup Hf. destruct s as [d r]. simpl in *. unfold_handler. simpl.
  rewrite Hf. simpl.
  destruct (select_user_by_email_or_phone email phone d) as [|u0 us] eqn:E; [|done].
  exfalso. assert (u ∈ select_user_by_email_or_phone email phone d) as Hu.
  { unfold select_user_by_email_or_phone. by apply list_elem_of_filter. }
  rewrite E in Hu. by apply elem_of_nil in Hu.
Qed.

Lemma duplicate_registration_rejected_witness :
  serve (post_register Transfer.env "asha@example.in" "another1" "A. N. Other" "9000000000")
    Examples.funded
  = (inr (Failure 409 "User with this email or phone already exists"), Examples.funded,
     [EvQuery SelectUserByEmailOrPhone]).
Proof.
  apply (duplicate_registration_rejected Transfer.env "asha@example.in" "another1"
           "A. N. Other" "9000000000" Examples.funded
           (mkUser Examples.asha "asha@example.in" "$2b$12$secret1" "Asha" "9876543210" true)).
  - rewrite funded_ledger. simpl. left.
  - by left.
  - reflexivity.
Defined.

Lemma select_user_by_email_or_phone_none e p d :
  e ∉ (u_email <$> users d) → p ∉ (u_phone <$> users d) →
  select_user_by_email_or_phone e p d = [].
Proof.
  unfold select_user_by_email_or_phone. generalize (users d). intros us.
  induction us as [|u us IH]; [done|]. rewrite !fmap_cons, !not_elem_of_cons.
  intros [He1 He2] [Hp1 Hp2]. rewrite filter_cons, decide_False; [by apply IH|].
  intros [?|?]; congruence.
Qed.

(** The columns of [users] take a value that fits as it is. *)
Lemma users_columns_fit u :
  varchar 255 (u_email u) = inr (u_email u) →
  varchar 255 (u_password_hash u) = inr (u_password_hash u) →
  varchar 255 (u_name u) = inr (u_name u) →
  varchar 20 (u_phone u) = inr (u_phone u) →
  users_columns u = inr u.
Proof.
  intros H1 H2 H3 H4. unfold users_columns, and_then. rewrite H1, H2, H3, H4.
  by destruct u.
Qed.

(** X9. Registration adds the user and the wallet together or not at all:
    the stores are as before, or the user row, as the columns of [users]
    take it, and a wallet holding zero were appended (transactions and cache
    untouched). A 201 answer means the latter, with an e-mail address, a
    phone number and a generated id that were new, and a token signed for
    the new user. An answer other than 201 leaves the stores as they were,
    except when [jwt.sign] throws: it is called after [COMMIT], so the
    answer is 500 and user and wallet are there. A value the columns refuse
    (a name of more than 255 characters, say) is answered 500 with nothing
    written. With a new e-mail address, phone number and id, values that fit
    their columns, no failure of the store and a token signed, the answer is
    201. *)
Theorem registration_creates_user_and_wallet env email password name phone s :
  (∀ code data,
     response_of (serve (post_register env email password name phone) s)
     = inr (Success code data) →
     ∃ u token,
       users_columns (mkUser (uuid env 0) email (bcrypt_hash env password) name phone true)
       = inr u
       ∧ (u_email u ∉ (u_email <$> users (st_ledger s)))
       ∧ (u_phone u ∉ (u_phone <$> users (st_ledger s)))
       ∧ (uuid env 0 ∉ (u_id <$> users (st_ledger s)))
       ∧ jwt_sign env (uuid env 0) (u_email u) = Some token
       ∧ code = 201
       ∧ data = RegisterData token (uuid env 0) (u_email u) (u_name u) (u_phone u)
       ∧ store_of (serve (post_register env email password name phone) s)
         = mkStore
             (mkDb (users (st_ledger s) ++ [u])
                   (wallets (st_ledger s) ++ [mkWallet (uuid env 0) 0])
                   (transactions (st_ledger s)))
             (st_redis s))
  ∧ (store_of (serve (post_register env email password name phone) s) = s
     ∨ ∃ u,
         users_columns (mkUser (uuid env 0) email (bcrypt_hash env password) name phone true)
         = inr u
         ∧ store_of (serve (post_register env email password name phone) s)
           = mkStore
               (mkDb (users (st_ledger s) ++ [u])
                     (wallets (st_ledger s) ++ [mkWallet (uuid env 0) 0])
                     (transactions (st_ledger s)))
               (st_redis s))
  ∧ ((∀ code data,
        response_of (serve (post_register env email password name phone) s)
        ≠ inr (Success code data)) →
     store_of (serve (post_register env email password name phone) s) = s
     ∨ (response_of (serve (post_register env email password name phone) s)
        = inr (Failure 500 "Registration failed")
        ∧ EvQuery Commit ∈ log_of (serve (post_register env email password name phone) s)
        ∧ ∃ u,
            users_columns
              (mkUser (uuid env 0) email (bcrypt_hash env password) name phone true)
            = inr u
            ∧ jwt_sign env (uuid env 0) (u_email u) = None))
  ∧ (∀ e,
       users_columns (mkUser (uuid env 0) email (bcrypt_hash env password) name phone true)
       = inl e →
       store_of (serve (post_register env email password name phone) s) = s
       ∧ (select_user_by_email_or_phone email phone (st_ledger s) = [] →
          response_of (serve (post_register env email password name phone) s)
          = inr (Failure 500 "Registration failed")))
  ∧ (email ∉ (u_email <$> users (st_ledger s)) →
     phone ∉ (u_phone <$> users (st_ledger s)) →
     uuid env 0 ∉ (u_id <$> users (st_ledger s)) →
     varchar 255 email = inr email →
     varchar 255 (bcrypt_hash env password) = inr (bcrypt_hash env password) →
     varchar 255 name = inr name →
     varchar 20 phone = inr phone →
     (∀ stmt, fault env stmt = false) →
     ∀ token,
       jwt_sign env (uuid env 0) email = Some token →
       response_of (serve (post_register env email password name phone) s)
       = inr (Success 201 (RegisterData token (uuid env 0) email name phone))).
Proof.
  assert (Hstore : ∀ u' d1 d2,
            insert_user (mkUser (uuid env 0) email (bcrypt_hash env password) name phone true)
              (st_ledger s) = inr (d1, u') →
            insert_wallet (uuid env 0) 0 d1 = inr (d2, tt) →
            users_columns
              (mkUser (uuid env 0) email (bcrypt_hash env password) name phone true)
            = inr u'
            ∧ mkStore d2 (st_redis s)
              = mkStore
                  (mkDb (users (st_ledger s) ++ [u'])
                        (wallets (st_ledger s) ++ [mkWallet (uuid env 0) 0])
                        (transactions (st_ledger s)))
                  (st_redis s)).
  { intros u' d1 d2 Hu Hw.
    apply insert_user_inv in Hu as (Hc & Hu1 & Hw1 & Ht1).
    apply insert_wallet_inv in Hw as (Hu2 & Ht2 & Hw2 & _).
    split; [done|]. f_equal. destruct d2; simpl in *. congruence. }
  split; [|split; [|split; [|split]]].
  - intros code data Hok.
    destruct (post_register_cases env email password name phone s)
      as [(Hr & _)|[(Hr & _)|(u' & d1 & d2 & _ & Hu & Hw & -> & _ & Hr)]]; [congruence..|].
    rewrite Hr in Hok.
    destruct (jwt_sign env (uuid env 0) (u_email u')) as [token|] eqn:Hjwt; [|done].
    injection Hok as <- <-.
    pose proof (insert_user_checks _ _ _ _ Hu) as (Hfid & Hfem & Hfph).
    destruct (Hstore _ _ _ Hu Hw) as [Hc Hs].
    pose proof (users_columns_inv _ _ Hc) as (Hid & _). simpl in Hid. rewrite Hid in Hfid.
    exists u', token. done.
  - destruct (post_register_cases env email password name phone s)
      as [(_ & -> & _)|[(_ & ->)|(u' & d1 & d2 & _ & Hu & Hw & -> & _)]];
      [by left..|].
    right. exists u'. by apply (Hstore _ d1).
  - intros Hno.
    destruct (post_register_cases env email password name phone s)
      as [(_ & -> & _)|[(_ & ->)|(u' & d1 & d2 & _ & Hu & Hw & _ & Hlog & Hr)]];
      [by left..|].
    destruct (jwt_sign env (uuid env 0) (u_email u')) as [token|] eqn:Hjwt;
      [by destruct (Hno _ _ Hr)|].
    right. split; [done|]. split; [done|].
    exists u'. split; [|done]. by apply (Hstore _ d1 d2).
  - intros e He.
    assert (Hins : ∀ d, insert_user
              (mkUser (uuid env 0) email (bcrypt_hash env password) name phone true) d
              = inl e).
    { intros d. unfold insert_user, and_then. by rewrite He. }
    destruct s as [d r]. unfold_handler. simpl.
    destruct (fault env SelectUserByEmailOrPhone); simpl.
    { split; [done|]. done. }
    destruct (select_user_by_email_or_phone email phone d) as [|u0 us]; simpl;
      [|split; [done|]; done].
    destruct (fault env Begin); simpl; [done|].
    destruct (fault env InsertUser); simpl; [done|].
    by rewrite Hins.
  - intros Hem Hph Hid H1 H2 H3 H4 Hf token Hjwt.
    destruct s as [d r]. simpl in *. unfold_handler. simpl.
    rewrite !Hf. simpl.
    rewrite (select_user_by_email_or_phone_none email phone d) by done.
    simpl. unfold insert_user, and_then.
    rewrite (users_columns_fit
               (mkUser (uuid env 0) email (bcrypt_hash env password) name phone true))
      by done.
    simpl. rewrite !bool_decide_eq_false_2 by done. simpl.
    unfold insert_wallet, user_exists. simpl.
    rewrite bool_decide_eq_true_2 by (rewrite fmap_app; apply elem_of_app; right; left). simpl.
    by rewrite Hjwt.
Qed.

Lemma registration_creates_user_and_wallet_witness :
  response_of (serve (post_register Transfer.env "mira@example.in" "secret3" "Mira"
                        "9876543212") Examples.funded)
  = inr (Success 201
           (RegisterData ("jwt." +:+ Examples.t2) Examples.t2 "mira@example.in" "Mira"
              "9876543212"))
  ∧ serve (post_register Transfer.env "mira@example.in" "secret3" Examples.long_name
             "9876543212") Examples.funded
    = (inr (Failure 500 "Registration failed"), Examples.funded,
       [EvQuery SelectUserByEmailOrPhone; EvConnect; EvQuery Begin; EvQuery InsertUser;
        EvQuery Rollback; EvRelease])
  ∧ response_of (serve (post_register Stale.unsigned "mira@example.in" "secret3" "Mira"
                          "9876543212") Examples.funded)
    = inr (Failure 500 "Registration failed")
  ∧ select_balance Examples.t2
      (st_ledger (store_of (serve (post_register Stale.unsigned "mira@example.in" "secret3"
                                     "Mira" "9876543212") Examples.funded)))
    = [0].
Proof.
  destruct (registration_creates_user_and_wallet Transfer.env "mira@example.in" "secret3"
              "Mira" "9876543212" Examples.funded) as (_ & _ & _ & _ & H).
  split; [|by vm_compute].
  apply H; try (by vm_compute);
    rewrite funded_ledger; apply (bool_decide_unpack _); by vm_compute.
Defined.

(** ** Other answers of a transfer *)

(** X10. The checks of a transfer come in a fixed order: a transfer to
    oneself aside, the sender's wallet is looked up first (none: 500), then
    the balance is compared (C3), and only a sender who holds the amount
    learns about the recipient. The statement reads [recipientId] as a
    uuid; when no active user has that id the answer is 404 "Recipient not
    found", after a rollback and with both stores as before, and a text
    that is no uuid makes the statement fail, which is answered 500. *)
Theorem transfer_to_missing_recipient env senderId recipientId amount note s :
  senderId ≠ recipientId →
  fault env Begin = false →
  fault env (SelectBalance senderId) = false →
  (select_balance senderId (st_ledger s) = [] →
   serve (post_send_money env senderId recipientId amount note) s
   = (inr (Failure 500 "Failed to send money"), s,
      [EvConnect; EvQuery Begin; EvQuery (SelectBalance senderId); EvQuery Rollback;
       EvRelease]))
  ∧ (∀ b rest,
       select_balance senderId (st_ledger s) = b :: rest →
       ¬ balance_below b amount →
       fault env (SelectActiveUser recipientId) = false →
       (∀ id,
          uuid_in recipientId = Some id →
          select_active_user id (st_ledger s) = [] →
          serve (post_send_money env senderId recipientId amount note) s
          = (inr (Failure 404 "Recipient not found"), s,
             [EvConnect; EvQuery Begin; EvQuery (SelectBalance senderId);
              EvQuery (SelectActiveUser recipientId); EvQuery Rollback; EvRelease]))
       ∧ (uuid_in recipientId = None →
          serve (post_send_money env senderId recipientId amount note) s
          = (inr (Failure 500 "Failed to send money"), s,
             [EvConnect; EvQuery Begin; EvQuery (SelectBalance senderId);
              EvQuery (SelectActiveUser recipientId); EvQuery Rollback; EvRelease]))).
Proof.
  intros Hne Hf1 Hf2. destruct s as [d r]. simpl. split.
  - intros Hsel. unfold_handler. simpl. rewrite bool_decide_eq_false_2 by done.
    rewrite Hf1. simpl. rewrite Hf2. simpl. by rewrite Hsel.
  - intros b rest Hsel Hle Hf3. split.
    + intros id Hid Hrec. unfold_handler. simpl.
      rewrite bool_decide_eq_false_2 by done.
      rewrite Hf1. simpl. rewrite Hf2. simpl. rewrite Hsel. simpl.
      rewrite bool_decide_eq_false_2 by done. rewrite Hf3. simpl.
      rewrite Hid. simpl. by rewrite Hrec.
    + intros Hid. unfold_handler. simpl.
      rewrite bool_decide_eq_false_2 by done.
      rewrite Hf1. simpl. rewrite Hf2. simpl. rewrite Hsel. simpl.
      rewrite bool_decide_eq_false_2 by done. rewrite Hf3. simpl.
      by rewrite Hid.
Qed.

Lemma transfer_to_missing_recipient_witness :
  serve (post_send_money Transfer.env Examples.asha Examples.nobody (paise 2500) None)
    Examples.funded
  = (inr (Failure 404 "Recipient not found"), Examples.funded,
     [EvConnect; EvQuery Begin; EvQuery (SelectBalance Examples.asha);
      EvQuery (SelectActiveUser Examples.nobody); EvQuery Rollback; EvRelease])
  ∧ serve (post_send_money Transfer.env Examples.asha "u-nobody" (paise 2500) None)
      Examples.funded
    = (inr (Failure 500 "Failed to send money"), Examples.funded,
       [EvConnect; EvQuery Begin; EvQuery (SelectBalance Examples.asha);
        EvQuery (SelectActiveUser "u-nobody"); EvQuery Rollback; EvRelease]).
Proof.
  split.
  - destruct (transfer_to_missing_recipient Transfer.env Examples.asha Examples.nobody
                (paise 2500) None Examples.funded) as [_ H]; [done|reflexivity|reflexivity|].
    destruct (H 10000 []) as [H404 _]; [by vm_compute|by vm_compute|reflexivity|].
    apply (H404 Examples.nobody); by vm_compute.
  - destruct (transfer_to_missing_recipient Transfer.env Examples.asha "u-nobody"
                (paise 2500) None Examples.funded) as [_ H]; [done|reflexivity|reflexivity|].
    destruct (H 10000 []) as [_ H500]; [by vm_compute|by vm_compute|reflexivity|].
    apply H500. by vm_compute.
Defined.

(** ** History pages *)

Lemma get_transactions_success env userId q_page q_limit type s code txs pagination :
  response_of (serve (get_transactions env userId q_page q_limit type) s)
  = inr (Success code (TransactionsData txs pagination)) →
  ∃ limit offset : nat,
    txs = format_transaction <$>
            take limit
              (drop offset
                 (order_by_created_at_desc (tie_order env)
                    (matching_rows userId type (st_ledger s)))).
Proof.
  destruct s as [d r]. unfold serve, get_transactions.
  generalize (parseInt_or q_page 1). generalize (parseInt_or q_limit 20). intros limit page.
  generalize (js_mul (js_sub page 1) limit). intros offset.
  unfold_handler. simpl. unfold select_transactions, limit_offset.
  repeat (case_match; simplify_eq/=; try done).
  intros [= _ <- _]. by eexists _, _.
Qed.

Lemma matching_rows_own userId type d row :
  row ∈ matching_rows userId type d →
  r_tx row ∈ transactions d
  ∧ (t_sender_id (r_tx row) = Some userId ∨ t_recipient_id (r_tx row) = Some userId)
  ∧ where_clause userId type (r_tx row) = true.
Proof.
  unfold matching_rows. intros [Hw Hj]%list_elem_of_filter.
  apply elem_of_joined_rows in Hj as (Ht & _). split; [done|]. split; [|done].
  unfold where_clause in Hw. apply andb_true_iff in Hw as [Hp _].
  unfold is_party in Hp. by apply bool_decide_eq_true_1 in Hp.
Qed.

(** X11. A history page shows the caller's own transactions only: whatever
    the page, the limit and the filter, every entry of a successful answer
    is the view of a ledger transaction that the caller sent or received and
    that passes the requested filter. *)
Theorem history_shows_own_transactions env userId q_page q_limit type s code txs pagination v :
  response_of (serve (get_transactions env userId q_page q_limit type) s)
  = inr (Success code (TransactionsData txs pagination)) →
  v ∈ txs →
  ∃ t, t ∈ transactions (st_ledger s)
       ∧ v_id v = t_id t ∧ v_amount v = t_amount t ∧ v_type v = t_transaction_type t
       ∧ v_referenceId v = t_reference_id t
       ∧ (t_sender_id t = Some userId ∨ t_recipient_id t = Some userId)
       ∧ where_clause userId type t = true.
Proof.
  intros (limit & offset & ->)%get_transactions_success Hv.
  apply list_elem_of_fmap in Hv as (row & -> & Hrow).
  apply subseteq_take, subseteq_drop in Hrow.
  rewrite order_by_permutation in Hrow.
  apply matching_rows_own in Hrow as (Ht & Hp & Hw).
  exists (r_tx row). done.
Qed.

Lemma history_shows_own_transactions_witness :
  ∃ t, t ∈ transactions (st_ledger Ties.twice_funded)
       ∧ t_id t = Examples.t4 ∧ t_sender_id t = Some Examples.asha.
Proof.
  destruct (history_shows_own_transactions Ties.env_last Examples.asha (Some 1) (Some 1) None
              Ties.twice_funded 200 [Ties.view_t4] (mkPagination 1 1 2 2 true false)
              Ties.view_t4) as (t & Ht & Hid & _ & _ & _ & Hp & _).
  - by vm_compute.
  - left.
  - exists t. split; [exact Ht|]. split; [by rewrite <- Hid|].
    destruct Hp as [Hp|Hp]; [exact Hp|].
    exfalso. revert Ht Hp. vm_compute. intros Ht Hp.
    repeat (apply elem_of_cons in Ht as [->|Ht]; [discriminate Hp|]).
    by apply elem_of_nil in Ht.
Defined.

Lemma ceil_div_bounds total limit :
  0 < limit →
  (ceil_div total limit - 1) * limit < total ∧ total ≤ ceil_div total limit * limit.
Proof.
  intros Hl. unfold ceil_div.
  pose proof (Z.div_mod (- total) limit ltac:(lia)) as Hdm.
  pose proof (Z.mod_pos_bound (- total) limit Hl) as Hm. nia.
Qed.

(** X12. For a query the validator accepts (page at least 1, limit between
    1 and 100, defaults 1 and 20) whose [page * limit] is an integer
    JavaScript holds exactly (up to 2^53), and a store that does not fail,
    the answer is 200 with at most [limit] entries, and the pagination block
    is arithmetic on the count of matching transactions: [pages] is the
    least number of pages of [limit] rows that hold [total] rows, [hasNext]
    says that rows remain after this page, [hasPrev] that the page is not
    the first. The validator puts no upper bound on the page: page 10^18
    with limit 20 passes it, the offset is then no [bigint], the page query
    fails and the answer is 500. *)
Theorem pagination_block env userId q_page q_limit type s :
  (transactionQueryValidation q_page q_limit type = true →
   default 1 q_page * default 20 q_limit ≤ 2 ^ 53 →
   fault env SelectTransactions = false →
   fault env CountTransactions = false →
   ∃ txs pg,
     serve (get_transactions env userId q_page q_limit type) s
     = (inr (Success 200 (TransactionsData txs pg)), s,
        [EvQuery SelectTransactions; EvQuery CountTransactions])
     ∧ pg_page pg = default 1 q_page
     ∧ pg_limit pg = default 20 q_limit
     ∧ 1 ≤ pg_page pg ∧ 1 ≤ pg_limit pg ≤ 100
     ∧ (length txs ≤ Z.to_nat (pg_limit pg))%nat
     ∧ pg_total pg = count_transactions userId type (st_ledger s)
     ∧ (pg_pages pg - 1) * pg_limit pg < pg_total pg ≤ pg_pages pg * pg_limit pg
     ∧ (pg_hasNext pg = true ↔ pg_page pg * pg_limit pg < pg_total pg)
     ∧ (pg_hasPrev pg = true ↔ 1 < pg_page pg))
  ∧ transactionQueryValidation (Some (10 ^ 18)) (Some 20) type
    = transactionQueryValidation None None type
  ∧ serve (get_transactions env userId (Some (10 ^ 18)) (Some 20) type) s
    = (inr (Failure 500 "Failed to fetch transactions"), s, [EvQuery SelectTransactions]).
Proof.
  split; [|split; [done|by apply get_transactions_out_of_range]].
  intros Hval Hsafe Hf1 Hf2. unfold transactionQueryValidation in Hval.
  apply andb_true_iff in Hval as [Hval _]. apply andb_true_iff in Hval as [Hp Hl].
  assert (Hp1 : 1 ≤ default 1 q_page).
  { destruct q_page as [p|]; simpl in *; [|done]. by apply bool_decide_eq_true_1 in Hp. }
  assert (Hl1 : 1 ≤ default 20 q_limit ≤ 100).
  { destruct q_limit as [l|]; simpl in *; [|lia]. by apply bool_decide_eq_true_1 in Hl. }
  assert (Hpage : parseInt_or q_page 1 = default 1 q_page).
  { destruct q_page as [p|]; simpl in *; [|done]. apply parseInt_or_safe; nia. }
  assert (Hlimit : parseInt_or q_limit 20 = default 20 q_limit).
  { destruct q_limit as [l|]; simpl in *; [|done]. apply parseInt_or_safe; nia. }
  destruct s as [d r]. eexists _, _. split.
  - unfold serve, get_transactions. rewrite Hpage, Hlimit.
    rewrite offset_safe by (done || lia).
    unfold_handler. simpl. rewrite Hf1. simpl.
    unfold select_transactions. rewrite limit_offset_safe by nia.
    simpl. rewrite Hf2. simpl. reflexivity.
  - simpl. pose proof (ceil_div_bounds (count_transactions userId type d)
                         (default 20 q_limit) ltac:(lia)) as [Hc1 Hc2].
    repeat split; try done; try lia.
    + rewrite length_fmap, length_take. lia.
    + intros H%bool_decide_eq_true_1. nia.
    + intros H. apply bool_decide_eq_true_2. nia.
    + by intros H%bool_decide_eq_true_1.
    + intros H. by apply bool_decide_eq_true_2.
Qed.

Lemma pagination_block_witness :
  ∃ txs pg,
    response_of (serve (get_transactions Ties.env_first Examples.asha (Some 2) None None)
                   Fifteen.store)
    = inr (Success 200 (TransactionsData txs pg))
    ∧ pg_limit pg = 20 ∧ pg_total pg = 15 ∧ pg_pages pg = 1
    ∧ pg_hasNext pg = false ∧ pg_hasPrev pg = true ∧ txs = [].
Proof.
  destruct (pagination_block Ties.env_first Examples.asha (Some 2) None None Fifteen.store)
    as [H _].
  destruct H as (txs & pg & Hserve & _); [reflexivity|by vm_compute|reflexivity..|].
  exists txs, pg. unfold response_of. rewrite Hserve. split; [reflexivity|].
  revert Hserve. vm_compute. intros [= <- <-]. done.
Defined.

Lemma filter_user_id_at_most_one id us :
  NoDup (u_id <$> us) → (length (filter (λ u, u_id u = id) us) ≤ 1)%nat.
Proof.
  induction us as [|u us IH]; [simpl; lia|].
  rewrite fmap_cons, NoDup_cons. intros [Hu Hnd]. rewrite filter_cons.
  destruct (decide (u_id u = id)) as [<-|]; [|by apply IH].
  assert (filter (λ u0, u_id u0 = u_id u) us = []) as ->; [|simpl; lia].
  clear -Hu. induction us as [|u' us IH]; [done|].
  rewrite fmap_cons, not_elem_of_cons in Hu. destruct Hu as [Hne Hu].
  rewrite filter_cons, decide_False by done. by apply IH.
Qed.

Lemma left_join_users_one o d :
  NoDup (u_id <$> users d) → ∃ x, left_join_users o d = [x].
Proof.
  intros Hnd. unfold left_join_users. destruct o as [id|]; [|by eexists].
  pose proof (filter_user_id_at_most_one id (users d) Hnd) as Hlen.
  destruct (filter _ (users d)) as [|u [|u' us]]; simpl in *; [by eexists..|lia].
Qed.

Lemma joined_rows_transactions d :
  NoDup (u_id <$> users d) → r_tx <$> joined_rows d = transactions d.
Proof.
  intros Hnd. unfold joined_rows. induction (transactions d) as [|t ts IH]; [done|].
  rewrite bind_cons, fmap_app, IH.
  destruct (left_join_users_one (t_sender_id t) d Hnd) as [sd ->].
  destruct (left_join_users_one (t_recipient_id t) d Hnd) as [rc ->]. done.
Qed.

Lemma count_transactions_rows userId type d :
  NoDup (u_id <$> users d) →
  count_transactions userId type d = Z.of_nat (length (matching_rows userId type d)).
Proof.
  intros Hnd. unfold count_transactions, matching_rows. f_equal.
  rewrite <- (joined_rows_transactions d Hnd) at 1.
  generalize (joined_rows d). intros rows. induction rows as [|r rows IH]; [done|].
  rewrite fmap_cons, !filter_cons. simpl.
  destruct (decide (where_clause userId type (r_tx r) = true)); simpl; by rewrite IH.
Qed.

(** X13. In a reachable ledger the joins of the page query do not multiply
    rows, so the count the history reports is the number of rows the pages
    hold: within the integers JavaScript holds exactly, a page has
    [min limit (total - (page - 1) * limit)] entries (none when that is
    negative), [hasNext] is true exactly when the following page has an
    entry, and a page beyond [pages] is empty. *)
Theorem history_total_counts_rows env userId type page limit s :
  reachable s →
  1 ≤ page → 1 ≤ limit →
  (page + 1) * limit ≤ 2 ^ 53 →
  fault env SelectTransactions = false →
  fault env CountTransactions = false →
  count_transactions userId type (st_ledger s)
  = Z.of_nat (length (matching_rows userId type (st_ledger s)))
  ∧ ∃ txs pg txs' pg',
      response_of (serve (get_transactions env userId (Some page) (Some limit) type) s)
      = inr (Success 200 (TransactionsData txs pg))
      ∧ response_of (serve (get_transactions env userId (Some (page + 1)) (Some limit) type) s)
        = inr (Success 200 (TransactionsData txs' pg'))
      ∧ Z.of_nat (length txs) = Z.min limit (Z.max 0 (pg_total pg - (page - 1) * limit))
      ∧ (pg_hasNext pg = true ↔ txs' ≠ [])
      ∧ (pg_pages pg < page → txs = []).
Proof.
  intros Hreach Hp Hl Hsafe Hf1 Hf2.
  pose proof (reachable_ledger_consistent s Hreach) as (_ & (Hid & _) & _).
  pose proof (count_transactions_rows userId type (st_ledger s) Hid) as Hcount.
  split; [done|].
  eexists _, _, _, _. unfold response_of.
  rewrite !get_transactions_response by (done || lia). simpl.
  split; [done|]. split; [done|].
  pose proof (ceil_div_bounds (count_transactions userId type (st_ledger s)) limit
                ltac:(lia)) as [Hc1 Hc2].
  assert (Hlen : ∀ tie, length (order_by_created_at_desc tie
                                  (matching_rows userId type (st_ledger s)))
                        = length (matching_rows userId type (st_ledger s))).
  { intros tie. by rewrite order_by_permutation. }
  rewrite Hcount in *. simpl.
  set (len := length (matching_rows userId type (st_ledger s))) in *.
  assert (Ho : 0 ≤ (page - 1) * limit) by nia.
  assert (Ho' : 0 ≤ page * limit) by nia.
  assert (Hnext : page < ceil_div (Z.of_nat len) limit ↔ page * limit < Z.of_nat len)
    by (split; intros; nia).
  split; [|split].
  - rewrite length_fmap. unfold page_of. rewrite length_take, length_drop, Hlen. lia.
  - rewrite bool_decide_eq_true, Hnext.
    rewrite <- (length_zero_iff_nil (_ <$> _)).
    rewrite length_fmap. unfold page_of. rewrite length_take, length_drop, Hlen.
    replace (page + 1 - 1) with page by lia. lia.
  - intros Hbeyond. apply length_zero_iff_nil.
    rewrite length_fmap. unfold page_of. rewrite length_take, length_drop, Hlen.
    assert (Z.of_nat len ≤ (page - 1) * limit) by nia. lia.
Qed.

Lemma history_total_counts_rows_witness :
  count_transactions Examples.asha None (st_ledger Ties.twice_funded) = 2
  ∧ ∃ txs pg txs' pg',
      response_of (serve (get_transactions Ties.env_first Examples.asha (Some 1) (Some 1) None)
                     Ties.twice_funded)
      = inr (Success 200 (TransactionsData txs pg))
      ∧ response_of (serve (get_transactions Ties.env_first Examples.asha (Some 2) (Some 1) None)
                       Ties.twice_funded)
        = inr (Success 200 (TransactionsData txs' pg'))
      ∧ (pg_hasNext pg = true ↔ txs' ≠ []).
Proof.
  assert (Hreach : reachable Ties.twice_funded)
    by apply reachable_step, funded_reachable.
  destruct (history_total_counts_rows Ties.env_first Examples.asha None 1 1 Ties.twice_funded
              Hreach) as (Hc & txs & pg & txs' & pg' & H1 & H2 & _ & Hnext & _);
    [lia|lia|by vm_compute|reflexivity|reflexivity|].
  split; [by vm_compute|].
  exists txs, pg, txs', pg'. split; [exact H1|]. split; [exact H2|exact Hnext].
Defined.

(** X14. The filters narrow the unfiltered history and relate as the
    handler wires them: [add_money] rows pass [sent] too, no row passes both
    [sent] and [received], and a [type] other than the three names (the
    empty string included) filters nothing. Without a filter a row is shown
    exactly when the caller is its sender or its recipient. *)
Theorem history_filters userId ty t :
  (where_clause userId (Some ty) t = true → where_clause userId None t = true)
  ∧ (where_clause userId (Some "add_money") t = true →
     where_clause userId (Some "sent") t = true)
  ∧ ¬ (where_clause userId (Some "sent") t = true
       ∧ where_clause userId (Some "received") t = true)
  ∧ (ty ∉ ["sent"; "received"; "add_money"] →
     where_clause userId (Some ty) t = where_clause userId None t)
  ∧ (where_clause userId None t = true
     ↔ t_sender_id t = Some userId ∨ t_recipient_id t = Some userId).
Proof.
  unfold where_clause, is_party. split; [|split; [|split; [|split; [|split]]]].
  - intros H. apply andb_true_iff in H as [-> _]. done.
  - simpl. intros H. apply andb_true_iff in H as [-> H].
    apply andb_true_iff in H as [-> H]. apply bool_decide_eq_true_1 in H.
    simpl. apply bool_decide_eq_true_2. rewrite H. right. left.
  - simpl. intros [H1 H2].
    apply andb_true_iff in H1 as [_ H1]. apply andb_true_iff in H1 as [_ H1].
    apply andb_true_iff in H2 as [_ H2]. apply andb_true_iff in H2 as [_ H2].
    apply bool_decide_eq_true_1 in H1. apply bool_decide_eq_true_1 in H2.
    rewrite H2 in H1.
    repeat (apply elem_of_cons in H1 as [H1|H1]; [done|]). by apply elem_of_nil in H1.
  - intros Hty. rewrite !not_elem_of_cons in Hty. destruct Hty as (H1 & H2 & H3 & _).
    rewrite (bool_decide_eq_false_2 (ty = "sent")) by done.
    rewrite (bool_decide_eq_false_2 (ty = "received")) by done.
    by rewrite (bool_decide_eq_false_2 (ty = "add_money")) by done.
  - intros H. apply andb_true_iff in H as [H _]. by apply bool_decide_eq_true_1 in H.
  - intros H. rewrite andb_true_r. by apply bool_decide_eq_true_2.
Qed.

Lemma history_filters_witness :
  where_clause Examples.asha (Some "sent") Transfer.send_row = true
  ∧ where_clause Examples.asha (Some "") Transfer.send_row
    = where_clause Examples.asha None Transfer.send_row.
Proof.
  destruct (history_filters Examples.asha "" Transfer.send_row) as (_ & _ & _ & H & _).
  split; [by vm_compute|]. apply H. apply (bool_decide_unpack _). by vm_compute.
Defined.

(** ** What no request does *)

(** X15. The ledger only grows. Whatever the request and its outcome, the
    users and the transactions that were in the ledger are still there,
    unchanged and in place, with new rows only after them, and every wallet
    still belongs to the user it belonged to. *)
Theorem ledger_only_grows env q s :
  users (st_ledger s) `prefix_of` users (st_ledger (next env q s))
  ∧ transactions (st_ledger s) `prefix_of` transactions (st_ledger (next env q s))
  ∧ (w_user_id <$> wallets (st_ledger s))
    `prefix_of` (w_user_id <$> wallets (st_ledger (next env q s))).
Proof.
  unfold next. destruct q as [e p n ph|u|u a pm|u r a nt|u qp ql ty|u i]; simpl.
  - destruct (post_register_outcome env e p n ph s) as [_ [->|(u & _ & ->)]]; [done|]. simpl.
    rewrite fmap_app. repeat split; try done; by apply prefix_app_r.
  - by rewrite get_balance_ledger.
  - destruct (post_add_money_outcome env u a pm s)
      as [(_ & ->)|(d1 & d2 & b & rest & Hins & Hupd & _ & _ & Hout)]; [done|].
    assert (st_ledger (store_of (serve (post_add_money env u a pm) s)) = d2) as ->.
    { by destruct Hout as [(_ & _ & ->)|(_ & _ & ->)]. }
    apply insert_transaction_inv in Hins as (t' & _ & Hu1 & Hw1 & Ht1 & _).
    apply update_balance_inv in Hupd as (Hu2 & Ht2 & Hrows & _).
    apply update_wallet_rows_inv, update_rows_owners in Hrows.
    rewrite Hu2, Hu1, Ht2, Ht1, Hrows, Hw1. repeat split; try done.
    by apply prefix_app_r.
  - by rewrite post_send_money_store.
  - by rewrite get_transactions_store.
  - by rewrite get_transaction_by_id_store.
Qed.

(** X16. A balance read that is not answered with a success changes
    nothing: for a user without a wallet row and without a cached entry the
    answer is 404 "Wallet not found", after a failure of the store it is 500,
    and in both cases ledger and cache are as before (nothing is cached). *)
Theorem failed_balance_read_changes_nothing env user_id s :
  ((∀ code data, response_of (serve (get_balance env user_id) s) ≠ inr (Success code data)) →
   store_of (serve (get_balance env user_id) s) = s)
  ∧ (redis_lookup (now env) (balance_key user_id) (st_redis s) = None →
     (fault env (SelectBalance user_id) = true →
      response_of (serve (get_balance env user_id) s)
      = inr (Failure 500 "Failed to fetch balance"))
     ∧ (fault env (SelectBalance user_id) = false →
        select_balance user_id (st_ledger s) = [] →
        serve (get_balance env user_id) s
        = (inr (Failure 404 "Wallet not found"), s,
           [EvRedisGet (balance_key user_id); EvQuery (SelectBalance user_id)]))).
Proof.
  destruct s as [d r]. split.
  - run_handler; intros Hno; try done; by destruct (Hno _ _ eq_refl).
  - intros Hmiss. simpl in Hmiss. split.
    + intros Hf. unfold_handler. simpl. by rewrite Hmiss, Hf.
    + intros Hf Hsel. unfold_handler. simpl in *. rewrite Hmiss, Hf. simpl. by rewrite Hsel.
Qed.

Lemma failed_balance_read_changes_nothing_witness :
  serve (get_balance Transfer.env Examples.nobody) Examples.funded
  = (inr (Failure 404 "Wallet not found"), Examples.funded,
     [EvRedisGet (balance_key Examples.nobody); EvQuery (SelectBalance Examples.nobody)]).
Proof.
  destruct (failed_balance_read_changes_nothing Transfer.env Examples.nobody Examples.funded)
    as [_ H].
  destruct H as [_ H]; [by vm_compute|]. apply H; [reflexivity|by vm_compute].
Defined.


(** ** The token of a request *)

Lemma split_space_no_space s : no_space s = true → split_space s = [s].
Proof.
  induction s as [|c s IH]; [done|]. simpl. intros H.
  apply andb_true_iff in H as [Hc Hs]. apply negb_true_iff in Hc.
  rewrite Hc, (IH Hs). done.
Qed.

Lemma split_space_first a b :
  no_space a = true → split_space (a +:+ " " +:+ b) = a :: split_space b.
Proof.
  change (" " +:+ b) with (String " " b).
  induction a as [|c a IH]; [done|]. intros H. simpl in H.
  apply andb_true_iff in H as [Hc Ha]. apply negb_true_iff in Hc.
  change (String c a +:+ String " " b) with (String c (a +:+ String " " b)).
  simpl. rewrite Hc, (IH Ha). done.
Qed.

(** X17. The token is the second space-separated field of the
    [Authorization] header, whatever the first field is: ["Bearer " + token]
    as the frontend sends it yields [token], and so does any other scheme
    word; anything after a further space is ignored. No header, a header
    without a space, or an empty second field yield no token. *)
Theorem token_is_second_field scheme token rest :
  no_space scheme = true →
  no_space token = true →
  token ≠ "" →
  bearer_token (Some (scheme +:+ " " +:+ token)) = Some token
  ∧ bearer_token (Some ("Bearer " +:+ token)) = Some token
  ∧ bearer_token (Some (scheme +:+ " " +:+ token +:+ " " +:+ rest)) = Some token
  ∧ bearer_token (Some (scheme +:+ " ")) = None
  ∧ bearer_token (Some scheme) = None
  ∧ bearer_token None = None.
Proof.
  intros Hs Ht Hne.
  assert (Hgen : ∀ sch tail, no_space sch = true →
            bearer_token (Some (sch +:+ " " +:+ tail))
            = match split_space tail with
              | tok :: _ => if bool_decide (tok = "") then None else Some tok
              | [] => None
              end).
  { intros sch tail Hsch. unfold bearer_token.
    rewrite split_space_first by done. simpl.
    case_bool_decide as He; [destruct sch; discriminate He|].
    by destruct (split_space tail). }
  split; [|split; [|split; [|split]]].
  - rewrite Hgen, split_space_no_space by done. by rewrite bool_decide_eq_false_2.
  - change ("Bearer " +:+ token) with ("Bearer" +:+ " " +:+ token).
    rewrite Hgen, split_space_no_space by done. by rewrite bool_decide_eq_false_2.
  - rewrite Hgen, split_space_first by done. by rewrite bool_decide_eq_false_2.
  - change (scheme +:+ " ") with (scheme +:+ " " +:+ ""). by rewrite Hgen.
  - split; [|done]. unfold bearer_token. case_bool_decide; [done|].
    by rewrite split_space_no_space.
Qed.

Lemma token_is_second_field_witness :
  bearer_token (Some "Basic jwt.a5a00000-0000-4000-8000-000000000001") = Some "jwt.a5a00000-0000-4000-8000-000000000001"
  ∧ bearer_token (Some "Bearer jwt.a5a00000-0000-4000-8000-000000000001") = Some "jwt.a5a00000-0000-4000-8000-000000000001".
Proof.
  destruct (token_is_second_field "Basic" "jwt.a5a00000-0000-4000-8000-000000000001" "") as (H1 & H2 & _);
    [reflexivity|reflexivity|discriminate|].
  split; [exact H1|exact H2].
Defined.

(** ** Authentication *)

Lemma elem_of_select_user_by_id ru id d :
  ru ∈ select_user_by_id id d ↔
  ∃ u, u ∈ users d ∧ u_id u = id
       ∧ ru = mkReqUser (u_id u) (u_email u) (u_name u) (u_phone u) (u_is_active u).
Proof.
  unfold select_user_by_id. rewrite list_elem_of_fmap. split.
  - intros (u & -> & [Hid Hu]%list_elem_of_filter). eauto.
  - intros (u & Hu & Hid & ->). exists u. split; [done|]. by apply list_elem_of_filter.
Qed.

(** X18. The middleware lets a request through only for a token that
    verifies and names a user who is in the ledger and active, and hands
    the handler that user's row. Without a token the answer is 401 "Access
    token required", whatever the state of the store; a token that does not
    verify is answered 403 "Invalid token", and so is a failure of the
    store; a verified token of a user who is not in the ledger is answered
    401 "Invalid or expired token". *)
Theorem authentication_outcomes jwt_verify store_fails authHeader d :
  (∀ user, authenticateToken jwt_verify store_fails authHeader d = Next user →
           store_fails = false
           ∧ ru_is_active user = true
           ∧ (∃ token, bearer_token authHeader = Some token
                       ∧ jwt_verify token = Some (ru_id user))
           ∧ ∃ u, u ∈ users d ∧ u_is_active u = true
                  ∧ user = mkReqUser (u_id u) (u_email u) (u_name u) (u_phone u) true)
  ∧ (bearer_token authHeader = None →
     authenticateToken jwt_verify store_fails authHeader d
     = Denied 401 "Access token required")
  ∧ (∀ token, bearer_token authHeader = Some token →
       (jwt_verify token = None ∨ store_fails = true) →
       authenticateToken jwt_verify store_fails authHeader d = Denied 403 "Invalid token")
  ∧ (∀ token id, bearer_token authHeader = Some token →
       jwt_verify token = Some id →
       store_fails = false →
       id ∉ (u_id <$> users d) →
       authenticateToken jwt_verify store_fails authHeader d
       = Denied 401 "Invalid or expired token").
Proof.
  unfold authenticateToken. split; [|split; [|split]].
  - intros user H.
    destruct (bearer_token authHeader) as [token|]; [|done].
    destruct (jwt_verify token) as [id|] eqn:Hv; [|done].
    destruct store_fails; [done|].
    destruct (select_user_by_id id d) as [|ru rus] eqn:Hsel; [done|].
    destruct (ru_is_active ru) eqn:Hact; simpl in H; [|done]. simplify_eq.
    assert (user ∈ select_user_by_id id d) as Hin by (rewrite Hsel; left).
    apply elem_of_select_user_by_id in Hin as (u & Hu & Hid & ->). simpl in *.
    split; [done|]. split; [done|]. split; [exists token; by rewrite Hid|].
    exists u. by rewrite Hact.
  - by intros ->.
  - intros token -> [-> | ->]; [done|]. by destruct (jwt_verify token).
  - intros token id -> -> -> Hnot.
    destruct (select_user_by_id id d) as [|ru rus] eqn:Hsel; [done|].
    exfalso. apply Hnot.
    assert (ru ∈ select_user_by_id id d) as Hin by (rewrite Hsel; left).
    apply elem_of_select_user_by_id in Hin as (u & Hu & Hid & _).
    apply list_elem_of_fmap. eauto.
Qed.

Lemma authentication_outcomes_witness :
  authenticateToken Tokens.verify false (Some "Bearer jwt.a5a00000-0000-4000-8000-000000000001") (st_ledger Examples.funded)
  = Next (mkReqUser Examples.asha "asha@example.in" "Asha" "9876543210" true)
  ∧ authenticateToken Tokens.verify true (Some "Bearer jwt.a5a00000-0000-4000-8000-000000000001") (st_ledger Examples.funded)
    = Denied 403 "Invalid token"
  ∧ authenticateToken Tokens.verify false (Some "Bearer jwt.00b0d100-0000-4000-8000-000000000009") (st_ledger Examples.funded)
    = Denied 401 "Invalid or expired token".
Proof.
  split; [by vm_compute|]. split.
  - destruct (authentication_outcomes Tokens.verify true (Some "Bearer jwt.a5a00000-0000-4000-8000-000000000001")
                (st_ledger Examples.funded)) as (_ & _ & H & _).
    apply (H "jwt.a5a00000-0000-4000-8000-000000000001"); [reflexivity|by right].
  - destruct (authentication_outcomes Tokens.verify false (Some "Bearer jwt.00b0d100-0000-4000-8000-000000000009")
                (st_ledger Examples.funded)) as (_ & _ & _ & H).
    apply (H "jwt.00b0d100-0000-4000-8000-000000000009" Examples.nobody); [reflexivity..|].
    rewrite funded_ledger. apply (bool_decide_unpack _). by vm_compute.
Defined.

Lemma filter_fresh_user (P : User → Prop) `{∀ u, Decision (P u)} us u :
  (∀ x, x ∈ us → ¬ P x) → P u → filter P (us ++ [u]) = [u].
Proof.
  intros Hno Hu. rewrite filter_app, filter_cons, decide_True by done.
  rewrite filter_nil. assert (filter P us = []) as ->; [|done].
  induction us as [|x us IH]; [done|]. rewrite filter_cons, decide_False.
  - apply IH. intros y Hy. apply Hno. by right.
  - apply Hno. left.
Qed.

Lemma post_register_ledger env email password name phone s code data :
  response_of (serve (post_register env email password name phone) s)
  = inr (Success code data) →
  ∃ u token,
    users_columns (mkUser (uuid env 0) email (bcrypt_hash env password) name phone true)
    = inr u
    ∧ jwt_sign env (uuid env 0) (u_email u) = Some token
    ∧ code = 201
    ∧ data = RegisterData token (uuid env 0) (u_email u) (u_name u) (u_phone u)
    ∧ (uuid env 0 ∉ (u_id <$> users (st_ledger s)))
    ∧ (u_email u ∉ (u_email <$> users (st_ledger s)))
    ∧ users (st_ledger (store_of (serve (post_register env email password name phone) s)))
      = users (st_ledger s) ++ [u].
Proof.
  intros Hok.
  destruct (post_register_cases env email password name phone s)
    as [(Hr & _)|[(Hr & _)|(u' & d1 & d2 & _ & Hu & Hw & -> & _ & Hr)]]; [congruence..|].
  rewrite Hr in Hok.
  destruct (jwt_sign env (uuid env 0) (u_email u')) as [token|] eqn:Hjwt; [|done].
  injection Hok as <- <-.
  pose proof (insert_user_checks _ _ _ _ Hu) as (Hfid & Hfem & _).
  apply insert_user_inv in Hu as (Hc & Hu1 & _).
  apply insert_wallet_inv in Hw as (Hu2 & _). simpl.
  pose proof (users_columns_inv _ _ Hc) as (Hid & Hact & _). simpl in Hid, Hact.
  rewrite Hid in Hfid.
  exists u', token. repeat split; try done. congruence.
Qed.

(** X19. The token of a registration opens the door for the new user:
    provided [jwt.verify] gives back the user id that [jwt.sign] was given
    and the token is one field, the middleware passes a request carrying
    ["Bearer " + token], against the ledger the registration left, with
    [req.user] the user just registered, as the registration answered it. *)
Theorem registration_token_authenticates jwt_verify env email password name phone s
    token id email' name' phone' :
  response_of (serve (post_register env email password name phone) s)
  = inr (Success 201 (RegisterData token id email' name' phone')) →
  jwt_verify token = Some id →
  no_space token = true →
  token ≠ "" →
  authenticateToken jwt_verify false (Some ("Bearer " +:+ token))
    (st_ledger (store_of (serve (post_register env email password name phone) s)))
  = Next (mkReqUser id email' name' phone' true).
Proof.
  intros Hok Hv Hns Hne.
  apply post_register_ledger in Hok as (u & tok & Hc & _ & _ & Hdata & Hfid & _ & Husers).
  injection Hdata as -> -> -> -> ->.
  apply users_columns_inv in Hc as (Hid & Hact & _). simpl in Hid, Hact.
  unfold authenticateToken.
  assert (bearer_token (Some ("Bearer " +:+ tok)) = Some tok) as ->.
  { unfold bearer_token. rewrite bool_decide_eq_false_2 by done.
    change ("Bearer " +:+ tok) with ("Bearer" +:+ " " +:+ tok).
    rewrite split_space_first by done.
    rewrite split_space_no_space by done. simpl. by rewrite bool_decide_eq_false_2. }
  rewrite Hv. unfold select_user_by_id. rewrite Husers.
  rewrite filter_fresh_user; [|
    intros x Hx Hx'; apply Hfid; apply list_elem_of_fmap; eauto | done].
  simpl. by rewrite Hid, Hact.
Qed.

Lemma registration_token_authenticates_witness :
  authenticateToken Tokens.verify false (Some ("Bearer jwt." +:+ Examples.t2))
    (st_ledger (store_of (serve (post_register Transfer.env "mira@example.in" "secret3"
                                   "Mira" "9876543212") Examples.funded)))
  = Next (mkReqUser Examples.t2 "mira@example.in" "Mira" "9876543212" true).
Proof.
  apply (registration_token_authenticates Tokens.verify Transfer.env "mira@example.in"
           "secret3" "Mira" "9876543212" Examples.funded ("jwt." +:+ Examples.t2) Examples.t2
           "mira@example.in" "Mira" "9876543212").
  - by vm_compute.
  - reflexivity.
  - reflexivity.
  - discriminate.
Defined.

(** ** Login and logout *)

(** X20. The answers of a login. A failure of the store gives 500. An
    e-mail address no user has and a wrong password for an active user get
    the same answer, 401 "Invalid email or password". A deactivated user is
    told so, 401 "Account is deactivated", before the password is looked at,
    so for any password. With the right password the answer is the token
    [jwt.sign] returns, and 500 "Login failed" without a session when
    [jwt.sign] throws. Only a login that succeeds writes a session: for the
    user logged in, under ["session:" + id], for 604800 seconds, and the
    token it returns is signed for that user. *)
Theorem login_outcomes bcrypt_compare env store_fails email password d :
  (store_fails = true →
   post_login bcrypt_compare env store_fails email password d
   = (LoginFailure 500 "Login failed", None))
  ∧ (store_fails = false →
     email ∉ (u_email <$> users d) →
     post_login bcrypt_compare env store_fails email password d
     = (LoginFailure 401 "Invalid email or password", None))
  ∧ (∀ user rest,
       store_fails = false →
       select_user_by_email email d = user :: rest →
       (u_is_active user = false →
        post_login bcrypt_compare env store_fails email password d
        = (LoginFailure 401 "Account is deactivated", None))
       ∧ (u_is_active user = true →
          bcrypt_compare password (u_password_hash user) = false →
          post_login bcrypt_compare env store_fails email password d
          = (LoginFailure 401 "Invalid email or password", None))
       ∧ (u_is_active user = true →
          bcrypt_compare password (u_password_hash user) = true →
          post_login bcrypt_compare env store_fails email password d
          = match jwt_sign env (u_id user) email with
            | Some token =>
                (LoggedIn token (u_id user) email (u_name user) (u_phone user),
                 Some (mkSessionWrite (session_key (u_id user)) 604800
                         (mkSession (u_id user) email (now env))))
            | None => (LoginFailure 500 "Login failed", None)
            end))
  ∧ (∀ w, (post_login bcrypt_compare env store_fails email password d).2 = Some w →
          ∃ u token,
            u ∈ users d ∧ u_email u = email ∧ u_is_active u = true
            ∧ bcrypt_compare password (u_password_hash u) = true
            ∧ jwt_sign env (u_id u) email = Some token
            ∧ (post_login bcrypt_compare env store_fails email password d).1
              = LoggedIn token (u_id u) email (u_name u) (u_phone u)
            ∧ w = mkSessionWrite (session_key (u_id u)) 604800
                    (mkSession (u_id u) email (now env))).
Proof.
  unfold post_login. split; [by intros ->|]. split; [|split].
  - intros -> Hno.
    destruct (select_user_by_email email d) as [|u us] eqn:E; [done|].
    exfalso. apply Hno.
    assert (u ∈ select_user_by_email email d) as Hin by (rewrite E; left).
    apply list_elem_of_filter in Hin as [<- Hin]. apply list_elem_of_fmap. eauto.
  - intros user rest -> Hsel. rewrite Hsel.
    assert (u_email user = email) as Hem.
    { assert (user ∈ select_user_by_email email d) as Hin by (rewrite Hsel; left).
      by apply list_elem_of_filter in Hin as [? _]. }
    split; [by intros ->|]. split; intros -> ->; simpl; [done|]. by rewrite Hem.
  - intros w. destruct store_fails; [done|].
    destruct (select_user_by_email email d) as [|u us] eqn:E; [done|].
    assert (u ∈ select_user_by_email email d) as Hin by (rewrite E; left).
    apply list_elem_of_filter in Hin as [Hem Hin].
    destruct (u_is_active u) eqn:Hact; [|done].
    destruct (bcrypt_compare password (u_password_hash u)) eqn:Hpw; [|done].
    simpl. rewrite Hem.
    destruct (jwt_sign env (u_id u) email) as [token|] eqn:Hjwt; [|done].
    simpl. intros [= <-]. by exists u, token.
Qed.

Lemma login_outcomes_witness :
  post_login Tokens.compare Transfer.env false "asha@example.in" "secret1"
    (st_ledger Examples.funded)
  = (LoggedIn ("jwt." +:+ Examples.asha) Examples.asha "asha@example.in" "Asha" "9876543210",
     Some (mkSessionWrite ("session:" +:+ Examples.asha) 604800
             (mkSession Examples.asha "asha@example.in" 4)))
  ∧ post_login Tokens.compare Transfer.env false "asha@example.in" "guess"
      (st_ledger Examples.funded)
    = (LoginFailure 401 "Invalid email or password", None)
  ∧ post_login Tokens.compare Stale.unsigned false "asha@example.in" "secret1"
      (st_ledger Examples.funded)
    = (LoginFailure 500 "Login failed", None)
  ∧ post_login Tokens.compare Transfer.env false "nobody@example.in" "guess"
      (st_ledger Examples.funded)
    = (LoginFailure 401 "Invalid email or password", None).
Proof.
  split; [by vm_compute|]. split; [by vm_compute|]. split; [by vm_compute|].
  destruct (login_outcomes Tokens.compare Transfer.env false "nobody@example.in" "guess"
              (st_ledger Examples.funded)) as (_ & H & _).
  apply H; [reflexivity|]. rewrite funded_ledger. apply (bool_decide_unpack _). by vm_compute.
Defined.

(** X21. Who has registered can log in: if the hash fits its column and
    [bcrypt.compare] accepts a password against its own hash, then after a
    registration answered 201 a login with the e-mail address the
    registration answered and the same password, against the ledger the
    registration left, finds the user just registered: it answers with the
    token [jwt.sign] returns and writes that user's session, and answers 500
    without a session when [jwt.sign] throws. *)
Theorem registered_user_can_log_in bcrypt_compare env env' email password name phone s
    token id email' name' phone' :
  response_of (serve (post_register env email password name phone) s)
  = inr (Success 201 (RegisterData token id email' name' phone')) →
  varchar 255 (bcrypt_hash env password) = inr (bcrypt_hash env password) →
  bcrypt_compare password (bcrypt_hash env password) = true →
  id = uuid env 0
  ∧ post_login bcrypt_compare env' false email' password
      (st_ledger (store_of (serve (post_register env email password name phone) s)))
    = match jwt_sign env' id email' with
      | Some token' =>
          (LoggedIn token' id email' name' phone',
           Some (mkSessionWrite (session_key id) 604800 (mkSession id email' (now env'))))
      | None => (LoginFailure 500 "Login failed", None)
      end.
Proof.
  intros Hok Hfit Hpw.
  apply post_register_ledger in Hok as (u & tok & Hc & _ & _ & Hdata & _ & Hfem & Husers).
  injection Hdata as -> -> -> -> ->. split; [done|].
  apply users_columns_inv in Hc as (Hid & Hact & _ & Hhash & _). simpl in *.
  rewrite Hfit in Hhash. injection Hhash as Hhash.
  unfold post_login, select_user_by_email. rewrite Husers.
  rewrite filter_fresh_user; [|
    intros x Hx Hem; apply Hfem; apply list_elem_of_fmap; eauto | done].
  rewrite Hact, <- Hhash, Hpw, Hid. simpl. done.
Qed.

Lemma registered_user_can_log_in_witness :
  post_login Tokens.compare Twice.env1 false "mira@example.in" "secret3"
    (st_ledger (store_of (serve (post_register Transfer.env "mira@example.in" "secret3"
                                   "Mira" "9876543212") Examples.funded)))
  = (LoggedIn ("jwt." +:+ Examples.t2) Examples.t2 "mira@example.in" "Mira" "9876543212",
     Some (mkSessionWrite ("session:" +:+ Examples.t2) 604800
             (mkSession Examples.t2 "mira@example.in" (now Twice.env1)))).
Proof.
  destruct (registered_user_can_log_in Tokens.compare Transfer.env Twice.env1
              "mira@example.in" "secret3" "Mira" "9876543212" Examples.funded
              ("jwt." +:+ Examples.t2) Examples.t2 "mira@example.in" "Mira" "9876543212")
    as [_ H].
  - by vm_compute.
  - by vm_compute.
  - by vm_compute.
  - rewrite H. reflexivity.
Defined.

Lemma get_balance_response env user_id s :
  response_of (serve (get_balance env user_id) s)
  = inr match redis_lookup (now env) (balance_key user_id) (st_redis s) with
        | Some v => Success 200 (BalanceData v (now env) true)
        | None =>
            if fault env (SelectBalance user_id)
            then Failure 500 "Failed to fetch balance"
            else match select_balance user_id (st_ledger s) with
                 | [] => Failure 404 "Wallet not found"
                 | b :: _ => Success 200 (BalanceData b (now env) false)
                 end
        end.
Proof.
  destruct s as [d r]. unfold_handler. simpl.
  destruct (redis_lookup (now env) (balance_key user_id) r); [done|].
  destruct (fault env (SelectBalance user_id)); simpl; [done|].
  by destruct (select_balance user_id d).
Qed.

(** X22. Logout deletes the session entry of the user and nothing else: the
    ledger is untouched and no cached balance is lost or changed, so every
    balance read is answered as before. When Redis rejects the deletion the
    answer is 500 "Logout failed" and nothing is deleted. Either way the
    token is not revoked: the middleware, which never looks at the session,
    decides on every header exactly as it did before the logout. *)
Theorem logout_only_drops_the_session env user_id s :
  serve_as (post_logout env user_id) s
  = (if del_fault env (session_key user_id)
     then (inr (LogoutFailure 500 "Logout failed"), s, [EvRedisDel (session_key user_id)])
     else (inr (LoggedOut "Logout successful"),
           mkStore (st_ledger s) (delete (session_key user_id) (st_redis s)),
           [EvRedisDel (session_key user_id)]))
  ∧ (∀ u, st_redis (serve_as (post_logout env user_id) s).1.2 !! balance_key u
          = st_redis s !! balance_key u)
  ∧ (∀ env' u,
       response_of (serve (get_balance env' u) (serve_as (post_logout env user_id) s).1.2)
       = response_of (serve (get_balance env' u) s))
  ∧ (∀ jwt_verify store_fails authHeader,
       authenticateToken jwt_verify store_fails authHeader
         (st_ledger (serve_as (post_logout env user_id) s).1.2)
       = authenticateToken jwt_verify store_fails authHeader (st_ledger s)).
Proof.
  destruct s as [d r].
  assert (Hrun : serve_as (post_logout env user_id) (mkStore d r)
                 = (if del_fault env (session_key user_id)
                    then (inr (LogoutFailure 500 "Logout failed"), mkStore d r,
                          [EvRedisDel (session_key user_id)])
                    else (inr (LoggedOut "Logout successful"),
                          mkStore d (delete (session_key user_id) r),
                          [EvRedisDel (session_key user_id)]))).
  { unfold serve_as, post_logout. unfold_handler. simpl.
    by destruct (del_fault env (session_key user_id)). }
  assert (Hkeys : ∀ u, delete (session_key user_id) r !! balance_key u = r !! balance_key u).
  { intros u. apply lookup_delete_ne. unfold session_key, balance_key. simpl.
    intros [=]. }
  rewrite Hrun. simpl. split; [done|].
  destruct (del_fault env (session_key user_id)); simpl; [done|].
  split; [done|]. split; [|done].
  intros env' u. rewrite !get_balance_response. simpl. unfold redis_lookup.
  by rewrite Hkeys.
Qed.

(** ** Search *)

Section search_properties.
Variable ilike : string → string → bool.
Variable scan : list User → list User.
Hypothesis scan_permutes : ∀ l, scan l ≡ₚ l.

(** X23. The user search, whatever order the store returns rows in, shows
    at most ten users, never the caller and never a deactivated user; each
    one is a user of the ledger whose name, e-mail address or phone number
    matches the pattern ["%" + query + "%"], shown by id, name, e-mail
    address and phone number. When no more than ten users qualify, all of
    them are shown. A failure of the store is answered 500. *)
Theorem search_results searchQuery userId d rs :
  get_search ilike scan false searchQuery userId d = SearchResult rs →
  (length rs ≤ 10)%nat
  ∧ (∀ r, r ∈ rs →
          su_id r ≠ userId
          ∧ ∃ u, u ∈ users d ∧ u_is_active u = true
                 ∧ r = mkSearchUser (u_id u) (u_name u) (u_email u) (u_phone u)
                 ∧ (ilike (u_name u) ("%" +:+ searchQuery +:+ "%") = true
                    ∨ ilike (u_email u) ("%" +:+ searchQuery +:+ "%") = true
                    ∨ ilike (u_phone u) ("%" +:+ searchQuery +:+ "%") = true))
  ∧ (∀ u, (length rs < 10)%nat →
          u ∈ users d → u_is_active u = true → u_id u ≠ userId →
          ilike (u_name u) ("%" +:+ searchQuery +:+ "%") = true
          ∨ ilike (u_email u) ("%" +:+ searchQuery +:+ "%") = true
          ∨ ilike (u_phone u) ("%" +:+ searchQuery +:+ "%") = true →
          mkSearchUser (u_id u) (u_name u) (u_email u) (u_phone u) ∈ rs)
  ∧ get_search ilike scan true searchQuery userId d
    = SearchFailure 500 "Failed to search users".
Proof.
  unfold get_search, search_query. intros [= <-].
  set (pattern := "%" +:+ searchQuery +:+ "%").
  set (hits := filter _ (users d)).
  split; [|split; [|split; [|done]]].
  - rewrite length_fmap, length_take. lia.
  - intros r Hr. apply list_elem_of_fmap in Hr as (u & -> & Hu).
    apply subseteq_take in Hu. rewrite scan_permutes in Hu.
    apply list_elem_of_filter in Hu as [(Hm & Hid & Hact) Hu]. simpl.
    split; [done|]. exists u. done.
  - intros u Hlen Hu Hact Hid Hm. rewrite length_fmap, length_take in Hlen.
    apply list_elem_of_fmap. exists u. split; [done|].
    rewrite take_ge by lia. rewrite scan_permutes.
    apply list_elem_of_filter. done.
Qed.

End search_properties.

Lemma search_results_witness :
  get_search (λ _ _, true) (λ l, l) false "" Examples.asha (st_ledger Examples.funded)
  = SearchResult [mkSearchUser Examples.ravi "Ravi" "ravi@example.in" "9876543211"]
  ∧ mkSearchUser Examples.asha "Asha" "asha@example.in" "9876543210"
    ∉ [mkSearchUser Examples.ravi "Ravi" "ravi@example.in" "9876543211"].
Proof.
  assert (H : get_search (λ _ _, true) (λ l, l) false "" Examples.asha (st_ledger Examples.funded)
              = SearchResult [mkSearchUser Examples.ravi "Ravi" "ravi@example.in" "9876543211"])
    by (by vm_compute).
  split; [exact H|].
  destruct (search_results (λ _ _, true) (λ l, l) (λ l, reflexivity l) "" Examples.asha
              (st_ledger Examples.funded) _ H) as (_ & Hown & _).
  intros Hin. by destruct (Hown _ Hin) as [Hne _].
Defined.

(** ** Deposits the ledger refuses *)

Ltac not_in_log :=
  let H := fresh in
  intros H; repeat (apply elem_of_cons in H as [H|H]; [done|]); by apply elem_of_nil in H.

(** X24. The ledger, not the handler, turns bad deposits away: a deposit
    for a user id that is not in [users], of an amount that is not positive
    once rounded to two decimals, or under a transaction id or a reference
    id (as its column takes it) already in use is answered 500 "Failed to
    add money" and rolled back, with ledger and cache as before. *)
Theorem deposit_refused env userId amount paymentMethod s :
  userId ∉ (u_id <$> users (st_ledger s))
  ∨ to_numeric_2 amount ≤ 0
  ∨ uuid env 0 ∈ (t_id <$> transactions (st_ledger s))
  ∨ (∀ ref, varchar 100 ("ADD_" +:+ stamp env) = inr ref →
            Some ref ∈ (t_reference_id <$> transactions (st_ledger s))) →
  response_of (serve (post_add_money env userId amount paymentMethod) s)
  = inr (Failure 500 "Failed to add money")
  ∧ store_of (serve (post_add_money env userId amount paymentMethod) s) = s
  ∧ EvQuery Commit ∉ log_of (serve (post_add_money env userId amount paymentMethod) s).
Proof.
  intros Hbad.
  assert (Hins : ∃ e, insert_transaction
            (mkTransaction (uuid env 0) (Some userId) None (to_numeric_2 amount) add_money
               completed (Some paymentMethod) None (Some ("ADD_" +:+ stamp env)) (now env))
            (st_ledger s) = inl e).
  { match goal with |- ∃ e, ?x = inl e => destruct x as [e|[d1 r]] eqn:Hins end;
      [by eexists|]. exfalso.
    pose proof (insert_transaction_checks _ _ _ _ Hins) as (Hpos & _ & Hsender & _).
    apply insert_transaction_inv in Hins as (t' & Hc & _ & _ & _ & _ & Hfid & Hfref).
    apply transactions_columns_inv in Hc as (_ & _ & _ & _ & _ & _ & _ & _ & _ & Href & _).
    simpl in *. unfold and_then in Href.
    destruct Hbad as [H|[H|[H|H]]].
    - apply H. by apply Hsender.
    - lia.
    - done.
    - destruct (varchar 100 ("ADD_" +:+ stamp env)) as [e|ref] eqn:Hv; [done|].
      injection Href as Href. rewrite <- Href in Hfref.
      apply Hfref; [by eexists|]. by apply H. }
  destruct Hins as [e Hins]. destruct s as [d r]. simpl in Hins.
  unfold_handler. simpl.
  destruct (fault env Begin); simpl.
  { split; [done|]. split; [done|]. not_in_log. }
  destruct (fault env (InsertTransaction add_money)); simpl.
  { split; [done|]. split; [done|]. not_in_log. }
  rewrite Hins. simpl. split; [done|]. split; [done|]. not_in_log.
Qed.

Lemma deposit_refused_witness :
  response_of (serve (post_add_money Transfer.env Examples.nobody (paise 2500) "UPI")
                 Examples.funded)
  = inr (Failure 500 "Failed to add money")
  ∧ store_of (serve (post_add_money Transfer.env Examples.nobody (paise 2500) "UPI")
                Examples.funded)
    = Examples.funded
  ∧ response_of (serve (post_add_money Transfer.env Examples.asha (mkDecimal 4 3) "UPI")
                   Examples.funded)
    = inr (Failure 500 "Failed to add money").
Proof.
  destruct (deposit_refused Transfer.env Examples.nobody (paise 2500) "UPI" Examples.funded)
    as (H1 & H2 & _).
  - left. rewrite funded_ledger. apply (bool_decide_unpack _). by vm_compute.
  - split; [exact H1|]. split; [exact H2|]. by vm_compute.
Defined.
